(** * The Tetromino distractor of cogandmem (src/cogandmem/tetromino.py)

    A shallow embedding of the game board ([GameBoard]), the pieces
    ([Piece]) and the session loop ([distractor]) of the module, with the
    properties of the engine stated and proved over it.

    Conventions of the embedding:
    - Python integers are [Z]; list subscripts follow Python: an index [i]
      with [-len <= i < 0] denotes position [len + i], any other index
      outside [0, len) raises [IndexError];
    - a function that can raise returns a [result];
    - [time.time()] readings are rationals ([Q]) drawn from the world the
      session runs in, as are the random draws and the polled events. *)

From Stdlib Require Import ZArith QArith String Ascii List Bool Lia.
From stdpp Require Import base list.

Local Open Scope Z_scope.

(** ** Exceptions and results *)

Inductive exn : Set := IndexError | AttributeError | AssertionError | SystemExit.

(** What running a piece of code gives: a value, an exception, or nothing
    yet because the fuel given to a [while] loop ran out. *)
Inductive result (A : Type) : Type :=
| Ok (a : A)
| Raise (e : exn)
| OutOfFuel.
Arguments Ok {A} a.
Arguments Raise {A} e.
Arguments OutOfFuel {A}.

Definition rbind {A B} (m : result A) (k : A -> result B) : result B :=
  match m with
  | Ok a => k a
  | Raise e => Raise e
  | OutOfFuel => OutOfFuel
  end.

Notation "'let*' x := m 'in' k" := (rbind m (fun x => k))
  (at level 10, x name, m at level 100, k at level 200).

(** ** Python sequences *)

Module Py.

(** The position a subscript denotes in a sequence of [n] items. *)
Definition norm (n : nat) (i : Z) : option nat :=
  if (0 <=? i) && (i <? Z.of_nat n) then Some (Z.to_nat i)
  else if (- Z.of_nat n <=? i) && (i <? 0) then Some (Z.to_nat (Z.of_nat n + i))
  else None.

(** [l[i]] *)
Definition getitem {A} (l : list A) (i : Z) : result A :=
  match norm (length l) i with
  | Some k => match l !! k with Some a => Ok a | None => Raise IndexError end
  | None => Raise IndexError
  end.

(** [l[i] = v] *)
Definition setitem {A} (l : list A) (i : Z) (v : A) : result (list A) :=
  match norm (length l) i with
  | Some k => Ok (<[k := v]> l)
  | None => Raise IndexError
  end.

(** [xrange(n)] *)
Definition xrange (n : Z) : list Z := map Z.of_nat (seq 0 (Z.to_nat n)).

(** [xrange(lo, hi)] *)
Definition xrange2 (lo hi : Z) : list Z := map (fun k => lo + k) (xrange (hi - lo)).

(** [xrange(hi, lo, -1)]: hi, hi-1, ..., lo+1 *)
Definition xrange_down (hi lo : Z) : list Z := map (fun k => hi - k) (xrange (hi - lo)).

End Py.

(** ** Constants of the module *)

Definition LINES_PER_LEVEL : Z := 10.
Definition BASE_FALL_FREQUENCY : Q := 35 # 100.
Definition FALL_FREQUENCY_INCREASE_PER_LEVEL : Q := 1 # 100.
Definition NEW_PIECES_START_Y : Z := -2.
Definition MOVE_SIDEWAYS_FREQUENCY : Q := 15 # 100.
Definition MOVE_DOWN_FREQUENCY : Q := 1 # 10.

(** [COLOURS] has four entries; only its length matters here. *)
Definition COLOURS_len : Z := 4.

Definition BLANK : ascii := "."%char.
Definition TEMPLATE_WIDTH : Z := 5.
Definition TEMPLATE_HEIGHT : Z := 5.

(** ** Shape templates *)

Inductive Shape : Set := S_ | Z_ | J_ | L_ | I_ | O_ | T_.

Definition template : Type := list string.

Definition S_SHAPE_TEMPLATE : list template := [
  [".....";".....";"..OO.";".OO..";"....."];
  [".....";"..O..";"..OO.";"...O.";"....."]
]%string.
Definition Z_SHAPE_TEMPLATE : list template := [
  [".....";".....";".OO..";"..OO.";"....."];
  [".....";"..O..";".OO..";".O...";"....."]
]%string.
Definition I_SHAPE_TEMPLATE : list template := [
  ["..O..";"..O..";"..O..";"..O..";"....."];
  [".....";".....";"OOOO.";".....";"....."]
]%string.
Definition O_SHAPE_TEMPLATE : list template := [
  [".....";".....";".OO..";".OO..";"....."]
]%string.
Definition J_SHAPE_TEMPLATE : list template := [
  [".....";".O...";".OOO.";".....";"....."];
  [".....";"..OO.";"..O..";"..O..";"....."];
  [".....";".....";".OOO.";"...O.";"....."];
  [".....";"..O..";"..O..";".OO..";"....."]
]%string.
Definition L_SHAPE_TEMPLATE : list template := [
  [".....";"...O.";".OOO.";".....";"....."];
  [".....";"..O..";"..O..";"..OO.";"....."];
  [".....";".....";".OOO.";".O...";"....."];
  [".....";".OO..";"..O..";"..O..";"....."]
]%string.
Definition T_SHAPE_TEMPLATE : list template := [
  [".....";"..O..";".OOO.";".....";"....."];
  [".....";"..O..";"..OO.";"..O..";"....."];
  [".....";".....";".OOO.";"..O..";"....."];
  [".....";"..O..";".OO..";"..O..";"....."]
]%string.

Definition PIECES (s : Shape) : list template :=
  match s with
  | S_ => S_SHAPE_TEMPLATE | Z_ => Z_SHAPE_TEMPLATE | J_ => J_SHAPE_TEMPLATE
  | L_ => L_SHAPE_TEMPLATE | I_ => I_SHAPE_TEMPLATE | O_ => O_SHAPE_TEMPLATE
  | T_ => T_SHAPE_TEMPLATE
  end.

(** [len(PIECES[s])] *)
Definition orientations (s : Shape) : Z := Z.of_nat (length (PIECES s)).

(** [PIECES[s][o][y][x]] *)
Definition template_cell (s : Shape) (o y x : Z) : result ascii :=
  let* t := Py.getitem (PIECES s) o in
  let* row := Py.getitem t y in
  Py.getitem (list_ascii_of_string row) x.

(** ** The game board *)

(** A cell of [GameBoard.state]: [BLANK] or an index from [COLOURS]. *)
Inductive cell : Set := Blank | Colour (c : Z).

Definition is_blank (c : cell) : bool :=
  match c with Blank => true | Colour _ => false end.

Record GameBoard : Type := mkBoard {
  columns : Z;
  rows : Z;
  state : list (list cell);
  left : Z;
  top : Z;
  cell_size : Z
}.

Definition set_state (b : GameBoard) (s : list (list cell)) : GameBoard :=
  mkBoard (columns b) (rows b) s (left b) (top b) (cell_size b).

(** [[BLANK]*rows] for each of [xrange(columns)] *)
Definition blank_state (columns rows : Z) : list (list cell) :=
  map (fun _ => replicate (Z.to_nat rows) Blank) (Py.xrange columns).

(** [GameBoard.__init__]: the attributes [columns] and [rows] are set to
    10 and 20 whatever the arguments; the state is built from the
    arguments. *)
Definition GameBoard_init (left top cell_size columns rows : Z) : GameBoard :=
  mkBoard 10 20 (blank_state columns rows) left top cell_size.

(** [GameBoard.reset] *)
Definition reset (b : GameBoard) : GameBoard :=
  set_state b (blank_state (columns b) (rows b)).

(** [GameBoard.is_on_board] *)
Definition is_on_board (b : GameBoard) (x y : Z) : bool :=
  (0 <=? x) && (x <? columns b) && (0 <=? y) && (y <? rows b).

(** [b.state[x][y]] *)
Definition state_get (b : GameBoard) (x y : Z) : result cell :=
  let* col := Py.getitem (state b) x in
  Py.getitem col y.

(** [b.state[x][y] = v] *)
Definition state_set (b : GameBoard) (x y : Z) (v : cell) : result GameBoard :=
  let* col := Py.getitem (state b) x in
  let* col' := Py.setitem col y v in
  let* s' := Py.setitem (state b) x col' in
  Ok (set_state b s').

(** [GameBoard.is_complete_line]: the scan of the columns stops at the
    first blank cell. *)
Fixpoint is_complete_line_from (b : GameBoard) (y : Z) (xs : list Z) : result bool :=
  match xs with
  | [] => Ok true
  | x :: xs' =>
      let* current_cell := state_get b x y in
      if is_blank current_cell then Ok false
      else is_complete_line_from b y xs'
  end.

Definition is_complete_line (b : GameBoard) (y : Z) : result bool :=
  is_complete_line_from b y (Py.xrange (columns b)).

(** A [for] loop whose body can raise. *)
Fixpoint for_each {A S} (xs : list A) (body : A -> S -> result S) (s : S) : result S :=
  match xs with
  | [] => Ok s
  | x :: xs' => let* s' := body x s in for_each xs' body s'
  end.

(** The body of the [if] in [remove_complete_lines]: pull the rows above
    [y] down by one and blank the top row. *)
Definition pull_down (b : GameBoard) (y : Z) : result GameBoard :=
  let* b1 :=
    for_each (Py.xrange_down y 0) (fun pull_down_y b =>
      for_each (Py.xrange (columns b)) (fun x b =>
        let* v := state_get b x (pull_down_y - 1) in
        state_set b x pull_down_y v) b) b in
  for_each (Py.xrange (columns b1)) (fun x b => state_set b x 0 Blank) b1.

(** The [while y >= 0] loop of [remove_complete_lines], by fuel. *)
Fixpoint remove_loop (fuel : nat) (b : GameBoard) (y lines : Z)
  : result (Z * GameBoard) :=
  match fuel with
  | O => OutOfFuel
  | S fuel' =>
      if 0 <=? y then
        let* complete := is_complete_line b y in
        if complete then
          let* b' := pull_down b y in
          remove_loop fuel' b' y (lines + 1)
        else remove_loop fuel' b (y - 1) lines
      else Ok (lines, b)
  end.

(** [GameBoard.remove_complete_lines] *)
Definition remove_complete_lines (fuel : nat) (b : GameBoard)
  : result (Z * GameBoard) :=
  remove_loop fuel b (rows b - 1) 0.

(** ** Pieces *)

Record Piece : Type := mkPiece {
  shape : Shape;
  x : Z;
  y : Z;
  orientation : Z;
  colour : Z
}.

Definition set_x (self : Piece) (v : Z) : Piece :=
  mkPiece (shape self) v (y self) (orientation self) (colour self).
Definition set_y (self : Piece) (v : Z) : Piece :=
  mkPiece (shape self) (x self) v (orientation self) (colour self).
Definition set_orientation (self : Piece) (v : Z) : Piece :=
  mkPiece (shape self) (x self) (y self) v (colour self).

(** [Piece.__init__] once the shape, orientation and colour are known
    (given by the caller or drawn at random, see [new_piece]). *)
Definition Piece_init (b : GameBoard) (s : Shape) (o c : Z) : Piece :=
  mkPiece s (columns b / 2 - TEMPLATE_WIDTH / 2) NEW_PIECES_START_Y o c.

(** [PIECES[self.shape][self.orientation][ty][tx] != BLANK] *)
Definition needs_colour (self : Piece) (tx ty : Z) : result bool :=
  let* c := template_cell (shape self) (orientation self) ty tx in
  Ok (negb (Ascii.eqb c BLANK)).

(** [Piece.add_to_board] *)
Definition add_to_board (self : Piece) (b : GameBoard) : result GameBoard :=
  for_each (Py.xrange TEMPLATE_WIDTH) (fun tx b =>
    for_each (Py.xrange TEMPLATE_HEIGHT) (fun ty b =>
      let* nc := needs_colour self tx ty in
      if nc then state_set b (tx + x self) (ty + y self) (Colour (colour self))
      else Ok b) b) b.

(** The inner [for y] loop of [is_valid_position] for the template column
    [tx]: [continue] goes on with the next row, [break] leaves this loop
    with [valid] set to [False]. *)
Fixpoint valid_column (self : Piece) (b : GameBoard) (x_adjustment y_adjustment : Z)
    (tx : Z) (tys : list Z) (valid : bool) : result bool :=
  match tys with
  | [] => Ok valid
  | ty :: tys' =>
      let is_above_board := ty + y self + y_adjustment <? 0 in
      let* skip :=
        if is_above_board then Ok true
        else let* nc := needs_colour self tx ty in Ok (negb nc) in
      if skip then valid_column self b x_adjustment y_adjustment tx tys' valid
      else if negb (is_on_board b (tx + x self + x_adjustment) (ty + y self + y_adjustment))
      then Ok false
      else
        let* c := state_get b (tx + x self + x_adjustment) (ty + y self + y_adjustment) in
        if negb (is_blank c) then Ok false
        else valid_column self b x_adjustment y_adjustment tx tys' valid
  end.

(** [Piece.is_valid_position] *)
Definition is_valid_position (self : Piece) (b : GameBoard)
    (x_adjustment y_adjustment : Z) : result bool :=
  for_each (Py.xrange TEMPLATE_WIDTH) (fun tx valid =>
    valid_column self b x_adjustment y_adjustment tx (Py.xrange TEMPLATE_HEIGHT) valid)
    true.

Definition legal_left (self : Piece) (b : GameBoard) : result bool :=
  is_valid_position self b (-1) 0.
Definition legal_right (self : Piece) (b : GameBoard) : result bool :=
  is_valid_position self b 1 0.
Definition legal_down (self : Piece) (b : GameBoard) : result bool :=
  is_valid_position self b 0 1.

Definition move_left (self : Piece) : Piece := set_x self (x self - 1).
Definition move_right (self : Piece) : Piece := set_x self (x self + 1).
Definition move_down (self : Piece) : Piece := set_y self (y self + 1).

(** The [for i in xrange(1, b.rows)] loop of [move_to_bottom]. *)
Fixpoint drop_loop (self : Piece) (b : GameBoard) (iters : list Z) : result Piece :=
  match iters with
  | [] => Ok self
  | _ :: iters' =>
      let* legal := legal_down self b in
      if negb legal then Ok self
      else drop_loop (set_y self (y self + 1)) b iters'
  end.

(** [Piece.move_to_bottom] *)
Definition move_to_bottom (self : Piece) (b : GameBoard) : result Piece :=
  drop_loop self b (Py.xrange2 1 (rows b)).

(** [Piece.rotate_clockwise] *)
Definition rotate_clockwise (self : Piece) (b : GameBoard) : result Piece :=
  let self1 := set_orientation self ((orientation self + 1) mod orientations (shape self)) in
  let* valid := is_valid_position self1 b 0 0 in
  if negb valid
  then Ok (set_orientation self1 ((orientation self1 - 1) mod orientations (shape self1)))
  else Ok self1.

(** [Piece.rotate_counterclockwise] *)
Definition rotate_counterclockwise (self : Piece) (b : GameBoard) : result Piece :=
  let self1 := set_orientation self ((orientation self - 1) mod orientations (shape self)) in
  let* valid := is_valid_position self1 b 0 0 in
  if negb valid
  then Ok (set_orientation self1 ((orientation self1 + 1) mod orientations (shape self1)))
  else Ok self1.

(** [rotate_clockwise] called [n] times in a row. *)
Fixpoint rotate_clockwise_times (n : nat) (self : Piece) (b : GameBoard)
  : result Piece :=
  match n with
  | O => Ok self
  | S n' =>
      let* self' := rotate_clockwise self b in
      rotate_clockwise_times n' self' b
  end.

(** ** Levels *)

(** [calculate_level] *)
Definition calculate_level (score : Z) : Z := score / LINES_PER_LEVEL + 1.

(** [calculate_fall_frequency] *)
Definition calculate_fall_frequency (level : Z) : Q :=
  (BASE_FALL_FREQUENCY - (inject_Z level * FALL_FREQUENCY_INCREASE_PER_LEVEL))%Q.

(** ** The world of a session

    The clock, the random generator and the event queue are streams the
    session reads from; each read advances the stream. *)

Inductive Key : Set :=
| K_LEFT | K_a | K_RIGHT | K_d | K_DOWN | K_s | K_SPACE | K_UP | K_w | K_q
| K_ESCAPE | K_BACKSPACE | K_other (code : Z).

Inductive Event : Set := QUIT | KEYUP (key : Key) | KEYDOWN (key : Key) | OTHER.

Definition Key_eqb (a b : Key) : bool :=
  match a, b with
  | K_LEFT, K_LEFT | K_a, K_a | K_RIGHT, K_RIGHT | K_d, K_d | K_DOWN, K_DOWN
  | K_s, K_s | K_SPACE, K_SPACE | K_UP, K_UP | K_w, K_w | K_q, K_q
  | K_ESCAPE, K_ESCAPE | K_BACKSPACE, K_BACKSPACE => true
  | K_other c, K_other d => c =? d
  | _, _ => false
  end.

(** [key in keys] *)
Definition key_in (key : Key) (keys : list Key) : bool := existsb (Key_eqb key) keys.

Definition MOVE_LEFT : list Key := [K_LEFT; K_a].
Definition MOVE_RIGHT : list Key := [K_RIGHT; K_d].
Definition MOVE_DOWN : list Key := [K_DOWN; K_s].
Definition MOVE_TO_BOTTOM : list Key := [K_SPACE].
Definition ROTATE_CLOCKWISE : list Key := [K_UP; K_w].
Definition ROTATE_COUNTERCLOCKWISE : list Key := [K_q].

Record World : Type := mkWorld {
  clock : nat -> Q;            (* the readings of [time.time()] *)
  clock_reads : nat;
  random : nat -> Z;           (* the draws of [np.random] *)
  random_draws : nat;
  events : nat -> list Event;  (* the batches of [pygame.event.get()] *)
  event_polls : nat
}.

Definition M (A : Type) : Type := World -> result (A * World).

Definition ret {A} (a : A) : M A := fun w => Ok (a, w).

Definition bind {A B} (m : M A) (k : A -> M B) : M B :=
  fun w => let* r := m w in k (fst r) (snd r).

Notation "'do*' x := m 'in' k" := (bind m (fun x => k))
  (at level 10, x name, m at level 100, k at level 200).

Definition lift {A} (r : result A) : M A :=
  fun w => let* a := r in Ok (a, w).

(** [time.time()] *)
Definition time_time : M Q :=
  fun w => Ok (clock w (clock_reads w),
               mkWorld (clock w) (S (clock_reads w)) (random w) (random_draws w)
                       (events w) (event_polls w)).

(** [np.random.randint(low, high)] *)
Definition randint (low high : Z) : M Z :=
  fun w => Ok (low + random w (random_draws w) mod (high - low),
               mkWorld (clock w) (clock_reads w) (random w) (S (random_draws w))
                       (events w) (event_polls w)).

(** [pygame.event.get()] *)
Definition event_get : M (list Event) :=
  fun w => Ok (events w (event_polls w),
               mkWorld (clock w) (clock_reads w) (random w) (random_draws w)
                       (events w) (S (event_polls w))).

(** [tuple(PIECES.keys())] *)
Definition PIECES_keys : list Shape := [S_; Z_; J_; L_; I_; O_; T_].

(** [np.random.choice(tuple(PIECES.keys()))] *)
Definition random_shape : M Shape :=
  do* i := randint 0 (Z.of_nat (length PIECES_keys)) in
  ret (nth (Z.to_nat i) PIECES_keys S_).

(** [Piece(b)]: shape, orientation and colour drawn at random. *)
Definition new_piece (b : GameBoard) : M Piece :=
  do* s := random_shape in
  do* o := randint 0 (orientations s) in
  do* c := randint 0 COLOURS_len in
  ret (Piece_init b s o c).

(** [a < b] and [a > b] on clock readings *)
Definition Qltb (a b : Q) : bool := negb (Qle_bool b a).
Definition Qgtb (a b : Q) : bool := Qltb b a.

(** ** The session loop of [distractor] *)

(** The arguments of [distractor] the game depends on. The board geometry
    ([x_margin], [top_margin], [cell_size]) is what [fit_board_to_screen]
    returned for the screen. *)
Record Config : Type := mkConfig {
  duration : Q;
  arg_columns : Z;
  arg_rows : Z;
  top_exclude : Q;
  right_exclude : Q;
  bottom_exclude : Q;
  left_exclude : Q;
  fall_frequency : Q;
  fps : Z;
  press_to_quit : list Key;
  x_margin : Z;
  top_margin : Z;
  board_cell_size : Z
}.

(** The local variables of [distractor] the loop works on. *)
Record Session : Type := mkSession {
  game_board : GameBoard;
  falling_piece : option Piece;
  next_piece : Piece;
  moving_down : bool;
  moving_left : bool;
  moving_right : bool;
  last_move_down_time : Q;
  last_move_sideways_time : Q;
  last_fall_time : Q;
  lines : Z;
  losses : Z
}.

Definition set_game_board (st : Session) (v : GameBoard) : Session :=
  mkSession v (falling_piece st) (next_piece st) (moving_down st) (moving_left st)
    (moving_right st) (last_move_down_time st) (last_move_sideways_time st)
    (last_fall_time st) (lines st) (losses st).
Definition set_falling_piece (st : Session) (v : option Piece) : Session :=
  mkSession (game_board st) v (next_piece st) (moving_down st) (moving_left st)
    (moving_right st) (last_move_down_time st) (last_move_sideways_time st)
    (last_fall_time st) (lines st) (losses st).
Definition set_next_piece (st : Session) (v : Piece) : Session :=
  mkSession (game_board st) (falling_piece st) v (moving_down st) (moving_left st)
    (moving_right st) (last_move_down_time st) (last_move_sideways_time st)
    (last_fall_time st) (lines st) (losses st).
Definition set_moving_down (st : Session) (v : bool) : Session :=
  mkSession (game_board st) (falling_piece st) (next_piece st) v (moving_left st)
    (moving_right st) (last_move_down_time st) (last_move_sideways_time st)
    (last_fall_time st) (lines st) (losses st).
Definition set_moving_left (st : Session) (v : bool) : Session :=
  mkSession (game_board st) (falling_piece st) (next_piece st) (moving_down st) v
    (moving_right st) (last_move_down_time st) (last_move_sideways_time st)
    (last_fall_time st) (lines st) (losses st).
Definition set_moving_right (st : Session) (v : bool) : Session :=
  mkSession (game_board st) (falling_piece st) (next_piece st) (moving_down st)
    (moving_left st) v (last_move_down_time st) (last_move_sideways_time st)
    (last_fall_time st) (lines st) (losses st).
Definition set_last_move_down_time (st : Session) (v : Q) : Session :=
  mkSession (game_board st) (falling_piece st) (next_piece st) (moving_down st)
    (moving_left st) (moving_right st) v (last_move_sideways_time st)
    (last_fall_time st) (lines st) (losses st).
Definition set_last_move_sideways_time (st : Session) (v : Q) : Session :=
  mkSession (game_board st) (falling_piece st) (next_piece st) (moving_down st)
    (moving_left st) (moving_right st) (last_move_down_time st) v
    (last_fall_time st) (lines st) (losses st).
Definition set_last_fall_time (st : Session) (v : Q) : Session :=
  mkSession (game_board st) (falling_piece st) (next_piece st) (moving_down st)
    (moving_left st) (moving_right st) (last_move_down_time st)
    (last_move_sideways_time st) v (lines st) (losses st).
Definition set_lines (st : Session) (v : Z) : Session :=
  mkSession (game_board st) (falling_piece st) (next_piece st) (moving_down st)
    (moving_left st) (moving_right st) (last_move_down_time st)
    (last_move_sideways_time st) (last_fall_time st) v (losses st).
Definition set_losses (st : Session) (v : Z) : Session :=
  mkSession (game_board st) (falling_piece st) (next_piece st) (moving_down st)
    (moving_left st) (moving_right st) (last_move_down_time st)
    (last_move_sideways_time st) (last_fall_time st) (lines st) v.

(** The falling piece where the loop uses it: a method call on [None]
    raises [AttributeError]. *)
Definition the_falling_piece (st : Session) : M Piece :=
  match falling_piece st with
  | Some p => ret p
  | None => lift (Raise AttributeError)
  end.

(** [generic.terminate(files)]: closes everything and calls [sys.exit()]. *)
Definition terminate {A} : M A := lift (Raise SystemExit).

(** [if not falling_piece: ...] at the top of the loop body. *)
Definition spawn (st : Session) : M Session :=
  match falling_piece st with
  | Some _ => ret st
  | None =>
      let falling := next_piece st in
      do* next := new_piece (game_board st) in
      do* t := time_time in
      let st := set_last_fall_time
                  (set_next_piece (set_falling_piece st (Some falling)) next) t in
      do* fits := lift (is_valid_position falling (game_board st) 0 0) in
      if negb fits then
        (* The player loses. *)
        let st := set_losses st (losses st + 1) in
        let st := set_game_board st (reset (game_board st)) in
        let st := set_moving_down st false in
        let st := set_moving_left st false in
        let st := set_moving_right st false in
        do* t1 := time_time in
        let st := set_last_move_down_time st t1 in
        do* t2 := time_time in
        let st := set_last_move_sideways_time st t2 in
        do* t3 := time_time in
        let st := set_last_fall_time st t3 in
        do* falling' := new_piece (game_board st) in
        let st := set_falling_piece st (Some falling') in
        do* next' := new_piece (game_board st) in
        ret (set_next_piece st next')
      else ret st
  end.

(** The body of [for event in pygame.event.get()]. *)
Definition handle_event (cfg : Config) (event : Event) (st : Session) : M Session :=
  match event with
  | QUIT => terminate
  | KEYUP key =>
      if key_in key (press_to_quit cfg) then terminate
      else if key_in key MOVE_LEFT then ret (set_moving_left st false)
      else if key_in key MOVE_RIGHT then ret (set_moving_right st false)
      else if key_in key MOVE_DOWN then ret (set_moving_down st false)
      else ret st
  | KEYDOWN key =>
      do* go_left :=
        (if key_in key MOVE_LEFT
         then do* p := the_falling_piece st in lift (legal_left p (game_board st))
         else ret false) in
      if go_left then
        do* p := the_falling_piece st in
        let st := set_falling_piece st (Some (move_left p)) in
        let st := set_moving_left st true in
        let st := set_moving_right st false in
        do* t := time_time in
        ret (set_last_move_sideways_time st t)
      else
      do* go_right :=
        (if key_in key MOVE_RIGHT
         then do* p := the_falling_piece st in lift (legal_right p (game_board st))
         else ret false) in
      if go_right then
        do* p := the_falling_piece st in
        let st := set_falling_piece st (Some (move_right p)) in
        let st := set_moving_right st true in
        let st := set_moving_left st false in
        do* t := time_time in
        ret (set_last_move_sideways_time st t)
      else if key_in key ROTATE_CLOCKWISE then
        do* p := the_falling_piece st in
        do* p' := lift (rotate_clockwise p (game_board st)) in
        ret (set_falling_piece st (Some p'))
      else if key_in key ROTATE_COUNTERCLOCKWISE then
        do* p := the_falling_piece st in
        do* p' := lift (rotate_counterclockwise p (game_board st)) in
        ret (set_falling_piece st (Some p'))
      else
      do* go_down :=
        (if key_in key MOVE_DOWN
         then do* p := the_falling_piece st in lift (legal_down p (game_board st))
         else ret false) in
      if go_down then
        let st := set_moving_down st true in
        do* p := the_falling_piece st in
        let st := set_falling_piece st (Some (move_down p)) in
        do* t := time_time in
        ret (set_last_move_down_time st t)
      else if key_in key MOVE_TO_BOTTOM then
        let st := set_moving_left st false in
        let st := set_moving_right st false in
        let st := set_moving_down st false in
        do* p := the_falling_piece st in
        do* p' := lift (move_to_bottom p (game_board st)) in
        ret (set_falling_piece st (Some p'))
      else ret st
  | OTHER => ret st
  end.

(** [for event in pygame.event.get(): ...] *)
Fixpoint handle_events (cfg : Config) (evs : list Event) (st : Session) : M Session :=
  match evs with
  | [] => ret st
  | event :: evs' => do* st' := handle_event cfg event st in handle_events cfg evs' st'
  end.

(** The repeat of a held sideways key. *)
Definition repeat_sideways (st : Session) : M Session :=
  do* due :=
    (if moving_left st || moving_right st
     then do* now := time_time in
          ret (Qgtb (now - last_move_sideways_time st) MOVE_SIDEWAYS_FREQUENCY)
     else ret false) in
  if due then
    do* go_left :=
      (if moving_left st
       then do* p := the_falling_piece st in lift (legal_left p (game_board st))
       else ret false) in
    do* st :=
      (if go_left
       then do* p := the_falling_piece st in ret (set_falling_piece st (Some (move_left p)))
       else ret st) in
    do* go_right :=
      (if moving_right st
       then do* p := the_falling_piece st in lift (legal_right p (game_board st))
       else ret false) in
    do* st :=
      (if go_right
       then do* p := the_falling_piece st in ret (set_falling_piece st (Some (move_right p)))
       else ret st) in
    do* t := time_time in
    ret (set_last_move_sideways_time st t)
  else ret st.

(** The repeat of a held down key. *)
Definition repeat_down (st : Session) : M Session :=
  do* due :=
    (if moving_down st
     then do* now := time_time in
          if Qgtb (now - last_move_down_time st) MOVE_DOWN_FREQUENCY
          then do* p := the_falling_piece st in lift (legal_down p (game_board st))
          else ret false
     else ret false) in
  if due then
    do* p := the_falling_piece st in
    let st := set_falling_piece st (Some (move_down p)) in
    do* t := time_time in
    ret (set_last_move_down_time st t)
  else ret st.

(** The fall of the piece: [if time.time()-last_fall_time > fall_frequency]. *)
Definition gravity (fuel : nat) (cfg : Config) (st : Session) : M Session :=
  do* now := time_time in
  if Qgtb (now - last_fall_time st) (fall_frequency cfg) then
    do* p := the_falling_piece st in
    do* legal := lift (legal_down p (game_board st)) in
    if negb legal then
      (* falling_piece has landed. *)
      do* b := lift (add_to_board p (game_board st)) in
      do* r := lift (remove_complete_lines fuel b) in
      let st := set_game_board st (snd r) in
      let new_lines := fst r in
      let st := set_lines st (lines st + new_lines) in
      ret (set_falling_piece st None)
    else
      let st := set_falling_piece st (Some (move_down p)) in
      do* t := time_time in
      ret (set_last_fall_time st t)
  else ret st.

(** One pass through the body of [while time.time() < finish_time]. The
    drawing at the end of the body changes none of the variables. *)
Definition loop_body (fuel : nat) (cfg : Config) (st : Session) : M Session :=
  do* st := spawn st in
  do* evs := event_get in
  do* st := handle_events cfg evs st in
  do* st := repeat_sideways st in
  do* st := repeat_down st in
  gravity fuel cfg st.

(** [while time.time() < finish_time: ...], by fuel. *)
Fixpoint session_loop (fuel : nat) (cfg : Config) (finish_time : Q) (st : Session)
  : M Session :=
  match fuel with
  | O => lift OutOfFuel
  | S fuel' =>
      do* now := time_time in
      if Qltb now finish_time then
        do* st' := loop_body fuel' cfg st in
        session_loop fuel' cfg finish_time st'
      else ret st
  end.

(** [assert cond] *)
Definition assert (cond : bool) : M unit :=
  if cond then ret tt else lift (Raise AssertionError).

(** [distractor], without instructions, sound file and data file: returns
    [(lines, losses)]. *)
Definition distractor (fuel : nat) (cfg : Config) : M (Z * Z) :=
  do* _ := assert ((4 <? arg_columns cfg) && (4 <? arg_rows cfg)) in
  do* _ := assert (0 <? fps cfg) in
  do* _ := assert (Qle_bool 0 (top_exclude cfg + bottom_exclude cfg)
                   && Qltb (top_exclude cfg + bottom_exclude cfg) 1) in
  do* _ := assert (Qle_bool 0 (left_exclude cfg + right_exclude cfg)
                   && Qltb (left_exclude cfg + right_exclude cfg) 1) in
  let lines0 := 0 in
  let losses0 := 0 in
  let board :=
    GameBoard_init (x_margin cfg) (top_margin cfg) (board_cell_size cfg)
                   (arg_columns cfg) (arg_rows cfg) in
  do* falling := new_piece board in
  do* next := new_piece board in
  do* t_down := time_time in
  do* t_sideways := time_time in
  do* t_fall := time_time in
  do* start_time := time_time in
  let finish_time := (start_time + duration cfg)%Q in
  do* st := session_loop fuel cfg finish_time
              (mkSession board (Some falling) next false false false
                 t_down t_sideways t_fall lines0 losses0) in
  ret (lines st, losses st).

(** ** Vocabulary of the properties *)

(** The state is a [columns] by [rows] list of lists, as the docstring of
    [GameBoard] says. *)
Definition wf_board (b : GameBoard) : Prop :=
  Z.of_nat (length (state b)) = columns b /\
  Forall (fun col => Z.of_nat (length col) = rows b) (state b).

(** The cell of the board at column [cx] and row [cy], when there is one. *)
Definition cell_at (b : GameBoard) (cx cy : Z) : option cell :=
  if (0 <=? cx) && (0 <=? cy) then
    match state b !! Z.to_nat cx with
    | Some col => col !! Z.to_nat cy
    | None => None
    end
  else None.

Definition blank_at (b : GameBoard) (cx cy : Z) : bool :=
  match cell_at b cx cy with Some c => is_blank c | None => false end.

(** The orientation indexes a template of the shape. *)
Definition piece_ok (p : Piece) : Prop :=
  0 <= orientation p < orientations (shape p).

(** The template of the piece has a box at column [tx] and row [ty]. *)
Definition occupiedb (p : Piece) (tx ty : Z) : bool :=
  match needs_colour p tx ty with Ok nc => nc | _ => false end.

Definition occupied (p : Piece) (tx ty : Z) : Prop :=
  0 <= tx < TEMPLATE_WIDTH /\ 0 <= ty < TEMPLATE_HEIGHT /\ occupiedb p tx ty = true.

(** What [is_valid_position] asks of the template cell [(tx, ty)]. *)
Definition cell_okb (p : Piece) (b : GameBoard) (dx dy tx ty : Z) : bool :=
  (ty + y p + dy <? 0)
  || negb (occupiedb p tx ty)
  || (is_on_board b (tx + x p + dx) (ty + y p + dy)
      && blank_at b (tx + x p + dx) (ty + y p + dy)).

Definition all_cells_ok (p : Piece) (b : GameBoard) (dx dy : Z) : bool :=
  forallb (fun tx => forallb (cell_okb p b dx dy tx) (Py.xrange TEMPLATE_HEIGHT))
          (Py.xrange TEMPLATE_WIDTH).

(** The position the subscript [i] denotes in a sequence of [n] items,
    when [-n <= i < n]. *)
Definition wrap (n i : Z) : Z := if i <? 0 then n + i else i.

(** [b'] is [b] with some more cells of colour [c]. *)
Definition more_coloured (c : Z) (b b' : GameBoard) : Prop :=
  wf_board b' /\ columns b' = columns b /\ rows b' = rows b /\
  forall cx cy, cell_at b cx cy = Some (Colour c) ->
                cell_at b' cx cy = Some (Colour c).

(** The rows of a state, read across its columns. *)
Definition coloured_in (r : nat) (col : list cell) : bool :=
  match col !! r with Some c => negb (is_blank c) | None => false end.

Definition complete_row (s : list (list cell)) (r : nat) : bool :=
  forallb (coloured_in r) s.

(** The number of complete rows among the first [n] rows. *)
Fixpoint complete_rows (s : list (list cell)) (n : nat) : nat :=
  match n with
  | O => 0
  | S k => (if complete_row s k then 1 else 0) + complete_rows s k
  end.

(** The number of coloured cells of a column and of a state. *)
Definition coloured_count (col : list cell) : nat :=
  length (List.filter (fun c => negb (is_blank c)) col).

Definition coloured_cells (b : GameBoard) : nat :=
  list_sum (map coloured_count (state b)).

(** A column once the row [r] is removed: the cells above it one row
    lower, a blank cell on top. *)
Definition shift_column (r : nat) (col : list cell) : list cell :=
  Blank :: take r col ++ drop (S r) col.

(** A column while the rows are pulled down: the rows [n], ..., 1 hold
    what was one row above them. *)
Definition pulled_column (n : nat) (col : list cell) : list cell :=
  take 1 col ++ take n col ++ drop (S n) col.

(** A column after [state[x][n+1] = state[x][n]]. *)
Definition copy_down (n : nat) (col : list cell) : list cell :=
  match col !! n with Some v => <[S n := v]> col | None => col end.

(** [state[x]] replaced by what [f] makes of it. *)
Definition column_update (f : list cell -> result (list cell)) (cx : Z)
    (b : GameBoard) : result GameBoard :=
  let* col := Py.getitem (state b) cx in
  let* col' := f col in
  let* s' := Py.setitem (state b) cx col' in
  Ok (set_state b s').

(** The order the boards of [add_to_board] go up in, and what the loop has
    done once it is past the template cell [(tx, ty)]. *)
Definition colours_kept (c : Z) (s s' : GameBoard) : Prop :=
  wf_board s -> more_coloured c s s'.

Definition cell_written (p : Piece) (b : GameBoard) (tx ty : Z) (s : GameBoard)
  : Prop :=
  wf_board s /\
  (occupiedb p tx ty = true ->
   cell_at s (wrap (columns b) (tx + x p)) (wrap (rows b) (ty + y p))
   = Some (Colour (colour p))).

(** ** Sample boards and pieces *)

(** The board of a session with the default arguments. *)
Definition default_board : GameBoard := GameBoard_init 0 0 1 10 20.

(** The default board with the cell at column [cx], row [cy] coloured. *)
Definition board_with (cx cy : nat) : GameBoard :=
  set_state default_board
    (alter (fun col => <[cy := Colour 1]> col) cx (state default_board)).

(** The default board with its bottom row full and nine boxes in the row
    above. *)
Definition board_with_full_row : GameBoard :=
  set_state default_board
    (map (fun cx => replicate 18 Blank
                    ++ [if cx <? 9 then Colour (cx mod 4) else Blank;
                        Colour (cx mod 4)])
         (Py.xrange 10)).

(** A J piece standing upright, as spawned and after four moves right. *)
Definition upright_J : Piece := Piece_init default_board J_ 1 2.
Definition upright_J_at_right_wall : Piece := set_x upright_J 7.

(** ** Vocabulary of the session properties *)

(** The session with [k] more lines on its counter, and a result of the
    loop with [k] more lines on its counter. *)
Definition bump (k : Z) (st : Session) : Session := set_lines st (lines st + k).

Definition bumped (k : Z) (r : result (Session * World))
  : result (Session * World) :=
  match r with
  | Ok (st, w) => Ok (bump k st, w)
  | Raise e => Raise e
  | OutOfFuel => OutOfFuel
  end.

(** The world after one more reading of the clock. *)
Definition tick (w : World) : World :=
  mkWorld (clock w) (S (clock_reads w)) (random w) (random_draws w)
          (events w) (event_polls w).

(** A piece as [Piece(b)] makes it. *)
Definition fresh_piece (b : GameBoard) (p : Piece) : Prop :=
  x p = columns b / 2 - TEMPLATE_WIDTH / 2 /\
  y p = NEW_PIECES_START_Y /\
  piece_ok p /\
  0 <= colour p < COLOURS_len.

(** What the loop body does after the spawn of a piece. *)
Definition after_spawn (fuel : nat) (cfg : Config) (st : Session) : M Session :=
  do* evs := event_get in
  do* st := handle_events cfg evs st in
  do* st := repeat_sideways st in
  do* st := repeat_down st in
  gravity fuel cfg st.

(** ** A sample session *)

(** The default arguments of [distractor], for a session of one minute. *)
Definition default_config : Config :=
  mkConfig 60 10 20 (25 # 1000) (25 # 1000) (25 # 1000) (25 # 1000)
           (3 # 10) 30 [K_ESCAPE] 0 0 1.

(** A world whose clock shows [t] at every reading, with no key pressed. *)
Definition still_world (t : Q) : World :=
  mkWorld (fun _ => t) 0 (fun _ => 0) 0 (fun _ => []) 0.

(** A world whose clock advances by a second at every reading. *)
Definition ticking_world : World :=
  mkWorld (fun n => inject_Z (Z.of_nat n)) 0 (fun _ => 0) 0 (fun _ => []) 0.

(** A session with an upright J falling since time 0, no line cleared. *)
Definition falling_J_session : Session :=
  mkSession default_board (Some upright_J) upright_J false false false
            0 0 0 0 0.

(** A session about to promote an upright J onto a board with a box where
    the piece enters. *)
Definition blocked_session : Session :=
  mkSession (board_with 5 0) None upright_J true true false 0 0 0 7 2.

(** ** Vocabulary of the further properties *)

(** The template cells of the piece that hold a box, column by column. *)
Definition boxes (p : Piece) : list (Z * Z) :=
  flat_map (fun tx =>
    flat_map (fun ty => if occupiedb p tx ty then [(tx, ty)] else [])
             (Py.xrange TEMPLATE_HEIGHT))
    (Py.xrange TEMPLATE_WIDTH).

(** The cells of the state [add_to_board] writes to for the piece. *)
Definition footprint (p : Piece) (b : GameBoard) (cx cy : Z) : Prop :=
  exists tx ty, occupied p tx ty /\
    cx = wrap (columns b) (tx + x p) /\ cy = wrap (rows b) (ty + y p).

(** The order the boards of [add_to_board] go up in when only the cells
    of the piece matter. *)
Definition same_outside (p : Piece) (b s s' : GameBoard) : Prop :=
  wf_board s ->
  wf_board s' /\ columns s' = columns s /\ rows s' = rows s /\
  forall cx cy, ~ footprint p b cx cy -> cell_at s' cx cy = cell_at s cx cy.

(** The piece moved by [dx] columns and [dy] rows. *)
Definition moved (p : Piece) (dx dy : Z) : Piece :=
  mkPiece (shape p) (x p + dx) (y p + dy) (orientation p) (colour p).

(** ** The layout helpers of the module *)

(** What a helper that can raise gives: a value, [ValueError],
    [ZeroDivisionError], or nothing yet when the fuel of its loop ran out. *)
Inductive outcome (A : Type) : Type :=
| Returns (a : A)
| ValueError
| ZeroDivisionError
| NoFuel.
Arguments Returns {A} a.
Arguments ValueError {A}.
Arguments ZeroDivisionError {A}.
Arguments NoFuel {A}.

(** [midpoint] *)
Definition midpoint (p1 p2 : Z) (round : string) : outcome Z :=
  let smaller := if p1 <=? p2 then p1 else p2 in
  let larger := if p1 <=? p2 then p2 else p1 in
  let difference := larger - smaller in
  if difference mod 2 =? 0 then Returns (smaller + difference / 2)
  else if String.eqb round "down" then Returns (smaller + difference / 2)
  else if String.eqb round "up" then Returns (smaller + 1 + difference / 2)
  else ValueError.

(** [get_board_boundaries], for a screen of the given size. *)
Definition get_board_boundaries (screen_width screen_height : Z)
    (cell_size pixels_at_bottom columns rows : Z) : Z * Z :=
  ((screen_width - columns * cell_size) / 2,
   screen_height - rows * cell_size - pixels_at_bottom).

(** The [while cell_size >= min_cell_size: ... else: raise ValueError] loops
    of [fit_board_to_screen], by fuel; [fits] is the test that breaks the
    loop. *)
Fixpoint shrink_cell (fuel : nat) (fits : Z -> bool) (min_cell_size cell_size : Z)
  : outcome Z :=
  match fuel with
  | O => NoFuel
  | S fuel' =>
      if min_cell_size <=? cell_size then
        if fits cell_size then Returns cell_size
        else shrink_cell fuel' fits min_cell_size (cell_size - 1)
      else ValueError
  end.

(** [a // b] *)
Definition floordiv (a b : Z) : outcome Z :=
  if b =? 0 then ZeroDivisionError else Returns (a / b).

(** The search of [fit_board_to_screen] for the cell size, from the point
    where [max_width] and [max_height] are known. *)
Definition fit_cell_size (fuel : nat) (max_width max_height : Z)
    (min_cell_size columns rows : Z) : outcome Z :=
  if max_height <=? max_width then
    (* The screen is either square or landscape. *)
    match floordiv max_width columns with
    | Returns cell_size =>
        shrink_cell fuel (fun cell_size => (2 + rows) * cell_size <=? max_height)
                    min_cell_size cell_size
    | ValueError => ValueError
    | ZeroDivisionError => ZeroDivisionError
    | NoFuel => NoFuel
    end
  else
    (* The screen is portrait style. *)
    match floordiv max_height (rows + 2) with
    | Returns cell_size =>
        shrink_cell fuel (fun cell_size => columns * cell_size <=? max_width)
                    min_cell_size cell_size
    | ValueError => ValueError
    | ZeroDivisionError => ZeroDivisionError
    | NoFuel => NoFuel
    end.

(** A board of cells of [cell_size] pixels fits the room there is. *)
Definition board_fits (max_width max_height columns rows cell_size : Z) : Prop :=
  columns * cell_size <= max_width /\ (rows + 2) * cell_size <= max_height.

(** ** What a step guarantees *)

(** [Q] holds of the value a computation returns and [E] of the exception
    it raises. *)
Definition rsat {A} (Q : A -> Prop) (E : exn -> Prop) (r : result A) : Prop :=
  match r with
  | Ok a => Q a
  | Raise e => E e
  | OutOfFuel => True
  end.

(** The same of a step of the session, in every world. *)
Definition sat {A} (Q : A -> Prop) (E : exn -> Prop) (m : M A) : Prop :=
  forall w, rsat (fun r => Q (fst r)) E (m w).

Definition anything {A} (a : A) : Prop := True.

Definition index_error (e : exn) : Prop := e = IndexError.

(** The exceptions of a subscript out of range and of a request to quit. *)
Definition index_error_or_exit (e : exn) : Prop :=
  e = IndexError \/ e = SystemExit.

(** The session has a falling piece. *)
Definition falling (st : Session) : Prop := falling_piece st <> None.

(** The counters of [st'] are those of [st] or more, with at most one more
    loss. *)
Definition counters_grow (st st' : Session) : Prop :=
  lines st <= lines st' /\ losses st <= losses st' <= losses st + 1.

(** The piece is in order and in a valid position of the board. *)
Definition placed (b : GameBoard) (p : Piece) : Prop :=
  piece_ok p /\ is_valid_position p b 0 0 = Ok true.

(** [b'] is a board of the dimensions of [b]. *)
Definition same_shape (b b' : GameBoard) : Prop :=
  wf_board b' /\ columns b' = columns b /\ rows b' = rows b.

(** What the loop keeps true of the session: the board is a board of more
    than 4 columns and rows, and the pieces are in order, the falling one
    in a valid position. *)
Definition session_ok (st : Session) : Prop :=
  wf_board (game_board st) /\
  4 < columns (game_board st) /\ 4 < rows (game_board st) /\
  piece_ok (next_piece st) /\
  match falling_piece st with
  | Some p => placed (game_board st) p
  | None => True
  end.

(** The counters of [st'] are those of [st]. *)
Definition same_counters (st st' : Session) : Prop :=
  lines st' = lines st /\ losses st' = losses st.

(** The four [assert]s at the top of [distractor]. *)
Definition asserts_pass (cfg : Config) : bool :=
  ((4 <? arg_columns cfg) && (4 <? arg_rows cfg))
  && (0 <? fps cfg)
  && (Qle_bool 0 (top_exclude cfg + bottom_exclude cfg)
      && Qltb (top_exclude cfg + bottom_exclude cfg) 1)
  && (Qle_bool 0 (left_exclude cfg + right_exclude cfg)
      && Qltb (left_exclude cfg + right_exclude cfg) 1).


(** The default arguments with a session of three seconds. *)
Definition short_config : Config :=
  mkConfig 3 10 20 (25 # 1000) (25 # 1000) (25 # 1000) (25 # 1000)
           (3 # 10) 30 [K_ESCAPE] 0 0 1.



(** * Properties *)

(** ** Python subscripts *)

Lemma norm_nonneg (n : nat) (i : Z) :
  0 <= i < Z.of_nat n -> Py.norm n i = Some (Z.to_nat i).
Proof.
  intros H. unfold Py.norm.
  destruct (Z.leb_spec 0 i); try lia.
  destruct (Z.ltb_spec i (Z.of_nat n)); try lia. reflexivity.
Qed.

Lemma norm_negative (n : nat) (i : Z) :
  - Z.of_nat n <= i < 0 -> Py.norm n i = Some (Z.to_nat (Z.of_nat n + i)).
Proof.
  intros H. unfold Py.norm.
  destruct (Z.leb_spec 0 i); try lia. simpl.
  destruct (Z.leb_spec (- Z.of_nat n) i); try lia.
  destruct (Z.ltb_spec i 0); try lia. reflexivity.
Qed.

Lemma norm_lt (n : nat) (i : Z) (k : nat) :
  Py.norm n i = Some k -> (k < n)%nat.
Proof.
  unfold Py.norm.
  destruct (Z.leb_spec 0 i); destruct (Z.ltb_spec i (Z.of_nat n)); simpl;
    try (intros [= <-]; lia);
    destruct (Z.leb_spec (- Z.of_nat n) i); destruct (Z.ltb_spec i 0); simpl;
    try discriminate; intros [= <-]; lia.
Qed.

Lemma getitem_nonneg {A} (l : list A) (i : Z) (a : A) :
  0 <= i -> l !! Z.to_nat i = Some a -> Py.getitem l i = Ok a.
Proof.
  intros Hi Hl. unfold Py.getitem.
  rewrite norm_nonneg, Hl; [reflexivity|].
  apply lookup_lt_Some in Hl. lia.
Qed.

Lemma getitem_in_range {A} (l : list A) (i : Z) :
  0 <= i < Z.of_nat (length l) ->
  exists a, Py.getitem l i = Ok a /\ l !! Z.to_nat i = Some a.
Proof.
  intros Hi.
  assert (is_Some (l !! Z.to_nat i)) as [a Ha]
    by (apply lookup_lt_is_Some_2; lia).
  exists a. split; [|exact Ha]. apply getitem_nonneg; [lia|]. exact Ha.
Qed.

Lemma getitem_Ok_norm {A} (l : list A) (i : Z) (a : A) :
  Py.getitem l i = Ok a ->
  exists k, Py.norm (length l) i = Some k /\ l !! k = Some a.
Proof.
  unfold Py.getitem. destruct (Py.norm (length l) i) as [k|]; [|discriminate].
  destruct (l !! k) as [a'|] eqn:E; [|discriminate].
  intros [= <-]. eauto.
Qed.

Lemma setitem_nonneg {A} (l : list A) (i : Z) (v : A) :
  0 <= i < Z.of_nat (length l) ->
  Py.setitem l i v = Ok (<[Z.to_nat i := v]> l).
Proof. intros Hi. unfold Py.setitem. now rewrite norm_nonneg. Qed.

Lemma xrange_S (n : nat) :
  Py.xrange (Z.of_nat (S n)) = Py.xrange (Z.of_nat n) ++ [Z.of_nat n].
Proof.
  unfold Py.xrange. rewrite !Nat2Z.id, seq_S, map_app. reflexivity.
Qed.

Lemma xrange_nonpos (n : Z) : n <= 0 -> Py.xrange n = [].
Proof.
  intros H. unfold Py.xrange.
  replace (Z.to_nat n) with 0%nat by lia. reflexivity.
Qed.

Lemma in_xrange (n i : Z) : In i (Py.xrange n) <-> 0 <= i < n.
Proof.
  unfold Py.xrange. rewrite in_map_iff. split.
  - intros (k & <- & Hk). apply in_seq in Hk. lia.
  - intros H. exists (Z.to_nat i). split; [lia|]. apply in_seq. lia.
Qed.

Lemma length_xrange (n : Z) : length (Py.xrange n) = Z.to_nat n.
Proof. unfold Py.xrange. now rewrite length_map, length_seq. Qed.

Lemma xrange_down_S (n : nat) :
  Py.xrange_down (Z.of_nat (S n)) 0 = Z.of_nat (S n) :: Py.xrange_down (Z.of_nat n) 0.
Proof.
  unfold Py.xrange_down, Py.xrange.
  rewrite !Z.sub_0_r, !Nat2Z.id. simpl seq. rewrite <- seq_shift.
  simpl map. rewrite !map_map. f_equal.
  apply map_ext. intros k. lia.
Qed.

(** ** Loops *)

Lemma for_each_app {A S} (xs ys : list A) (body : A -> S -> result S) (s : S) :
  for_each (xs ++ ys) body s = let* s' := for_each xs body s in for_each ys body s'.
Proof.
  revert s. induction xs as [|x xs IH]; intros s; simpl; [reflexivity|].
  destruct (body x s); simpl; auto.
Qed.

Lemma for_each_ext_in {A S} (xs : list A) (f g : A -> S -> result S) (s : S) :
  (forall x s, In x xs -> f x s = g x s) ->
  for_each xs f s = for_each xs g s.
Proof.
  revert s. induction xs as [|x xs IH]; intros s H; simpl; [reflexivity|].
  rewrite H by (now left). destruct (g x s); simpl; auto.
  apply IH. intros; apply H; now right.
Qed.

(** A loop over booleans that only ever clears its flag. *)
Lemma for_each_all {A} (xs : list A) (body : A -> bool -> result bool)
    (ok : A -> bool) (v : bool) :
  (forall x v, In x xs -> body x v = Ok (v && ok x)) ->
  for_each xs body v = Ok (v && forallb ok xs).
Proof.
  revert v. induction xs as [|x xs IH]; intros v H; simpl.
  - now rewrite andb_true_r.
  - rewrite H by (now left). simpl. rewrite IH by (intros; apply H; now right).
    now rewrite andb_assoc.
Qed.

(** ** Boards *)

Lemma wf_column (b : GameBoard) (k : nat) (col : list cell) :
  wf_board b -> state b !! k = Some col -> Z.of_nat (length col) = rows b.
Proof.
  intros [_ Hcols] Hk. rewrite Forall_lookup in Hcols. exact (Hcols k col Hk).
Qed.

Lemma state_get_on_board (b : GameBoard) (cx cy : Z) :
  wf_board b -> is_on_board b cx cy = true ->
  exists c, state_get b cx cy = Ok c /\ cell_at b cx cy = Some c.
Proof.
  intros Hwf Hon. unfold is_on_board in Hon.
  apply andb_prop in Hon as [Hon Hy2]. apply andb_prop in Hon as [Hon Hy1].
  apply andb_prop in Hon as [Hx1 Hx2].
  apply Z.leb_le in Hx1, Hy1. apply Z.ltb_lt in Hx2, Hy2.
  destruct (getitem_in_range (state b) cx) as (col & Hg & Hl).
  { destruct Hwf as [Hc _]. lia. }
  pose proof (wf_column b _ col Hwf Hl) as Hlen.
  destruct (getitem_in_range col cy) as (c & Hg' & Hl'); [lia|].
  exists c. unfold state_get, cell_at. rewrite Hg. simpl. rewrite Hg'.
  split; [reflexivity|].
  destruct (Z.leb_spec 0 cx); try lia. destruct (Z.leb_spec 0 cy); try lia.
  simpl. now rewrite Hl.
Qed.

(** ** Templates *)

Lemma needs_colour_total (p : Piece) (tx ty : Z) :
  piece_ok p -> 0 <= tx < TEMPLATE_WIDTH -> 0 <= ty < TEMPLATE_HEIGHT ->
  needs_colour p tx ty = Ok (occupiedb p tx ty).
Proof.
  intros Hp Hx Hy. unfold occupiedb.
  assert (exists nc, needs_colour p tx ty = Ok nc) as [nc ->]; [|reflexivity].
  destruct p as [s px py o c]. unfold piece_ok in Hp. simpl in Hp.
  unfold TEMPLATE_WIDTH in Hx. unfold TEMPLATE_HEIGHT in Hy.
  assert (Hx' : tx = 0 \/ tx = 1 \/ tx = 2 \/ tx = 3 \/ tx = 4) by lia.
  assert (Hy' : ty = 0 \/ ty = 1 \/ ty = 2 \/ ty = 3 \/ ty = 4) by lia.
  destruct s; unfold orientations in Hp; simpl in Hp;
    (assert (Ho : o = 0 \/ o = 1 \/ o = 2 \/ o = 3) by lia);
    repeat (destruct Ho as [-> | Ho]; try lia);
    try subst o; try lia;
    repeat (destruct Hx' as [-> | Hx']); try subst tx;
    repeat (destruct Hy' as [-> | Hy']); try subst ty;
    vm_compute; eauto.
Qed.

(** ** Valid positions *)

Section ValidPosition.
Variables (p : Piece) (b : GameBoard).
Hypothesis Hwf : wf_board b.
Hypothesis Hp : piece_ok p.

Lemma valid_column_spec (dx dy tx : Z) (tys : list Z) (valid : bool) :
  0 <= tx < TEMPLATE_WIDTH ->
  (forall ty, In ty tys -> 0 <= ty < TEMPLATE_HEIGHT) ->
  valid_column p b dx dy tx tys valid
  = Ok (valid && forallb (cell_okb p b dx dy tx) tys).
Proof.
  intros Hx. induction tys as [|ty tys IH]; intros Hys; simpl.
  - now rewrite andb_true_r.
  - assert (Hy : 0 <= ty < TEMPLATE_HEIGHT) by (apply Hys; now left).
    assert (IH' := IH (fun t Ht => Hys t (or_intror Ht))). clear IH.
    unfold cell_okb at 1.
    destruct (ty + y p + dy <? 0) eqn:Habove; simpl.
    + exact IH'.
    + rewrite (needs_colour_total p tx ty Hp Hx Hy). simpl.
      destruct (occupiedb p tx ty); simpl; [|exact IH'].
      destruct (is_on_board b (tx + x p + dx) (ty + y p + dy)) eqn:Hon; simpl.
      * destruct (state_get_on_board _ _ _ Hwf Hon) as (c & Hg & Hc).
        rewrite Hg. simpl. unfold blank_at. rewrite Hc.
        destruct (is_blank c); simpl; [exact IH'|].
        now rewrite andb_false_r.
      * now rewrite andb_false_r.
Qed.

Lemma is_valid_position_spec (dx dy : Z) :
  is_valid_position p b dx dy = Ok (all_cells_ok p b dx dy).
Proof.
  unfold is_valid_position, all_cells_ok.
  rewrite (for_each_all _ _
    (fun tx => forallb (cell_okb p b dx dy tx) (Py.xrange TEMPLATE_HEIGHT))).
  - reflexivity.
  - intros tx v Hin. apply valid_column_spec.
    + now apply in_xrange.
    + intros ty. apply in_xrange.
Qed.

Lemma all_cells_ok_true (dx dy : Z) :
  all_cells_ok p b dx dy = true <->
  (forall tx ty, 0 <= tx < TEMPLATE_WIDTH -> 0 <= ty < TEMPLATE_HEIGHT ->
                 cell_okb p b dx dy tx ty = true).
Proof.
  unfold all_cells_ok. rewrite forallb_forall. split.
  - intros H tx ty Hx Hy.
    specialize (H tx (proj2 (in_xrange _ _) Hx)).
    rewrite forallb_forall in H. apply H. now apply in_xrange.
  - intros H tx Hx. apply forallb_forall. intros ty Hy.
    apply H; now apply in_xrange.
Qed.

End ValidPosition.

Ltac template_cases tx ty :=
  unfold TEMPLATE_WIDTH, TEMPLATE_HEIGHT in *;
  let Hx := fresh "Hx" in
  let Hy := fresh "Hy" in
  assert (Hx : tx = 0 \/ tx = 1 \/ tx = 2 \/ tx = 3 \/ tx = 4) by lia;
  assert (Hy : ty = 0 \/ ty = 1 \/ ty = 2 \/ ty = 3 \/ ty = 4) by lia;
  repeat (destruct Hx as [-> | Hx]); try subst tx;
  repeat (destruct Hy as [-> | Hy]); try subst ty.

Lemma default_board_wf : wf_board default_board.
Proof. split; [reflexivity | repeat constructor]. Qed.

Lemma board_with_wf (cx cy : nat) : wf_board (board_with cx cy).
Proof.
  pose proof default_board_wf as [Hc Hr]. split.
  - unfold board_with. simpl state. now rewrite length_alter.
  - unfold board_with. simpl state. apply Forall_alter; [exact Hr|].
    intros col _ Hlen. now rewrite length_insert.
Qed.

Lemma collision_invalid (b : GameBoard) (p : Piece) (dx dy tx ty : Z) :
  wf_board b -> piece_ok p ->
  occupied p tx ty ->
  (exists k, cell_at b (tx + x p + dx) (ty + y p + dy) = Some (Colour k))
  \/ (0 <= ty + y p + dy /\ is_on_board b (tx + x p + dx) (ty + y p + dy) = false) ->
  is_valid_position p b dx dy = Ok false.
Proof.
  intros Hwf Hp (Hx & Hy & Hocc) Hbad.
  rewrite is_valid_position_spec by assumption. f_equal.
  destruct (all_cells_ok p b dx dy) eqn:Hall; [exfalso|reflexivity].
  rewrite all_cells_ok_true in Hall. specialize (Hall tx ty Hx Hy).
  unfold cell_okb, blank_at in Hall. rewrite Hocc in Hall.
  simpl in Hall. rewrite orb_false_r in Hall.
  destruct Hbad as [[k Hk] | [Hrow Hoff]].
  - rewrite Hk in Hall. simpl in Hall. rewrite andb_false_r, orb_false_r in Hall.
    apply Z.ltb_lt in Hall. unfold cell_at in Hk.
    destruct (Z.leb_spec 0 (ty + y p + dy)); [lia|].
    rewrite andb_false_r in Hk. discriminate.
  - rewrite Hoff in Hall. simpl in Hall. rewrite orb_false_r in Hall.
    apply Z.ltb_lt in Hall. lia.
Qed.

(** C3. On a board and for a piece, [is_valid_position(B, 0, 0)] returns
    false whenever an occupied cell of the piece's orientation grid, placed
    at the piece's position, overlaps a coloured cell of the board or lies
    at a non-negative row outside [0, columns) x [0, rows). *)
Theorem is_valid_position_false_on_collision
    (b : GameBoard) (p : Piece) (tx ty : Z) :
  wf_board b -> piece_ok p ->
  occupied p tx ty ->
  (exists k, cell_at b (tx + x p) (ty + y p) = Some (Colour k))
  \/ (0 <= ty + y p /\ is_on_board b (tx + x p) (ty + y p) = false) ->
  is_valid_position p b 0 0 = Ok false.
Proof.
  intros Hwf Hp Hocc Hbad.
  apply (collision_invalid b p 0 0 tx ty Hwf Hp Hocc).
  now rewrite !Z.add_0_r.
Qed.

Lemma is_valid_position_false_on_collision_witness :
  wf_board (board_with 5 0) /\ piece_ok upright_J /\ occupied upright_J 2 2 /\
  cell_at (board_with 5 0) (2 + x upright_J) (2 + y upright_J) = Some (Colour 1) /\
  is_valid_position upright_J (board_with 5 0) 0 0 = Ok false.
Proof.
  assert (Hwf : wf_board (board_with 5 0)) by apply board_with_wf.
  assert (Hp : piece_ok upright_J) by (vm_compute; split; congruence).
  assert (Hocc : occupied upright_J 2 2)
    by (vm_compute; repeat split; congruence).
  assert (Hc : cell_at (board_with 5 0) (2 + x upright_J) (2 + y upright_J)
               = Some (Colour 1)) by reflexivity.
  split; [exact Hwf|]. split; [exact Hp|]. split; [exact Hocc|].
  split; [exact Hc|].
  apply (is_valid_position_false_on_collision _ _ 2 2 Hwf Hp Hocc).
  left. exists 1. exact Hc.
Defined.

Lemma valid_column_all_pass (p : Piece) (b : GameBoard) (dx dy tx : Z)
    (tys : list Z) (valid : bool) :
  piece_ok p -> 0 <= tx < TEMPLATE_WIDTH ->
  (forall ty, In ty tys -> 0 <= ty < TEMPLATE_HEIGHT) ->
  (forall ty, In ty tys -> occupiedb p tx ty = true -> 0 <= ty + y p + dy ->
     is_on_board b (tx + x p + dx) (ty + y p + dy) = true /\
     state_get b (tx + x p + dx) (ty + y p + dy) = Ok Blank) ->
  valid_column p b dx dy tx tys valid = Ok valid.
Proof.
  intros Hp Hx. induction tys as [|ty tys IH]; intros Hys Hpass; simpl.
  - reflexivity.
  - assert (Hy : 0 <= ty < TEMPLATE_HEIGHT) by (apply Hys; now left).
    assert (IH' := IH (fun t Ht => Hys t (or_intror Ht))
                      (fun t Ht => Hpass t (or_intror Ht))). clear IH.
    destruct (Z.ltb_spec (ty + y p + dy) 0) as [Habove|Hrow]; simpl.
    + exact IH'.
    + rewrite (needs_colour_total p tx ty Hp Hx Hy). simpl.
      destruct (occupiedb p tx ty) eqn:Hocc; simpl; [|exact IH'].
      destruct (Hpass ty (or_introl eq_refl) Hocc Hrow) as [Hon Hg].
      rewrite Hon, Hg. simpl. exact IH'.
Qed.

(** C9. [is_valid_position] leaves out the occupied cells whose row with
    the offset is negative, their column included: a piece is reported as
    being in a valid position as soon as its occupied cells at non-negative
    rows are on the board and on blank cells, wherever the columns of its
    cells at negative rows are. *)
Theorem is_valid_position_ignores_cells_above
    (b : GameBoard) (p : Piece) (dx dy : Z) :
  piece_ok p ->
  (forall tx ty, occupied p tx ty -> 0 <= ty + y p + dy ->
     is_on_board b (tx + x p + dx) (ty + y p + dy) = true /\
     state_get b (tx + x p + dx) (ty + y p + dy) = Ok Blank) ->
  is_valid_position p b dx dy = Ok true.
Proof.
  intros Hp Hpass. unfold is_valid_position.
  assert (Hgen : forall txs valid,
             (forall tx, In tx txs -> 0 <= tx < TEMPLATE_WIDTH) ->
             for_each txs (fun tx valid =>
               valid_column p b dx dy tx (Py.xrange TEMPLATE_HEIGHT) valid) valid
             = Ok valid).
  { induction txs as [|tx txs IH]; intros valid Hxs; cbn [for_each];
      [reflexivity|].
    assert (Hx : 0 <= tx < TEMPLATE_WIDTH) by (apply Hxs; now left).
    rewrite valid_column_all_pass; try assumption.
    - cbn [rbind]. apply IH. intros; apply Hxs; now right.
    - intros ty. apply in_xrange.
    - intros ty Hin Hocc Hrow. apply in_xrange in Hin.
      apply Hpass; [repeat split; lia || assumption | assumption]. }
  apply Hgen. intros tx. apply in_xrange.
Qed.

Lemma is_valid_position_ignores_cells_above_witness :
  (occupied upright_J_at_right_wall 3 1 /\
   1 + y upright_J_at_right_wall + 0 < 0 /\
   is_on_board default_board (3 + x upright_J_at_right_wall + 0) 0 = false) /\
  is_valid_position upright_J_at_right_wall default_board 0 0 = Ok true.
Proof.
  split.
  - vm_compute. repeat split; congruence.
  - apply is_valid_position_ignores_cells_above.
    + vm_compute; split; congruence.
    + intros tx ty (Hx & Hy & Hocc) Hrow.
      template_cases tx ty; vm_compute in Hocc; try discriminate;
        vm_compute in Hrow; try (exfalso; apply Hrow; reflexivity);
        split; reflexivity.
Defined.

(** ** Dropping a piece *)

Lemma occupiedb_set_y (p : Piece) (v tx ty : Z) :
  occupiedb (set_y p v) tx ty = occupiedb p tx ty.
Proof. reflexivity. Qed.

Lemma legal_down_move_down (p : Piece) (b : GameBoard) :
  wf_board b -> piece_ok p ->
  legal_down p b = is_valid_position (set_y p (y p + 1)) b 0 0.
Proof.
  intros Hwf Hp. unfold legal_down.
  rewrite !is_valid_position_spec by assumption. f_equal.
  apply eq_true_iff_eq. rewrite !all_cells_ok_true.
  split; intros H tx ty Hx Hy; specialize (H tx ty Hx Hy);
    unfold cell_okb in *; rewrite ?occupiedb_set_y in *; simpl in *;
    rewrite ?Z.add_0_r in *;
    replace (ty + (y p + 1)) with (ty + y p + 1) in * by lia; exact H.
Qed.

(** Every template has a box in its third or fourth row. *)
Lemma low_cell (p : Piece) :
  piece_ok p -> exists tx ty, occupied p tx ty /\ 2 <= ty.
Proof.
  intros Hp. destruct p as [s px py o c]. unfold piece_ok in Hp. simpl in Hp.
  destruct s; unfold orientations in Hp; simpl in Hp;
    (assert (Ho : o = 0 \/ o = 1 \/ o = 2 \/ o = 3) by lia);
    repeat (destruct Ho as [-> | Ho]; try lia); try subst o; try lia;
    first [ exists 0, 2; vm_compute; repeat split; congruence
          | exists 1, 2; vm_compute; repeat split; congruence
          | exists 2, 2; vm_compute; repeat split; congruence
          | exists 2, 3; vm_compute; repeat split; congruence ].
Qed.

Lemma set_y_same (p : Piece) : set_y p (y p + 0) = p.
Proof. destruct p. unfold set_y. simpl. now rewrite Z.add_0_r. Qed.

Lemma drop_loop_spec (b : GameBoard) (iters : list Z) :
  wf_board b ->
  forall p, piece_ok p ->
  exists k, 0 <= k <= Z.of_nat (length iters) /\
    drop_loop p b iters = Ok (set_y p (y p + k)) /\
    (legal_down (set_y p (y p + k)) b = Ok false \/ k = Z.of_nat (length iters)) /\
    (is_valid_position p b 0 0 = Ok true ->
     is_valid_position (set_y p (y p + k)) b 0 0 = Ok true).
Proof.
  intros Hwf. induction iters as [|i iters IH]; intros p Hp.
  - exists 0. rewrite set_y_same. simpl. repeat split; auto; lia.
  - cbn [drop_loop].
    pose proof (legal_down_move_down p b Hwf Hp) as Hmove.
    destruct (legal_down p b) as [[|]| |] eqn:Hlegal;
      try (unfold legal_down in Hlegal;
           rewrite is_valid_position_spec in Hlegal by assumption; discriminate).
    + cbn [rbind negb].
      destruct (IH (set_y p (y p + 1)) Hp) as (k & Hk & Hrun & Hend & Hval).
      exists (k + 1). cbn [length]. simpl in Hrun, Hend, Hval.
      replace (set_y p (y p + (k + 1)))
        with (set_y (set_y p (y p + 1)) (y p + 1 + k))
        by (unfold set_y; simpl; f_equal; lia).
      split; [lia|]. split; [exact Hrun|]. split.
      * destruct Hend as [Hend | ->]; [now left | right; lia].
      * intros _. apply Hval. now rewrite <- Hmove.
    + exists 0. rewrite set_y_same. simpl. repeat split; auto; lia.
Qed.

(** The rows of a piece created by [Piece_init] and moved by the methods
    of the class never go above the row pieces start at. *)
Lemma piece_rows_from_start (b : GameBoard) (s : Shape) (o c : Z) :
  y (Piece_init b s o c) = NEW_PIECES_START_Y.
Proof. reflexivity. Qed.

Lemma piece_moves_keep_row (p : Piece) :
  y (move_left p) = y p /\ y (move_right p) = y p /\ y (move_down p) = y p + 1.
Proof. now destruct p. Qed.

(** C6. For a board and a piece in a valid position on it, [move_to_bottom]
    leaves the piece at the lowest legal row: the position is still valid
    and [legal_down] is false there. *)
Theorem move_to_bottom_lands (b : GameBoard) (p : Piece) :
  wf_board b -> piece_ok p -> NEW_PIECES_START_Y <= y p ->
  is_valid_position p b 0 0 = Ok true ->
  exists p',
    move_to_bottom p b = Ok p' /\
    legal_down p' b = Ok false /\
    is_valid_position p' b 0 0 = Ok true /\
    y p <= y p' /\
    shape p' = shape p /\ x p' = x p /\ orientation p' = orientation p /\
    colour p' = colour p.
Proof.
  intros Hwf Hp Hy Hvalid. unfold move_to_bottom.
  destruct (drop_loop_spec b (Py.xrange2 1 (rows b)) Hwf p Hp)
    as (k & Hk & Hrun & Hend & Hval).
  exists (set_y p (y p + k)). split; [exact Hrun|].
  split; [|split; [now apply Hval | simpl; repeat split; lia]].
  destruct Hend as [Hend | Hlen]; [exact Hend|].
  unfold Py.xrange2 in Hlen. rewrite length_map, length_xrange in Hlen.
  destruct (low_cell p Hp) as (tx & ty & Hocc & Hlow).
  apply (collision_invalid b (set_y p (y p + k)) 0 1 tx ty); try assumption.
  right. unfold NEW_PIECES_START_Y in Hy. simpl. split; [lia|].
  unfold is_on_board.
  destruct (Z.ltb_spec (ty + (y p + k) + 1) (rows b)); [lia|].
  now rewrite andb_false_r.
Qed.

Lemma move_to_bottom_lands_witness :
  (wf_board default_board /\ piece_ok upright_J /\
   NEW_PIECES_START_Y <= y upright_J /\
   is_valid_position upright_J default_board 0 0 = Ok true) /\
  exists p',
    move_to_bottom upright_J default_board = Ok p' /\
    legal_down p' default_board = Ok false /\
    is_valid_position p' default_board 0 0 = Ok true /\
    y upright_J <= y p' /\
    shape p' = shape upright_J /\ x p' = x upright_J /\
    orientation p' = orientation upright_J /\ colour p' = colour upright_J.
Proof.
  assert (Hwf : wf_board default_board) by apply default_board_wf.
  assert (Hp : piece_ok upright_J) by (vm_compute; split; congruence).
  assert (Hy : NEW_PIECES_START_Y <= y upright_J) by (vm_compute; congruence).
  assert (Hv : is_valid_position upright_J default_board 0 0 = Ok true)
    by reflexivity.
  split; [repeat split; assumption || apply Hwf || apply Hp|].
  exact (move_to_bottom_lands default_board upright_J Hwf Hp Hy Hv).
Defined.

(** ** Rotations *)

Lemma orientation_counts :
  orientations O_ = 1 /\
  orientations I_ = 2 /\ orientations S_ = 2 /\ orientations Z_ = 2 /\
  orientations J_ = 4 /\ orientations L_ = 4 /\ orientations T_ = 4.
Proof. repeat split; reflexivity. Qed.

Lemma orientations_pos (s : Shape) : 0 < orientations s.
Proof. destruct s; reflexivity. Qed.

Lemma set_orientation_twice (p : Piece) (o v : Z) :
  set_orientation (set_orientation p o) v = set_orientation p v.
Proof. reflexivity. Qed.

Lemma rotate_clockwise_times_spec (b : GameBoard) (p : Piece) :
  (forall o, 0 <= o < orientations (shape p) ->
     is_valid_position (set_orientation p o) b 0 0 = Ok true) ->
  forall (k : nat) (o : Z), 0 <= o < orientations (shape p) ->
    rotate_clockwise_times k (set_orientation p o) b
    = Ok (set_orientation p ((o + Z.of_nat k) mod orientations (shape p))).
Proof.
  intros Hvalid. pose proof (orientations_pos (shape p)) as Hn.
  induction k as [|k IH]; intros o Ho.
  - simpl. rewrite Z.add_0_r, Z.mod_small by lia. reflexivity.
  - cbn [rotate_clockwise_times]. unfold rotate_clockwise. cbv zeta.
    rewrite !set_orientation_twice.
    change (shape (set_orientation p o)) with (shape p).
    change (orientation (set_orientation p o)) with o.
    rewrite Hvalid by (apply Z.mod_pos_bound; lia).
    cbn [rbind negb]. rewrite IH by (apply Z.mod_pos_bound; lia).
    f_equal. f_equal. rewrite Zplus_mod_idemp_l. f_equal. lia.
Qed.

Lemma set_orientation_same (p : Piece) : set_orientation p (orientation p) = p.
Proof. now destruct p. Qed.

(** C7. For a piece of a kind with [n] orientations, at a position where
    each orientation is a valid position on the board, [rotate_clockwise]
    applied [n] times gives the piece back, and applied fewer times (but at
    least once) gives another orientation: the rotation is cyclic of order
    the orientation count of the kind. *)
Theorem rotate_clockwise_cycle (b : GameBoard) (p : Piece) :
  piece_ok p ->
  (forall o, 0 <= o < orientations (shape p) ->
     is_valid_position (set_orientation p o) b 0 0 = Ok true) ->
  rotate_clockwise_times (Z.to_nat (orientations (shape p))) p b = Ok p /\
  forall k : nat, (0 < k)%nat -> Z.of_nat k < orientations (shape p) ->
    exists p', rotate_clockwise_times k p b = Ok p' /\
               orientation p' <> orientation p.
Proof.
  intros Hp Hvalid. pose proof (orientations_pos (shape p)) as Hn.
  unfold piece_ok in Hp.
  pose proof (rotate_clockwise_times_spec b p Hvalid) as Hspec.
  split.
  - specialize (Hspec (Z.to_nat (orientations (shape p))) (orientation p) Hp).
    rewrite set_orientation_same in Hspec. rewrite Hspec.
    rewrite Z2Nat.id by lia.
    rewrite <- (Z.mul_1_l (orientations (shape p))) at 1.
    rewrite Z_mod_plus_full, Z.mod_small by lia.
    now rewrite set_orientation_same.
  - intros k Hk Hkn. specialize (Hspec k (orientation p) Hp).
    rewrite set_orientation_same in Hspec. rewrite Hspec.
    eexists. split; [reflexivity|]. simpl.
    destruct (Z_lt_dec (orientation p + Z.of_nat k) (orientations (shape p)))
      as [Hlt|Hge].
    + rewrite Z.mod_small by lia. lia.
    + replace (orientation p + Z.of_nat k)
        with ((orientation p + Z.of_nat k - orientations (shape p))
              + 1 * orientations (shape p)) by lia.
      rewrite Z_mod_plus_full, Z.mod_small by lia. lia.
Qed.

Lemma rotate_clockwise_cycle_witness :
  piece_ok (mkPiece T_ 3 5 0 0) /\
  rotate_clockwise_times 4 (mkPiece T_ 3 5 0 0) default_board
  = Ok (mkPiece T_ 3 5 0 0).
Proof.
  assert (Hp : piece_ok (mkPiece T_ 3 5 0 0)) by (vm_compute; split; congruence).
  split; [exact Hp|].
  refine (proj1 (rotate_clockwise_cycle default_board (mkPiece T_ 3 5 0 0) Hp _)).
  intros o Ho. change (orientations (shape (mkPiece T_ 3 5 0 0))) with 4 in Ho.
  assert (Ho' : o = 0 \/ o = 1 \/ o = 2 \/ o = 3) by lia.
  destruct Ho' as [-> | [-> | [-> | ->]]]; reflexivity.
Defined.

(** ** Writing cells *)

Lemma norm_wrap (n : nat) (i : Z) :
  - Z.of_nat n <= i < Z.of_nat n ->
  Py.norm n i = Some (Z.to_nat (wrap (Z.of_nat n) i)) /\
  0 <= wrap (Z.of_nat n) i < Z.of_nat n.
Proof.
  intros Hi. unfold wrap. destruct (Z.ltb_spec i 0).
  - rewrite norm_negative by lia. split; [reflexivity | lia].
  - rewrite norm_nonneg by lia. split; [reflexivity | lia].
Qed.

Lemma cell_at_nonneg (b : GameBoard) (cx cy : Z) :
  0 <= cx -> 0 <= cy ->
  cell_at b cx cy
  = match state b !! Z.to_nat cx with
    | Some col => col !! Z.to_nat cy
    | None => None
    end.
Proof.
  intros Hx Hy. unfold cell_at.
  destruct (Z.leb_spec 0 cx); [|lia]. destruct (Z.leb_spec 0 cy); [|lia].
  reflexivity.
Qed.

Lemma state_set_spec (b : GameBoard) (cx cy : Z) (v : cell) :
  wf_board b ->
  - columns b <= cx < columns b -> - rows b <= cy < rows b ->
  exists b',
    state_set b cx cy v = Ok b' /\ wf_board b' /\
    columns b' = columns b /\ rows b' = rows b /\
    cell_at b' (wrap (columns b) cx) (wrap (rows b) cy) = Some v /\
    forall cx' cy',
      (cx', cy') <> (wrap (columns b) cx, wrap (rows b) cy) ->
      cell_at b' cx' cy' = cell_at b cx' cy'.
Proof.
  intros Hwf Hx Hy. pose proof Hwf as [Hcols Hrows].
  rewrite <- Hcols in Hx.
  destruct (norm_wrap _ _ Hx) as [Hnx Hwx]. rewrite Hcols in Hnx, Hwx.
  set (i := Z.to_nat (wrap (columns b) cx)) in *.
  assert (is_Some (state b !! i)) as [col Hcol]
    by (apply lookup_lt_is_Some_2; lia).
  pose proof (wf_column b i col Hwf Hcol) as Hlen.
  rewrite <- Hlen in Hy.
  destruct (norm_wrap _ _ Hy) as [Hny Hwy]. rewrite Hlen in Hny, Hwy.
  set (j := Z.to_nat (wrap (rows b) cy)) in *.
  unfold state_set, Py.getitem, Py.setitem. rewrite Hnx, Hcol. cbn [rbind].
  rewrite Hny. cbn [rbind].
  eexists. split; [reflexivity|].
  split; [|split; [reflexivity|split; [reflexivity|split]]].
  - split; simpl.
    + now rewrite length_insert.
    + apply Forall_insert; [exact Hrows|]. now rewrite length_insert.
  - rewrite cell_at_nonneg by lia. simpl. fold i. fold j.
    rewrite list_lookup_insert_eq by lia.
    apply list_lookup_insert_eq. lia.
  - intros cx' cy' Hne. unfold cell_at.
    destruct (Z.leb_spec 0 cx'); simpl; [|reflexivity].
    destruct (Z.leb_spec 0 cy'); simpl; [|reflexivity].
    destruct (Nat.eq_dec (Z.to_nat cx') i) as [Hi|Hi].
    + rewrite Hi, list_lookup_insert_eq, Hcol by lia.
      apply list_lookup_insert_ne. intros Hj.
      apply Hne. f_equal; lia.
    + now rewrite list_lookup_insert_ne by congruence.
Qed.

(** A loop whose steps go up in an order [R], each step establishing a
    fact [Q x] that the later steps keep. *)
Lemma for_each_chain {A S} (R : S -> S -> Prop) (Q : A -> S -> Prop)
    (body : A -> S -> result S) :
  (forall s, R s s) ->
  (forall s1 s2 s3, R s1 s2 -> R s2 s3 -> R s1 s3) ->
  (forall a s s', Q a s -> R s s' -> Q a s') ->
  forall (xs : list A) (s0 : S),
    (forall a s, In a xs -> R s0 s -> exists s', body a s = Ok s' /\ R s s' /\ Q a s') ->
    exists s', for_each xs body s0 = Ok s' /\ R s0 s' /\ forall a, In a xs -> Q a s'.
Proof.
  intros Hrefl Htrans Hmono. induction xs as [|a xs IH]; intros s0 Hstep.
  - exists s0. simpl. repeat split; auto. intros a [].
  - destruct (Hstep a s0 (or_introl eq_refl) (Hrefl s0)) as (s1 & Hb & HR & HQ).
    destruct (IH s1) as (s' & Hrun & HR' & HQ').
    { intros a' s Hin HRs. apply Hstep; [now right | eauto]. }
    exists s'. cbn [for_each]. rewrite Hb. cbn [rbind].
    split; [exact Hrun|]. split; [eauto|].
    intros a' [<- | Hin]; [eapply Hmono; eauto | now apply HQ'].
Qed.

Lemma more_coloured_refl (c : Z) (b : GameBoard) :
  wf_board b -> more_coloured c b b.
Proof. intros Hwf. repeat split; auto; apply Hwf. Qed.

Lemma more_coloured_trans (c : Z) (b1 b2 b3 : GameBoard) :
  more_coloured c b1 b2 -> more_coloured c b2 b3 -> more_coloured c b1 b3.
Proof.
  intros (Hwf2 & Hc2 & Hr2 & H2) (Hwf3 & Hc3 & Hr3 & H3).
  split; [exact Hwf3|]. split; [congruence|]. split; [congruence|]. auto.
Qed.

Lemma state_set_more_coloured (b : GameBoard) (cx cy c : Z) :
  wf_board b ->
  - columns b <= cx < columns b -> - rows b <= cy < rows b ->
  exists b',
    state_set b cx cy (Colour c) = Ok b' /\ more_coloured c b b' /\
    cell_at b' (wrap (columns b) cx) (wrap (rows b) cy) = Some (Colour c).
Proof.
  intros Hwf Hx Hy.
  destruct (state_set_spec b cx cy (Colour c) Hwf Hx Hy)
    as (b' & Hset & Hwf' & Hc & Hr & Hnew & Hold).
  exists b'. split; [exact Hset|]. split; [|exact Hnew].
  split; [exact Hwf'|]. split; [exact Hc|]. split; [exact Hr|].
  intros cx' cy' Hcell.
  destruct (Z.eq_dec cx' (wrap (columns b) cx)) as [->|Hne].
  - destruct (Z.eq_dec cy' (wrap (rows b) cy)) as [->|Hne]; [exact Hnew|].
    rewrite Hold; [exact Hcell | congruence].
  - rewrite Hold; [exact Hcell | congruence].
Qed.

Section AddToBoard.
Variables (p : Piece) (b : GameBoard).
Hypothesis Hwf : wf_board b.
Hypothesis Hp : piece_ok p.
Hypothesis Hrange :
  forall tx ty, occupied p tx ty ->
    - columns b <= tx + x p < columns b /\ - rows b <= ty + y p < rows b.

Lemma colours_kept_refl s : colours_kept (colour p) s s.
Proof. intros H. now apply more_coloured_refl. Qed.

Lemma colours_kept_trans s1 s2 s3 :
  colours_kept (colour p) s1 s2 -> colours_kept (colour p) s2 s3 ->
  colours_kept (colour p) s1 s3.
Proof.
  intros H12 H23 H1. specialize (H12 H1).
  eapply more_coloured_trans; [exact H12|]. apply H23, H12.
Qed.

Lemma cell_written_mono tx ty s s' :
  cell_written p b tx ty s -> colours_kept (colour p) s s' ->
  cell_written p b tx ty s'.
Proof.
  intros [Hs Hcell] HR. destruct (HR Hs) as (Hs' & _ & _ & Hkeep).
  split; [exact Hs'|]. intros Hocc. apply Hkeep, Hcell, Hocc.
Qed.

Lemma add_column (tx : Z) (s : GameBoard) :
  0 <= tx < TEMPLATE_WIDTH -> more_coloured (colour p) b s ->
  exists s',
    for_each (Py.xrange TEMPLATE_HEIGHT) (fun ty b =>
      let* nc := needs_colour p tx ty in
      if nc then state_set b (tx + x p) (ty + y p) (Colour (colour p))
      else Ok b) s = Ok s' /\
    colours_kept (colour p) s s' /\
    forall ty, In ty (Py.xrange TEMPLATE_HEIGHT) -> cell_written p b tx ty s'.
Proof.
  intros Hx (Hs & Hcs & Hrs & _).
  apply (for_each_chain (colours_kept (colour p)) (cell_written p b tx) _
           colours_kept_refl colours_kept_trans
           (fun ty s1 s2 => cell_written_mono tx ty s1 s2)).
  intros ty s1 Hin HR. apply in_xrange in Hin.
  destruct (HR Hs) as (Hs1 & Hc1 & Hr1 & _).
  rewrite (needs_colour_total p tx ty Hp Hx Hin). cbn [rbind].
  destruct (occupiedb p tx ty) eqn:Hocc.
  - assert (Hoc : occupied p tx ty)
      by (split; [exact Hx | split; [exact Hin | exact Hocc]]).
    destruct (Hrange tx ty Hoc) as [Hcx Hcy].
    rewrite <- Hcs, <- Hc1 in Hcx. rewrite <- Hrs, <- Hr1 in Hcy.
    destruct (state_set_more_coloured s1 (tx + x p) (ty + y p) (colour p)
                Hs1 Hcx Hcy) as (s2 & Hset & Hmore & Hnew).
    exists s2. split; [exact Hset|]. split; [intros _; exact Hmore|].
    split; [apply Hmore|]. intros _.
    rewrite Hc1, Hcs, Hr1, Hrs in Hnew. exact Hnew.
  - exists s1. split; [reflexivity|]. split; [apply colours_kept_refl|].
    split; [exact Hs1 | intros Hocc'; congruence].
Qed.

Lemma add_to_board_spec :
  exists b',
    add_to_board p b = Ok b' /\ more_coloured (colour p) b b' /\
    forall tx ty, occupied p tx ty ->
      cell_at b' (wrap (columns b) (tx + x p)) (wrap (rows b) (ty + y p))
      = Some (Colour (colour p)).
Proof.
  unfold add_to_board.
  destruct (for_each_chain (colours_kept (colour p))
              (fun tx s => forall ty, In ty (Py.xrange TEMPLATE_HEIGHT) ->
                                      cell_written p b tx ty s)
              (fun tx b0 =>
                 for_each (Py.xrange TEMPLATE_HEIGHT) (fun ty b1 =>
                   let* nc := needs_colour p tx ty in
                   if nc
                   then state_set b1 (tx + x p) (ty + y p) (Colour (colour p))
                   else Ok b1) b0)
              colours_kept_refl colours_kept_trans)
    with (xs := Py.xrange TEMPLATE_WIDTH) (s0 := b)
    as (b' & Hrun & HR & Hall).
  - intros tx s s' Hw HRs ty Hin. eapply cell_written_mono; eauto.
  - intros tx s Hin HRs. apply in_xrange in Hin.
    apply (add_column tx s Hin). exact (HRs Hwf).
  - exists b'. split; [exact Hrun|]. split; [exact (HR Hwf)|].
    intros tx ty (Hx & Hy & Hocc).
    apply (Hall tx); [now apply in_xrange | now apply in_xrange | exact Hocc].
Qed.

End AddToBoard.

(** C8, as the code has it. When every occupied cell of the piece has a
    column index and a row index inside the subscript range of the state
    ([-columns <= column < columns], [-rows <= row < rows]), [add_to_board]
    raises nothing and skips no cell: the colour of an occupied cell at a
    negative row [r] is written into row [rows + r]. *)
Theorem add_to_board_wraps_rows_above (b : GameBoard) (p : Piece) :
  wf_board b -> piece_ok p ->
  (forall tx ty, occupied p tx ty ->
     - columns b <= tx + x p < columns b /\ - rows b <= ty + y p < rows b) ->
  exists b',
    add_to_board p b = Ok b' /\
    wf_board b' /\ columns b' = columns b /\ rows b' = rows b /\
    forall tx ty, occupied p tx ty -> ty + y p < 0 ->
      cell_at b' (wrap (columns b) (tx + x p)) (rows b + (ty + y p))
      = Some (Colour (colour p)).
Proof.
  intros Hwf Hp Hrange.
  destruct (add_to_board_spec p b Hwf Hp Hrange) as (b' & Hrun & Hmore & Hcells).
  exists b'. split; [exact Hrun|].
  destruct Hmore as (Hwf' & Hc & Hr & _).
  split; [exact Hwf'|]. split; [exact Hc|]. split; [exact Hr|].
  intros tx ty Hocc Hneg. specialize (Hcells tx ty Hocc).
  unfold wrap at 2 in Hcells.
  destruct (Z.ltb_spec (ty + y p) 0); [exact Hcells | lia].
Qed.

Lemma add_to_board_wraps_rows_above_witness :
  (wf_board default_board /\ piece_ok upright_J) /\
  exists b',
    add_to_board upright_J default_board = Ok b' /\
    cell_at b' 5 19 = Some (Colour 2) /\ cell_at b' 6 19 = Some (Colour 2).
Proof.
  assert (Hwf : wf_board default_board) by apply default_board_wf.
  assert (Hp : piece_ok upright_J) by (vm_compute; split; congruence).
  split; [split; assumption|].
  destruct (add_to_board_wraps_rows_above default_board upright_J Hwf Hp)
    as (b' & Hrun & _ & _ & _ & Hcells).
  - intros tx ty (Hx & Hy & Hocc).
    template_cases tx ty; vm_compute in Hocc; try discriminate;
      vm_compute; repeat split; congruence.
  - exists b'. split; [exact Hrun|]. split.
    + apply (Hcells 2 1); [vm_compute; repeat split; congruence | reflexivity].
    + apply (Hcells 3 1); [vm_compute; repeat split; congruence | reflexivity].
Defined.

(** C8, as stated, fails: an upright J at the right wall, landed on a box
    in the third row, is in a valid position with its top-right box above
    the board at column 10, and [add_to_board] raises [IndexError]. *)
Lemma add_to_board_fails_beside_the_board :
  wf_board (board_with 9 2) /\
  is_valid_position upright_J_at_right_wall (board_with 9 2) 0 0 = Ok true /\
  legal_down upright_J_at_right_wall (board_with 9 2) = Ok false /\
  occupied upright_J_at_right_wall 3 1 /\
  1 + y upright_J_at_right_wall = -1 /\
  add_to_board upright_J_at_right_wall (board_with 9 2) = Raise IndexError.
Proof.
  split; [apply board_with_wf|].
  repeat split; try reflexivity; vm_compute; congruence.
Qed.

(** ** The dimensions of a board *)

Lemma blank_state_length (c r : Z) :
  length (blank_state c r) = Z.to_nat c.
Proof. unfold blank_state. now rewrite length_map, length_xrange. Qed.

Lemma blank_state_columns (c r : Z) :
  Forall (fun col => col = replicate (Z.to_nat r) Blank) (blank_state c r).
Proof.
  unfold blank_state. apply Forall_forall. intros col Hin.
  apply list_elem_of_In, in_map_iff in Hin. now destruct Hin as (_ & <- & _).
Qed.

Lemma reset_wf (b : GameBoard) :
  0 <= columns b -> 0 <= rows b -> wf_board (reset b).
Proof.
  intros Hc Hr. split; simpl.
  - rewrite blank_state_length. lia.
  - eapply Forall_impl; [apply blank_state_columns|].
    intros col ->. rewrite length_replicate. lia.
Qed.

Lemma reset_blank (b : GameBoard) :
  Forall (Forall (fun c => c = Blank)) (state (reset b)).
Proof.
  simpl. eapply Forall_impl; [apply blank_state_columns|].
  intros col ->. apply Forall_replicate. reflexivity.
Qed.

Lemma GameBoard_init_default_wf (l t s : Z) : wf_board (GameBoard_init l t s 10 20).
Proof. split; [reflexivity | repeat constructor]. Qed.

(** C2, on the code. [GameBoard.__init__] builds the state from its
    arguments but sets the attributes [columns] and [rows] to 10 and 20:
    the board made for 5 columns and 5 rows has a 5 by 5 state, answers
    [is_on_board(7, 7)] with true though it has no such cell, and comes out
    of [reset] with a 10 by 20 state. *)
Theorem GameBoard_init_ignores_dimensions :
  let b := GameBoard_init 0 0 1 5 5 in
  length (state b) = 5%nat /\
  Forall (fun col => length col = 5%nat) (state b) /\
  columns b = 10 /\ rows b = 20 /\
  is_on_board b 7 7 = true /\ cell_at b 7 7 = None /\
  length (state (reset b)) = 10%nat /\
  Forall (fun col => length col = 20%nat) (state (reset b)).
Proof.
  cbv zeta. repeat split; try reflexivity; repeat constructor.
Qed.

(** ** Complete lines *)

Lemma set_state_same (b : GameBoard) : set_state b (state b) = b.
Proof. now destruct b. Qed.

Lemma getitem_middle {A} (done todo : list A) (c : A) :
  Py.getitem (done ++ c :: todo) (Z.of_nat (length done)) = Ok c.
Proof.
  apply getitem_nonneg; [lia|]. rewrite Nat2Z.id. apply list_lookup_middle.
  reflexivity.
Qed.

Lemma setitem_middle {A} (done todo : list A) (c c' : A) :
  Py.setitem (done ++ c :: todo) (Z.of_nat (length done)) c'
  = Ok (done ++ c' :: todo).
Proof.
  rewrite setitem_nonneg by (rewrite length_app; simpl; lia).
  rewrite Nat2Z.id. f_equal.
  replace (length done) with (length done + 0)%nat at 1 by lia.
  now rewrite insert_app_r.
Qed.

Lemma is_complete_line_from_spec (b : GameBoard) (y : Z) (todo : list (list cell)) :
  0 <= y ->
  Forall (fun col => y < Z.of_nat (length col)) todo ->
  forall done, state b = done ++ todo ->
    is_complete_line_from b y
      (map Z.of_nat (seq (length done) (length todo)))
    = Ok (forallb (coloured_in (Z.to_nat y)) todo).
Proof.
  intros Hy. induction todo as [|c todo IH]; intros Hlen done Hstate.
  - reflexivity.
  - apply Forall_cons in Hlen as [Hc Hlen].
    cbn [length seq map is_complete_line_from forallb].
    unfold state_get. rewrite Hstate, getitem_middle. cbn [rbind].
    destruct (getitem_in_range c y) as (v & Hg & Hl); [lia|].
    rewrite Hg. cbn [rbind]. unfold coloured_in at 1. rewrite Hl.
    destruct (is_blank v); [reflexivity|]. cbn [negb andb].
    specialize (IH Hlen (done ++ [c])).
    rewrite length_app in IH. cbn [length] in IH.
    replace (length done + 1)%nat with (S (length done)) in IH by lia.
    apply IH. rewrite Hstate, <- app_assoc. reflexivity.
Qed.

Lemma is_complete_line_spec (b : GameBoard) (y : Z) :
  wf_board b -> 0 <= y < rows b ->
  is_complete_line b y = Ok (complete_row (state b) (Z.to_nat y)).
Proof.
  intros [Hc Hr] Hy. unfold is_complete_line, Py.xrange, complete_row.
  rewrite <- Hc, Nat2Z.id.
  apply (is_complete_line_from_spec b y (state b)) with (done := []);
    [lia | | reflexivity].
  eapply Forall_impl; [exact Hr|]. intros col Hlen. simpl in Hlen. lia.
Qed.

(** ** Pulling the rows down *)

Lemma column_update_all (f : list cell -> result (list cell))
    (g : list cell -> list cell) (todo : list (list cell)) :
  Forall (fun col => f col = Ok (g col)) todo ->
  forall (b : GameBoard) (done : list (list cell)),
    state b = done ++ todo ->
    for_each (map Z.of_nat (seq (length done) (length todo))) (column_update f) b
    = Ok (set_state b (done ++ map g todo)).
Proof.
  induction todo as [|c todo IH]; intros Hf b done Hstate.
  - simpl. rewrite app_nil_r in Hstate |- *.
    now rewrite <- Hstate, set_state_same.
  - apply Forall_cons in Hf as [Hc Hf].
    cbn [length seq map for_each]. unfold column_update at 1.
    rewrite Hstate, getitem_middle. cbn [rbind]. rewrite Hc. cbn [rbind].
    rewrite setitem_middle. cbn [rbind].
    specialize (IH Hf (set_state b (done ++ g c :: todo)) (done ++ [g c])).
    rewrite length_app in IH. cbn [length] in IH.
    replace (length done + 1)%nat with (S (length done)) in IH by lia.
    rewrite IH by (simpl; now rewrite <- app_assoc).
    f_equal. unfold set_state. simpl. f_equal. now rewrite <- app_assoc.
Qed.

Lemma for_each_columns (f : list cell -> result (list cell))
    (g : list cell -> list cell) (b : GameBoard) :
  Z.of_nat (length (state b)) = columns b ->
  Forall (fun col => f col = Ok (g col)) (state b) ->
  for_each (Py.xrange (columns b)) (column_update f) b
  = Ok (set_state b (map g (state b))).
Proof.
  intros Hc Hf. unfold Py.xrange. rewrite <- Hc, Nat2Z.id.
  exact (column_update_all f g (state b) Hf b [] eq_refl).
Qed.

Lemma copy_body_column (pd : Z) (cx : Z) (b : GameBoard) :
  (let* v := state_get b cx (pd - 1) in state_set b cx pd v)
  = column_update (fun col => let* v := Py.getitem col (pd - 1) in
                              Py.setitem col pd v) cx b.
Proof.
  unfold state_get, state_set, column_update.
  destruct (Py.getitem (state b) cx) as [col| |] eqn:E; cbn [rbind];
    try reflexivity.
  destruct (Py.getitem col (pd - 1)); cbn [rbind]; reflexivity.
Qed.

Lemma blank_body_column (cx : Z) (b : GameBoard) :
  state_set b cx 0 Blank = column_update (fun col => Py.setitem col 0 Blank) cx b.
Proof. reflexivity. Qed.

Lemma copy_down_column (n : nat) (col : list cell) :
  (S n < length col)%nat ->
  (let* v := Py.getitem col (Z.of_nat (S n) - 1) in
   Py.setitem col (Z.of_nat (S n)) v) = Ok (copy_down n col).
Proof.
  intros Hn. replace (Z.of_nat (S n) - 1) with (Z.of_nat n) by lia.
  destruct (getitem_in_range col (Z.of_nat n)) as (v & Hg & Hl); [lia|].
  rewrite Hg. cbn [rbind]. rewrite setitem_nonneg by lia.
  unfold copy_down. rewrite Nat2Z.id in *. now rewrite Hl.
Qed.

Lemma length_copy_down (n : nat) (col : list cell) :
  length (copy_down n col) = length col.
Proof.
  unfold copy_down. destruct (col !! n); [apply length_insert | reflexivity].
Qed.

Lemma pulled_column_step (n : nat) (col : list cell) :
  (S n < length col)%nat ->
  pulled_column n (copy_down n col) = pulled_column (S n) col.
Proof.
  intros Hn. unfold pulled_column, copy_down.
  assert (is_Some (col !! n)) as [v Hv] by (apply lookup_lt_is_Some_2; lia).
  rewrite Hv. rewrite !take_insert_ge by lia.
  rewrite (take_S_r col n v Hv), <- app_assoc. do 2 f_equal.
  rewrite drop_insert_ge by lia. rewrite Nat.sub_diag.
  assert (is_Some (col !! S n)) as [w Hw] by (apply lookup_lt_is_Some_2; lia).
  rewrite (drop_S col w (S n) Hw). reflexivity.
Qed.

Lemma pulled_column_0 (col : list cell) : pulled_column 0 col = col.
Proof. unfold pulled_column. simpl. apply take_drop. Qed.

Lemma blank_top_pulled (n : nat) (col : list cell) :
  (0 < length col)%nat ->
  <[0%nat := Blank]> (pulled_column n col) = shift_column n col.
Proof.
  intros Hlen. destruct col as [|c col]; [simpl in Hlen; lia|].
  unfold pulled_column, shift_column. reflexivity.
Qed.

Lemma length_shift_column (n : nat) (col : list cell) :
  (n < length col)%nat -> length (shift_column n col) = length col.
Proof.
  intros Hn. unfold shift_column. simpl.
  rewrite length_app, length_take, length_drop. lia.
Qed.

Lemma length_pulled_column (n : nat) (col : list cell) :
  (n < length col)%nat -> length (pulled_column n col) = length col.
Proof.
  intros Hn. unfold pulled_column.
  rewrite !length_app, !length_take, length_drop. lia.
Qed.

Lemma set_state_wf (b : GameBoard) (s : list (list cell)) :
  wf_board b -> length s = length (state b) ->
  Forall (fun col => Z.of_nat (length col) = rows b) s ->
  wf_board (set_state b s).
Proof. intros [Hc Hr] Hlen Hs. split; simpl; [lia | exact Hs]. Qed.

Lemma map_wf (b : GameBoard) (g : list cell -> list cell) :
  wf_board b ->
  (forall col, Z.of_nat (length col) = rows b -> length (g col) = length col) ->
  wf_board (set_state b (map g (state b))).
Proof.
  intros Hwf Hg. apply set_state_wf; [exact Hwf | apply length_map |].
  destruct Hwf as [_ Hr]. apply Forall_map.
  eapply Forall_impl; [exact Hr|]. intros col Hlen. simpl.
  rewrite Hg by exact Hlen. exact Hlen.
Qed.

(** The outer loop of the pull, for the rows [n], ..., 1. *)
Lemma pull_rows_spec (n : nat) :
  forall b, wf_board b -> Z.of_nat n < rows b ->
    for_each (Py.xrange_down (Z.of_nat n) 0) (fun pull_down_y b =>
      for_each (Py.xrange (columns b)) (fun x b =>
        let* v := state_get b x (pull_down_y - 1) in
        state_set b x pull_down_y v) b) b
    = Ok (set_state b (map (pulled_column n) (state b))).
Proof.
  induction n as [|n IH]; intros b Hwf Hn.
  - simpl. rewrite (map_ext _ (fun col => col)) by apply pulled_column_0.
    now rewrite map_id, set_state_same.
  - rewrite xrange_down_S. cbn [for_each].
    rewrite (for_each_ext_in _ _
               (column_update (fun col =>
                  let* v := Py.getitem col (Z.of_nat (S n) - 1) in
                  Py.setitem col (Z.of_nat (S n)) v)))
      by (intros; apply copy_body_column).
    pose proof Hwf as [Hc Hr].
    rewrite (for_each_columns _ (copy_down n)); [|exact Hc|].
    + cbn [rbind].
      assert (Hwf1 : wf_board (set_state b (map (copy_down n) (state b))))
        by (apply map_wf; [exact Hwf | intros; apply length_copy_down]).
      rewrite IH by (exact Hwf1 || (simpl; lia)).
      f_equal. unfold set_state. simpl. f_equal.
      rewrite map_map. apply map_ext_in. intros col Hin.
      apply pulled_column_step.
      rewrite Forall_forall in Hr.
      specialize (Hr col (proj2 (list_elem_of_In _ _) Hin)). simpl in Hr. lia.
    + eapply Forall_impl; [exact Hr|]. intros col Hlen. simpl in Hlen.
      apply copy_down_column. lia.
Qed.

Lemma pull_down_spec (b : GameBoard) (y : Z) :
  wf_board b -> 0 <= y < rows b ->
  pull_down b y
  = Ok (set_state b (map (shift_column (Z.to_nat y)) (state b))).
Proof.
  intros Hwf Hy. unfold pull_down.
  rewrite <- (Z2Nat.id y) at 1 by lia.
  rewrite pull_rows_spec by (exact Hwf || lia). cbn [rbind].
  pose proof Hwf as [Hc Hr].
  assert (Hwf1 : wf_board (set_state b (map (pulled_column (Z.to_nat y)) (state b)))).
  { apply map_wf; [exact Hwf|]. intros col Hlen. apply length_pulled_column. lia. }
  rewrite (for_each_ext_in _ _
             (column_update (fun col => Py.setitem col 0 Blank)))
    by (intros; apply blank_body_column).
  rewrite (for_each_columns _ (fun col => <[0%nat := Blank]> col)).
  - f_equal. unfold set_state. simpl. f_equal.
    rewrite map_map. apply map_ext_in. intros col Hin.
    apply blank_top_pulled.
    rewrite Forall_forall in Hr.
    specialize (Hr col (proj2 (list_elem_of_In _ _) Hin)). simpl in Hr. lia.
  - apply Hwf1.
  - destruct Hwf1 as [_ Hr1]. eapply Forall_impl; [exact Hr1|].
    intros col Hlen. simpl in Hlen.
    now rewrite setitem_nonneg by lia.
Qed.

(** ** The rows after a pull *)

Lemma shift_column_top (y : nat) (col : list cell) :
  shift_column y col !! 0%nat = Some Blank.
Proof. reflexivity. Qed.

Lemma shift_column_below (y k : nat) (col : list cell) :
  (k < y)%nat -> (y < length col)%nat ->
  shift_column y col !! S k = col !! k.
Proof.
  intros Hk Hy. unfold shift_column.
  change ((take y col ++ drop (S y) col) !! k = col !! k).
  rewrite lookup_app_l by (rewrite length_take; lia).
  now apply lookup_take_lt.
Qed.

Lemma shift_column_above (y r : nat) (col : list cell) :
  (y < r)%nat -> (y < length col)%nat ->
  shift_column y col !! r = col !! r.
Proof.
  intros Hr Hy. unfold shift_column. destruct r as [|r]; [lia|].
  change ((take y col ++ drop (S y) col) !! r = col !! S r).
  rewrite lookup_app_r by (rewrite length_take; lia).
  rewrite length_take, lookup_drop. f_equal. lia.
Qed.

Lemma complete_row_map (g : list cell -> list cell) (s : list (list cell))
    (r r' : nat) :
  Forall (fun col => g col !! r = col !! r') s ->
  complete_row (map g s) r = complete_row s r'.
Proof.
  intros H. unfold complete_row. induction H as [|col s Hcol _ IH]; simpl.
  - reflexivity.
  - unfold coloured_in at 1 3. now rewrite Hcol, IH.
Qed.

Section Shifted.
Variables (s : list (list cell)) (y : nat).
Hypothesis Hlen : Forall (fun col => (y < length col)%nat) s.

Lemma complete_row_shift_top :
  s <> [] -> complete_row (map (shift_column y) s) 0 = false.
Proof. destruct s; [congruence | reflexivity]. Qed.

Lemma complete_row_shift_below (k : nat) :
  (k < y)%nat ->
  complete_row (map (shift_column y) s) (S k) = complete_row s k.
Proof.
  intros Hk. apply complete_row_map.
  eapply Forall_impl; [exact Hlen|]. intros col Hc. simpl.
  now apply shift_column_below.
Qed.

Lemma complete_row_shift_above (r : nat) :
  (y < r)%nat ->
  complete_row (map (shift_column y) s) r = complete_row s r.
Proof.
  intros Hr. apply complete_row_map.
  eapply Forall_impl; [exact Hlen|]. intros col Hc. simpl.
  now apply shift_column_above.
Qed.

Lemma complete_rows_shift (k : nat) :
  s <> [] -> (k <= y)%nat ->
  complete_rows (map (shift_column y) s) (S k) = complete_rows s k.
Proof.
  intros Hne. induction k as [|k IH]; intros Hk.
  - cbn [complete_rows]. now rewrite complete_row_shift_top.
  - change (complete_rows (map (shift_column y) s) (S (S k)))
      with ((if complete_row (map (shift_column y) s) (S k) then 1 else 0)
            + complete_rows (map (shift_column y) s) (S k))%nat.
    rewrite complete_row_shift_below, IH by lia. reflexivity.
Qed.

End Shifted.

Lemma complete_rows_le (s : list (list cell)) (n : nat) :
  (complete_rows s n <= n)%nat.
Proof.
  induction n as [|n IH]; simpl; [lia|].
  destruct (complete_row s n); lia.
Qed.

Lemma wf_rows_lt (b : GameBoard) (y : Z) :
  wf_board b -> 0 <= y < rows b ->
  Forall (fun col => (Z.to_nat y < length col)%nat) (state b).
Proof.
  intros [_ Hr] Hy. eapply Forall_impl; [exact Hr|].
  intros col Hlen. simpl in Hlen. lia.
Qed.

Lemma wf_nonempty (b : GameBoard) :
  wf_board b -> 0 < columns b -> state b <> [].
Proof. intros [Hc _] Hpos Hnil. rewrite Hnil in Hc. simpl in Hc. lia. Qed.

Lemma shifted_wf (b : GameBoard) (y : Z) :
  wf_board b -> 0 <= y < rows b ->
  wf_board (set_state b (map (shift_column (Z.to_nat y)) (state b))).
Proof.
  intros Hwf Hy. apply map_wf; [exact Hwf|].
  intros col Hlen. apply length_shift_column. lia.
Qed.

(** ** The loop of [remove_complete_lines] *)

Lemma remove_loop_count (fuel : nat) :
  forall (b : GameBoard) (y lines : Z),
    wf_board b -> 0 < columns b -> -1 <= y < rows b ->
    (Z.to_nat (y + 1) + complete_rows (state b) (Z.to_nat (y + 1)) < fuel)%nat ->
    exists b',
      remove_loop fuel b y lines
      = Ok (lines + Z.of_nat (complete_rows (state b) (Z.to_nat (y + 1))), b') /\
      wf_board b' /\ columns b' = columns b /\ rows b' = rows b.
Proof.
  induction fuel as [|fuel IH]; intros b y lines Hwf Hcols Hy Hfuel; [lia|].
  cbn [remove_loop]. destruct (Z.leb_spec 0 y) as [Hy0|Hy0].
  - rewrite is_complete_line_spec by (exact Hwf || lia). cbn [rbind].
    replace (Z.to_nat (y + 1)) with (S (Z.to_nat y)) in * by lia.
    cbn [complete_rows] in *.
    destruct (complete_row (state b) (Z.to_nat y)) eqn:Hrow.
    + rewrite pull_down_spec by (exact Hwf || lia). cbn [rbind].
      pose proof (shifted_wf b y Hwf ltac:(lia)) as Hwf'.
      destruct (IH (set_state b (map (shift_column (Z.to_nat y)) (state b)))
                   y (lines + 1) Hwf' Hcols ltac:(simpl; lia)) as (b' & Hrun & Hb').
      * replace (Z.to_nat (y + 1)) with (S (Z.to_nat y)) by lia.
        simpl state. rewrite complete_rows_shift;
          [lia | apply wf_rows_lt; [exact Hwf | lia]
          | now apply wf_nonempty | lia].
      * exists b'. split; [|exact Hb'].
        rewrite Hrun. f_equal. f_equal.
        replace (Z.to_nat (y + 1)) with (S (Z.to_nat y)) by lia.
        simpl state. rewrite complete_rows_shift;
          [lia | apply wf_rows_lt; [exact Hwf | lia]
          | now apply wf_nonempty | lia].
    + destruct (IH b (y - 1) lines Hwf Hcols ltac:(lia)) as (b' & Hrun & Hb').
      * replace (Z.to_nat (y - 1 + 1)) with (Z.to_nat y) by lia. lia.
      * exists b'. split; [|exact Hb'].
        rewrite Hrun. f_equal. f_equal.
        replace (Z.to_nat (y - 1 + 1)) with (Z.to_nat y) by lia. lia.
  - exists b. replace (Z.to_nat (y + 1)) with 0%nat by lia. simpl.
    rewrite Z.add_0_r. repeat split; apply Hwf.
Qed.

Lemma coloured_count_shift (y : nat) (col : list cell) :
  coloured_in y col = true ->
  (coloured_count (shift_column y col) + 1 = coloured_count col)%nat.
Proof.
  unfold coloured_in. destruct (col !! y) as [c|] eqn:Hc; [|discriminate].
  intros Hcol. rewrite <- (take_drop_middle col y c Hc) at 2.
  unfold coloured_count, shift_column. cbn [List.filter is_blank negb].
  rewrite !List.filter_app. cbn [List.filter]. rewrite Hcol.
  rewrite !length_app. cbn [length]. lia.
Qed.

Lemma coloured_cells_shift (s : list (list cell)) (y : nat) :
  complete_row s y = true ->
  (list_sum (map coloured_count (map (shift_column y) s)) + length s
   = list_sum (map coloured_count s))%nat.
Proof.
  unfold complete_row. induction s as [|col s IH]; intros Hrow; simpl.
  - reflexivity.
  - simpl in Hrow. apply andb_prop in Hrow as [Hcol Hrow].
    specialize (IH Hrow). pose proof (coloured_count_shift y col Hcol).
    lia.
Qed.

(** C10. [remove_complete_lines] ends on every board and returns a count
    between 0 and [rows], though the loop tests the same row again after a
    removal: a removal takes [columns] coloured cells off the board. *)
Theorem remove_complete_lines_terminates (b : GameBoard) (fuel : nat) :
  wf_board b -> 0 < columns b -> (2 * Z.to_nat (rows b) < fuel)%nat ->
  (exists n b',
     remove_complete_lines fuel b = Ok (n, b') /\ 0 <= n <= rows b /\
     wf_board b' /\ columns b' = columns b /\ rows b' = rows b)
  /\
  (forall y, 0 <= y < rows b -> is_complete_line b y = Ok true ->
     exists b1, pull_down b y = Ok b1 /\
                (coloured_cells b1 < coloured_cells b)%nat).
Proof.
  intros Hwf Hcols Hfuel. split.
  - assert (Hrows : 0 <= rows b).
    { pose proof (wf_nonempty b Hwf Hcols) as Hne.
      pose proof Hwf as [_ Hr].
      destruct (state b) as [|col s]; [congruence|].
      apply Forall_cons in Hr as [Hr _]. lia. }
    pose proof (complete_rows_le (state b) (Z.to_nat (rows b - 1 + 1))) as Hle.
    destruct (remove_loop_count fuel b (rows b - 1) 0 Hwf Hcols ltac:(lia))
      as (b' & Hrun & Hb'); [lia|].
    unfold remove_complete_lines. rewrite Hrun.
    eexists. exists b'. split; [reflexivity|]. split; [lia | exact Hb'].
  - intros y Hy Hrow.
    rewrite is_complete_line_spec in Hrow by assumption.
    injection Hrow as Hrow.
    rewrite pull_down_spec by assumption. eexists. split; [reflexivity|].
    unfold coloured_cells. simpl state.
    pose proof (coloured_cells_shift (state b) (Z.to_nat y) Hrow).
    destruct Hwf as [Hc _]. lia.
Qed.

Lemma remove_complete_lines_terminates_witness :
  (wf_board board_with_full_row /\ 0 < columns board_with_full_row /\
   (2 * Z.to_nat (rows board_with_full_row) < 41)%nat) /\
  exists n b',
    remove_complete_lines 41 board_with_full_row = Ok (n, b') /\
    0 <= n <= rows board_with_full_row.
Proof.
  assert (Hwf : wf_board board_with_full_row)
    by (split; [reflexivity | repeat constructor]).
  assert (Hc : 0 < columns board_with_full_row) by reflexivity.
  assert (Hf : (2 * Z.to_nat (rows board_with_full_row) < 41)%nat)
    by (vm_compute; lia).
  split; [split; [exact Hwf | split; [exact Hc | exact Hf]]|].
  destruct (proj1 (remove_complete_lines_terminates
                     board_with_full_row 41 Hwf Hc Hf))
    as (n & b' & Hrun & Hn & _).
  exists n, b'. split; [exact Hrun | exact Hn].
Defined.

(** ** Removing one line *)

Lemma remove_loop_no_complete (fuel : nat) :
  forall (b : GameBoard) (y lines : Z),
    wf_board b -> -1 <= y < rows b ->
    (forall r, 0 <= r <= y -> complete_row (state b) (Z.to_nat r) = false) ->
    (Z.to_nat (y + 1) < fuel)%nat ->
    remove_loop fuel b y lines = Ok (lines, b).
Proof.
  induction fuel as [|fuel IH]; intros b y lines Hwf Hy Hnone Hfuel; [lia|].
  cbn [remove_loop]. destruct (Z.leb_spec 0 y) as [Hy0|Hy0]; [|reflexivity].
  rewrite is_complete_line_spec by (exact Hwf || lia).
  rewrite Hnone by lia. cbn [rbind].
  apply IH; try assumption; try lia.
  intros r Hr. apply Hnone. lia.
Qed.

Lemma remove_loop_descend (k : nat) :
  forall (fuel : nat) (b : GameBoard) (y lines : Z),
    wf_board b -> -1 <= y -> y + Z.of_nat k < rows b ->
    (forall r, y < r <= y + Z.of_nat k ->
               complete_row (state b) (Z.to_nat r) = false) ->
    remove_loop (k + fuel) b (y + Z.of_nat k) lines = remove_loop fuel b y lines.
Proof.
  induction k as [|k IH]; intros fuel b y lines Hwf Hy Hk Hnone.
  - simpl. now rewrite Z.add_0_r.
  - cbn [Nat.add remove_loop].
    destruct (Z.leb_spec 0 (y + Z.of_nat (S k))) as [_|]; [|lia].
    rewrite is_complete_line_spec by (exact Hwf || lia).
    rewrite Hnone by lia. cbn [rbind].
    replace (y + Z.of_nat (S k) - 1) with (y + Z.of_nat k) by lia.
    apply IH; try assumption; try lia.
    intros r Hr. apply Hnone. lia.
Qed.

Lemma cell_at_shifted (b : GameBoard) (y cx r : Z) :
  wf_board b -> 0 <= y < rows b -> 0 <= cx < columns b -> 0 <= r ->
  cell_at (set_state b (map (shift_column (Z.to_nat y)) (state b))) cx r
  = match state b !! Z.to_nat cx with
    | Some col => shift_column (Z.to_nat y) col !! Z.to_nat r
    | None => None
    end.
Proof.
  intros Hwf Hy Hx Hr. rewrite cell_at_nonneg by lia. simpl state.
  rewrite list_lookup_fmap. now destruct (state b !! Z.to_nat cx).
Qed.

(** C5. On a board with exactly one complete row [y], all the others
    incomplete, [remove_complete_lines] returns 1; afterwards each row
    [r] with [0 < r <= y] holds what row [r - 1] held, the rows below [y]
    are as they were, and the top row is blank. *)
Theorem remove_single_complete_line (b : GameBoard) (y : Z) (fuel : nat) :
  wf_board b -> 0 < columns b -> 0 <= y < rows b ->
  is_complete_line b y = Ok true ->
  (forall r, 0 <= r < rows b -> r <> y -> is_complete_line b r = Ok false) ->
  (2 * Z.to_nat (rows b) < fuel)%nat ->
  exists b',
    remove_complete_lines fuel b = Ok (1, b') /\
    columns b' = columns b /\ rows b' = rows b /\
    forall cx, 0 <= cx < columns b ->
      (forall r, 0 < r <= y -> cell_at b' cx r = cell_at b cx (r - 1)) /\
      (forall r, y < r < rows b -> cell_at b' cx r = cell_at b cx r) /\
      cell_at b' cx 0 = Some Blank.
Proof.
  intros Hwf Hcols Hy Hfull Hothers Hfuel.
  rewrite is_complete_line_spec in Hfull by assumption.
  injection Hfull as Hfull.
  assert (Hrest : forall r, 0 <= r < rows b -> r <> y ->
                            complete_row (state b) (Z.to_nat r) = false).
  { intros r Hr Hne. specialize (Hothers r Hr Hne).
    rewrite is_complete_line_spec in Hothers by assumption.
    now injection Hothers. }
  set (b' := set_state b (map (shift_column (Z.to_nat y)) (state b))).
  assert (Hwf' : wf_board b') by (apply shifted_wf; assumption).
  exists b'. split; [|split; [reflexivity|split; [reflexivity|]]].
  - unfold remove_complete_lines.
    set (k := Z.to_nat (rows b - 1 - y)).
    replace fuel with (k + S (fuel - k - 1))%nat by lia.
    replace (rows b - 1) with (y + Z.of_nat k) by lia.
    rewrite remove_loop_descend; try assumption; try lia.
    + cbn [remove_loop]. destruct (Z.leb_spec 0 y) as [_|]; [|lia].
      rewrite is_complete_line_spec, Hfull by assumption. cbn [rbind].
      rewrite pull_down_spec by assumption. cbn [rbind]. fold b'.
      apply remove_loop_no_complete; try assumption; [simpl; lia| |lia].
      intros r Hr. unfold b'. simpl state.
      destruct (Z.to_nat r) as [|n] eqn:Hn.
      * apply complete_row_shift_top;
          [apply wf_rows_lt; assumption | now apply wf_nonempty].
      * rewrite complete_row_shift_below;
          [|apply wf_rows_lt; assumption | lia].
        replace n with (Z.to_nat (r - 1)) by lia. apply Hrest; lia.
    + intros r Hr. apply Hrest; lia.
  - intros cx Hx.
    assert (is_Some (state b !! Z.to_nat cx)) as [col Hcol].
    { apply lookup_lt_is_Some_2. destruct Hwf as [Hc _]. lia. }
    pose proof (wf_column b _ col Hwf Hcol) as Hlen.
    split; [|split].
    + intros r Hr. unfold b'. rewrite cell_at_shifted by (assumption || lia).
      rewrite cell_at_nonneg by lia. rewrite Hcol.
      replace (Z.to_nat r) with (S (Z.to_nat (r - 1))) by lia.
      apply shift_column_below; lia.
    + intros r Hr. unfold b'. rewrite cell_at_shifted by (assumption || lia).
      rewrite cell_at_nonneg by lia. rewrite Hcol.
      apply shift_column_above; lia.
    + unfold b'. rewrite cell_at_shifted by (assumption || lia).
      rewrite Hcol. reflexivity.
Qed.

Lemma remove_single_complete_line_witness :
  (wf_board board_with_full_row /\ 0 < columns board_with_full_row /\
   is_complete_line board_with_full_row 19 = Ok true) /\
  exists b',
    remove_complete_lines 41 board_with_full_row = Ok (1, b') /\
    (forall cx, 0 <= cx < 10 ->
       cell_at b' cx 19 = cell_at board_with_full_row cx 18 /\
       cell_at b' cx 0 = Some Blank).
Proof.
  assert (Hwf : wf_board board_with_full_row)
    by (split; [reflexivity | repeat constructor]).
  assert (Hc : 0 < columns board_with_full_row) by reflexivity.
  assert (Hfull : is_complete_line board_with_full_row 19 = Ok true)
    by reflexivity.
  split; [split; [exact Hwf | split; [exact Hc | exact Hfull]]|].
  destruct (remove_single_complete_line board_with_full_row 19 41 Hwf Hc)
    as (b' & Hrun & _ & _ & Hcells).
  - vm_compute. split; congruence.
  - exact Hfull.
  - intros r Hr Hne. change (rows board_with_full_row) with 20 in Hr.
    assert (Hcases : r = 0 \/ r = 1 \/ r = 2 \/ r = 3 \/ r = 4 \/ r = 5 \/
                     r = 6 \/ r = 7 \/ r = 8 \/ r = 9 \/ r = 10 \/ r = 11 \/
                     r = 12 \/ r = 13 \/ r = 14 \/ r = 15 \/ r = 16 \/
                     r = 17 \/ r = 18) by lia.
    repeat (destruct Hcases as [-> | Hcases]; [reflexivity|]).
    subst r. reflexivity.
  - vm_compute. lia.
  - exists b'. split; [exact Hrun|]. intros cx Hx.
    destruct (Hcells cx Hx) as (Hdown & _ & Htop).
    split; [apply (Hdown 19); lia | exact Htop].
Defined.

(** ** The session loop and the lines counter *)

Ltac atomic x :=
  lazymatch x with
  | context [match _ with _ => _ end] => fail
  | context [rbind _ _] => fail
  | Ok _ => fail
  | _ => idtac
  end.

Ltac session_simpl :=
  cbn [game_board falling_piece next_piece moving_down moving_left moving_right
       last_move_down_time last_move_sideways_time last_fall_time lines losses
       clock clock_reads random random_draws events event_polls
       rbind fst snd negb orb andb bumped].

(** The setters are unfolded by value, so that a chain of assignments to
    the session does not copy the session it starts from. *)
Ltac session_unfold :=
  unfold the_falling_piece, terminate; unfold bump, bind, ret, lift, time_time;
  cbv [set_game_board set_falling_piece set_next_piece set_moving_down
       set_moving_left set_moving_right set_last_move_down_time
       set_last_move_sideways_time set_last_fall_time set_lines set_losses
       game_board falling_piece next_piece moving_down moving_left moving_right
       last_move_down_time last_move_sideways_time last_fall_time lines losses];
  session_simpl.

(** Case analysis on what the monadic code inspects, innermost first. *)
Ltac break_match :=
  repeat (match goal with
  | |- context [match ?x with _ => _ end] =>
      atomic x;
      match type of x with
      | bool => destruct x
      | option _ => destruct x as [?|]
      | prod _ _ => destruct x as [? ?]
      end
  | |- context [rbind ?x _] => atomic x; destruct x as [?| |]
  end; session_simpl).

Ltac finish := session_unfold; first [reflexivity | do 3 f_equal; lia].

Lemma gravity_bump (fuel : nat) (cfg : Config) (k : Z) (st : Session) (w : World) :
  gravity fuel cfg (bump k st) w = bumped k (gravity fuel cfg st w).
Proof.
  destruct st as [gb fp np md ml mr t1 t2 t3 ln ls].
  unfold gravity. session_unfold. break_match; finish.
Qed.

Lemma repeat_down_bump (k : Z) (st : Session) (w : World) :
  repeat_down (bump k st) w = bumped k (repeat_down st w).
Proof.
  destruct st as [gb fp np md ml mr t1 t2 t3 ln ls].
  unfold repeat_down. session_unfold. break_match; finish.
Qed.

Lemma repeat_sideways_bump (k : Z) (st : Session) (w : World) :
  repeat_sideways (bump k st) w = bumped k (repeat_sideways st w).
Proof.
  destruct st as [gb fp np md ml mr t1 t2 t3 ln ls].
  unfold repeat_sideways. session_unfold. break_match; finish.
Qed.

Lemma handle_event_bump (cfg : Config) (ev : Event) (k : Z) (st : Session)
    (w : World) :
  handle_event cfg ev (bump k st) w = bumped k (handle_event cfg ev st w).
Proof.
  destruct st as [gb fp np md ml mr t1 t2 t3 ln ls].
  unfold handle_event. destruct ev; session_unfold; try reflexivity;
    break_match; finish.
Qed.

Lemma spawn_bump (k : Z) (st : Session) (w : World) :
  spawn (bump k st) w = bumped k (spawn st w).
Proof.
  destruct st as [gb fp np md ml mr t1 t2 t3 ln ls].
  unfold spawn. session_unfold. break_match; finish.
Qed.

(** Two steps that go along with the counter do so one after the other. *)
Lemma bind_bump (f g : Session -> M Session) (k : Z) :
  (forall st w, f (bump k st) w = bumped k (f st w)) ->
  (forall st w, g (bump k st) w = bumped k (g st w)) ->
  forall st w,
    (do* st' := f (bump k st) in g st') w = bumped k ((do* st' := f st in g st') w).
Proof.
  intros Hf Hg st w. unfold bind. rewrite Hf.
  destruct (f st w) as [[st' w']| |]; cbn [bumped rbind fst snd];
    [apply Hg | reflexivity | reflexivity].
Qed.

Lemma handle_events_bump (cfg : Config) (evs : list Event) (k : Z) :
  forall st w,
    handle_events cfg evs (bump k st) w = bumped k (handle_events cfg evs st w).
Proof.
  induction evs as [|ev evs IH]; intros st w.
  - reflexivity.
  - cbn [handle_events].
    apply (bind_bump (handle_event cfg ev) (handle_events cfg evs) k);
      [intros; apply handle_event_bump | exact IH].
Qed.

Lemma after_spawn_bump (fuel : nat) (cfg : Config) (k : Z) (st : Session)
    (w : World) :
  after_spawn fuel cfg (bump k st) w = bumped k (after_spawn fuel cfg st w).
Proof.
  unfold after_spawn. unfold bind at 1 3. unfold event_get. cbn [rbind fst snd].
  apply (bind_bump (handle_events cfg (events w (event_polls w)))
           (fun st => do* st := repeat_sideways st in
                      do* st := repeat_down st in gravity fuel cfg st) k).
  - intros. apply handle_events_bump.
  - intros st0 w0.
    apply (bind_bump repeat_sideways
             (fun st => do* st := repeat_down st in gravity fuel cfg st) k).
    + intros. apply repeat_sideways_bump.
    + intros st1 w1. apply (bind_bump repeat_down (gravity fuel cfg) k).
      * intros. apply repeat_down_bump.
      * intros. apply gravity_bump.
Qed.

Lemma loop_body_after_spawn (fuel : nat) (cfg : Config) (st : Session) :
  loop_body fuel cfg st = (do* st' := spawn st in after_spawn fuel cfg st').
Proof. reflexivity. Qed.

Lemma loop_body_bump (fuel : nat) (cfg : Config) (k : Z) (st : Session)
    (w : World) :
  loop_body fuel cfg (bump k st) w = bumped k (loop_body fuel cfg st w).
Proof.
  rewrite !loop_body_after_spawn.
  apply (bind_bump spawn (after_spawn fuel cfg) k).
  - intros. apply spawn_bump.
  - intros. apply after_spawn_bump.
Qed.

Lemma session_loop_bump (fuel : nat) (cfg : Config) (finish_time : Q) (k : Z) :
  forall st w,
    session_loop fuel cfg finish_time (bump k st) w
    = bumped k (session_loop fuel cfg finish_time st w).
Proof.
  induction fuel as [|fuel IH]; intros st w.
  - reflexivity.
  - cbn [session_loop]. unfold bind at 1 3. unfold time_time at 1 2.
    cbn [rbind fst snd].
    destruct (Qltb (clock w (clock_reads w)) finish_time).
    + apply (bind_bump (loop_body fuel cfg)
               (session_loop fuel cfg finish_time) k).
      * intros. apply loop_body_bump.
      * exact IH.
    + reflexivity.
Qed.

(** ** The fall of the piece *)

Lemma Qgtb_lt (a b : Q) : Qgtb a b = true <-> (b < a)%Q.
Proof.
  unfold Qgtb, Qltb. rewrite negb_true_iff. split.
  - intros H. apply Qnot_le_lt. intros Hle.
    apply Qle_bool_iff in Hle. congruence.
  - intros H. destruct (Qle_bool a b) eqn:E; [|reflexivity].
    apply Qle_bool_iff in E. exfalso. exact (Qlt_not_le _ _ H E).
Qed.

Lemma Qgtb_le (a b : Q) : Qgtb a b = false <-> (a <= b)%Q.
Proof.
  unfold Qgtb, Qltb. rewrite negb_false_iff. apply Qle_bool_iff.
Qed.

Lemma levels :
  calculate_level 0 = 1 /\ calculate_level 9 = 1 /\ calculate_level 10 = 2.
Proof. repeat split; reflexivity. Qed.

(** C1, as the code has it. In the session loop the time between two
    falls of the piece is the [fall_frequency] argument of [distractor],
    the same at every point of a session: gravity leaves the session as it
    is until more than [fall_frequency] seconds have passed since the last
    fall, moves a piece that can go down once they have, and the whole loop
    runs the same way whatever the lines counter holds. *)
Theorem gravity_interval_is_fall_frequency
    (fuel : nat) (cfg : Config) (finish_time : Q) (st : Session) (w : World)
    (k : Z) :
  ((clock w (clock_reads w) - last_fall_time st <= fall_frequency cfg)%Q ->
   gravity fuel cfg st w = Ok (st, tick w)) /\
  (forall p,
     (fall_frequency cfg < clock w (clock_reads w) - last_fall_time st)%Q ->
     falling_piece st = Some p ->
     legal_down p (game_board st) = Ok true ->
     gravity fuel cfg st w
     = Ok (set_last_fall_time (set_falling_piece st (Some (move_down p)))
             (clock w (S (clock_reads w))),
           tick (tick w))) /\
  session_loop fuel cfg finish_time (bump k st) w
  = bumped k (session_loop fuel cfg finish_time st w).
Proof.
  split; [|split].
  - intros Hwait. apply Qgtb_le in Hwait.
    unfold gravity, bind, time_time. cbn [rbind fst snd]. now rewrite Hwait.
  - intros p Hdue Hp Hlegal. apply Qgtb_lt in Hdue.
    unfold gravity, bind, time_time. cbn [rbind fst snd]. rewrite Hdue.
    unfold the_falling_piece. rewrite Hp. unfold ret, lift.
    cbn [rbind fst snd]. rewrite Hlegal. reflexivity.
  - apply session_loop_bump.
Qed.

Lemma gravity_interval_is_fall_frequency_witness :
  ((fall_frequency default_config
    < clock (still_world (32 # 100)) 0 - last_fall_time falling_J_session)%Q /\
   legal_down upright_J (game_board falling_J_session) = Ok true) /\
  gravity 0 default_config falling_J_session (still_world (32 # 100))
  = Ok (set_last_fall_time
          (set_falling_piece falling_J_session (Some (move_down upright_J)))
          (32 # 100),
        tick (tick (still_world (32 # 100)))).
Proof.
  assert (Hdue : (fall_frequency default_config
                  < clock (still_world (32 # 100)) 0
                    - last_fall_time falling_J_session)%Q) by reflexivity.
  assert (Hlegal : legal_down upright_J (game_board falling_J_session) = Ok true)
    by reflexivity.
  split; [split; [exact Hdue | exact Hlegal]|].
  exact (proj1 (proj2 (gravity_interval_is_fall_frequency
                         0 default_config 0 falling_J_session
                         (still_world (32 # 100)) 0))
           upright_J Hdue eq_refl Hlegal).
Defined.

(** C1, as stated, fails: with no line cleared the level is 1 and the
    interval of the claim 0.34 s, yet with the default [fall_frequency]
    the piece falls 0.32 s after its last fall. *)
Lemma gravity_interval_not_from_level :
  (clock (still_world (32 # 100)) 0 - last_fall_time falling_J_session
   <= calculate_fall_frequency (calculate_level (lines falling_J_session)))%Q /\
  exists st' w',
    gravity 0 default_config falling_J_session (still_world (32 # 100))
    = Ok (st', w') /\
    falling_piece st' = Some (move_down upright_J).
Proof.
  split.
  - vm_compute. discriminate.
  - exists (set_last_fall_time
              (set_falling_piece falling_J_session (Some (move_down upright_J)))
              (32 # 100)),
           (tick (tick (still_world (32 # 100)))).
    split; reflexivity.
Qed.

(** ** A blocked spawn *)

Lemma randint_range (low high r : Z) :
  low < high -> low <= low + r mod (high - low) < high.
Proof.
  intros H. pose proof (Z.mod_pos_bound r (high - low) ltac:(lia)). lia.
Qed.

Lemma new_piece_fresh (b : GameBoard) (w : World) :
  exists p,
    new_piece b w
    = Ok (p, mkWorld (clock w) (clock_reads w) (random w)
                     (S (S (S (random_draws w)))) (events w) (event_polls w)) /\
    fresh_piece b p.
Proof.
  unfold new_piece, random_shape, randint, bind, ret. cbn [rbind fst snd].
  eexists. split; [reflexivity|].
  unfold fresh_piece, Piece_init, piece_ok. cbn [x y shape orientation colour].
  split; [reflexivity|]. split; [reflexivity|]. split.
  - apply randint_range, orientations_pos.
  - apply randint_range. reflexivity.
Qed.

(** C4. When the piece promoted to falling piece is not in a valid
    position where it starts, the loop counts one more loss, resets the
    board to blank cells, clears the held moves, restarts the three
    timers, makes a new falling piece and a new next piece, and goes on
    with the rest of its body: it neither returns nor raises. *)
Theorem blocked_spawn_resets_board
    (fuel : nat) (cfg : Config) (st : Session) (w : World) :
  falling_piece st = None ->
  is_valid_position (next_piece st) (game_board st) 0 0 = Ok false ->
  exists st' w' falling,
    spawn st w = Ok (st', w') /\
    loop_body fuel cfg st w = after_spawn fuel cfg st' w' /\
    losses st' = losses st + 1 /\
    lines st' = lines st /\
    game_board st' = reset (game_board st) /\
    Forall (Forall (fun c => c = Blank)) (state (game_board st')) /\
    moving_down st' = false /\ moving_left st' = false /\
    moving_right st' = false /\
    last_move_down_time st' = clock w (1 + clock_reads w)%nat /\
    last_move_sideways_time st' = clock w (2 + clock_reads w)%nat /\
    last_fall_time st' = clock w (3 + clock_reads w)%nat /\
    falling_piece st' = Some falling /\
    fresh_piece (game_board st') falling /\
    fresh_piece (game_board st') (next_piece st').
Proof.
  intros Hnone Hblocked.
  assert (Hspawn : exists st' w' falling,
             spawn st w = Ok (st', w') /\
             losses st' = losses st + 1 /\
             lines st' = lines st /\
             game_board st' = reset (game_board st) /\
             moving_down st' = false /\ moving_left st' = false /\
             moving_right st' = false /\
             last_move_down_time st' = clock w (1 + clock_reads w)%nat /\
             last_move_sideways_time st' = clock w (2 + clock_reads w)%nat /\
             last_fall_time st' = clock w (3 + clock_reads w)%nat /\
             falling_piece st' = Some falling /\
             fresh_piece (game_board st') falling /\
             fresh_piece (game_board st') (next_piece st')).
  { destruct st as [gb fp np md ml mr t1 t2 t3 ln ls].
    cbn [falling_piece next_piece game_board] in Hnone, Hblocked. subst fp.
    unfold spawn. session_unfold.
    destruct (new_piece_fresh gb w) as (p0 & -> & _). session_simpl.
    rewrite Hblocked. session_simpl.
    match goal with
    | |- context [new_piece ?b ?w0] =>
        destruct (new_piece_fresh b w0) as (p1 & -> & Hp1)
    end.
    session_simpl.
    match goal with
    | |- context [new_piece ?b ?w0] =>
        destruct (new_piece_fresh b w0) as (p2 & -> & Hp2)
    end.
    session_simpl.
    eexists. eexists. exists p1. split; [reflexivity|].
    session_simpl. repeat split; try reflexivity; try apply Hp1; apply Hp2. }
  destruct Hspawn as (st' & w' & falling & Hrun & Hlosses & Hlines & Hboard
                      & Hrest).
  exists st', w', falling. split; [exact Hrun|]. split.
  - rewrite loop_body_after_spawn. unfold bind. now rewrite Hrun.
  - split; [exact Hlosses|]. split; [exact Hlines|]. split; [exact Hboard|].
    split; [rewrite Hboard; apply reset_blank | exact Hrest].
Qed.

Lemma blocked_spawn_resets_board_witness :
  (falling_piece blocked_session = None /\
   is_valid_position (next_piece blocked_session) (game_board blocked_session)
                     0 0 = Ok false) /\
  exists st' w',
    spawn blocked_session ticking_world = Ok (st', w') /\
    losses st' = 3 /\ lines st' = 7 /\
    state (game_board st') = state default_board /\
    moving_down st' = false /\ moving_left st' = false.
Proof.
  assert (Hnone : falling_piece blocked_session = None) by reflexivity.
  assert (Hblocked : is_valid_position (next_piece blocked_session)
                       (game_board blocked_session) 0 0 = Ok false)
    by reflexivity.
  split; [split; [exact Hnone | exact Hblocked]|].
  destruct (blocked_spawn_resets_board 0 default_config blocked_session
              ticking_world Hnone Hblocked)
    as (st' & w' & falling & Hrun & _ & Hlosses & Hlines & Hboard & _
        & Hdown & Hleft & _).
  exists st', w'. split; [exact Hrun|].
  split; [exact Hlosses|]. split; [exact Hlines|].
  split; [now rewrite Hboard|]. split; [exact Hdown | exact Hleft].
Defined.

(** * Further properties of the board *)

Lemma cell_at_Some_on_board (b : GameBoard) (cx cy : Z) (c : cell) :
  wf_board b -> cell_at b cx cy = Some c -> is_on_board b cx cy = true.
Proof.
  intros Hwf Hc. unfold cell_at in Hc.
  destruct (Z.leb_spec 0 cx); [|discriminate].
  destruct (Z.leb_spec 0 cy); [|discriminate]. simpl in Hc.
  destruct (state b !! Z.to_nat cx) as [col|] eqn:Hcol; [|discriminate].
  pose proof (wf_column b _ col Hwf Hcol) as Hlen.
  apply lookup_lt_Some in Hcol, Hc. destruct Hwf as [Hcols _].
  unfold is_on_board.
  destruct (Z.leb_spec 0 cx); [|lia]. destruct (Z.leb_spec 0 cy); [|lia].
  destruct (Z.ltb_spec cx (columns b)); [|lia].
  destruct (Z.ltb_spec cy (rows b)); [|lia]. reflexivity.
Qed.

(** X1. On a board whose state is the columns-by-rows list its attributes
    announce, [is_on_board] is true exactly at the coordinates where the
    state has a cell. *)
Theorem is_on_board_iff_cell (b : GameBoard) (cx cy : Z) :
  wf_board b ->
  (is_on_board b cx cy = true <-> exists c, cell_at b cx cy = Some c).
Proof.
  intros Hwf. split.
  - intros Hon. destruct (state_get_on_board b cx cy Hwf Hon) as (c & _ & Hc).
    eauto.
  - intros [c Hc]. eapply cell_at_Some_on_board; eauto.
Qed.

Lemma is_on_board_iff_cell_witness :
  wf_board (board_with 3 4) /\
  (is_on_board (board_with 3 4) 3 4 = true <->
   exists c, cell_at (board_with 3 4) 3 4 = Some c).
Proof.
  assert (Hwf : wf_board (board_with 3 4)) by apply board_with_wf.
  split; [exact Hwf|]. exact (is_on_board_iff_cell (board_with 3 4) 3 4 Hwf).
Defined.

Lemma complete_row_true (s : list (list cell)) (r : nat) :
  complete_row s r = true <->
  forall i col, s !! i = Some col -> exists k, col !! r = Some (Colour k).
Proof.
  unfold complete_row. rewrite forallb_forall. split.
  - intros H i col Hi.
    assert (Hin : In col s) by (apply list_elem_of_In, list_elem_of_lookup; eauto).
    specialize (H col Hin). unfold coloured_in in H.
    destruct (col !! r) as [[|k]|]; try discriminate. eauto.
  - intros H col Hin.
    apply list_elem_of_In, list_elem_of_lookup in Hin as [i Hi].
    destruct (H i col Hi) as [k Hk]. unfold coloured_in. now rewrite Hk.
Qed.

(** X2. For a row of the board, [is_complete_line] returns true exactly
    when every column has a coloured cell in that row; it raises nothing. *)
Theorem is_complete_line_iff (b : GameBoard) (y : Z) :
  wf_board b -> 0 <= y < rows b ->
  (exists v, is_complete_line b y = Ok v) /\
  (is_complete_line b y = Ok true <->
   forall cx, 0 <= cx < columns b -> exists k, cell_at b cx y = Some (Colour k)).
Proof.
  intros Hwf Hy. rewrite is_complete_line_spec by assumption.
  split; [eauto|]. split.
  - intros Hrow cx Hcx. injection Hrow as Hrow.
    rewrite complete_row_true in Hrow.
    rewrite cell_at_nonneg by lia.
    assert (is_Some (state b !! Z.to_nat cx)) as [col Hcol].
    { apply lookup_lt_is_Some_2. destruct Hwf as [Hc _]. lia. }
    rewrite Hcol. eapply Hrow; eauto.
  - intros Hall. f_equal. apply complete_row_true. intros i col Hi.
    destruct (Hall (Z.of_nat i)) as [k Hk].
    + apply lookup_lt_Some in Hi. destruct Hwf as [Hc _]. lia.
    + rewrite cell_at_nonneg, Nat2Z.id, Hi in Hk by lia. eauto.
Qed.

Lemma is_complete_line_iff_witness :
  (wf_board board_with_full_row /\ 0 <= 19 < rows board_with_full_row) /\
  is_complete_line board_with_full_row 19 = Ok true.
Proof.
  assert (Hwf : wf_board board_with_full_row)
    by (split; [reflexivity | repeat constructor]).
  assert (Hy : 0 <= 19 < rows board_with_full_row) by (vm_compute; split; congruence).
  split; [split; assumption|].
  apply (proj2 (is_complete_line_iff board_with_full_row 19 Hwf Hy)).
  intros cx Hcx. change (columns board_with_full_row) with 10 in Hcx.
  assert (Hc : cx = 0 \/ cx = 1 \/ cx = 2 \/ cx = 3 \/ cx = 4 \/ cx = 5 \/
               cx = 6 \/ cx = 7 \/ cx = 8 \/ cx = 9) by lia.
  repeat (destruct Hc as [-> | Hc]; [eexists; reflexivity|]).
  subst cx. eexists; reflexivity.
Defined.

(** X3. On a board without a complete row, [remove_complete_lines] returns
    0 and leaves the board as it is. *)
Theorem remove_complete_lines_nothing (b : GameBoard) (fuel : nat) :
  wf_board b ->
  (forall y, 0 <= y < rows b -> is_complete_line b y = Ok false) ->
  (Z.to_nat (rows b) < fuel)%nat ->
  remove_complete_lines fuel b = Ok (0, b).
Proof.
  intros Hwf Hnone Hfuel. unfold remove_complete_lines.
  destruct (Z_lt_dec (rows b) 0) as [Hneg|Hpos].
  - destruct fuel as [|fuel]; [lia|]. cbn [remove_loop].
    destruct (Z.leb_spec 0 (rows b - 1)); [lia | reflexivity].
  - apply remove_loop_no_complete; try assumption; try lia.
    intros r Hr. specialize (Hnone r ltac:(lia)).
    rewrite is_complete_line_spec in Hnone by (assumption || lia).
    now injection Hnone.
Qed.

Lemma rows_of_20 (r : Z) :
  0 <= r < 20 ->
  r = 0 \/ r = 1 \/ r = 2 \/ r = 3 \/ r = 4 \/ r = 5 \/ r = 6 \/ r = 7 \/
  r = 8 \/ r = 9 \/ r = 10 \/ r = 11 \/ r = 12 \/ r = 13 \/ r = 14 \/
  r = 15 \/ r = 16 \/ r = 17 \/ r = 18 \/ r = 19.
Proof. lia. Qed.

Lemma remove_complete_lines_nothing_witness :
  wf_board (board_with 3 4) /\
  remove_complete_lines 21 (board_with 3 4) = Ok (0, board_with 3 4).
Proof.
  assert (Hwf : wf_board (board_with 3 4)) by apply board_with_wf.
  split; [exact Hwf|].
  apply (remove_complete_lines_nothing (board_with 3 4) 21 Hwf).
  - intros y Hy. apply rows_of_20 in Hy.
    repeat (destruct Hy as [-> | Hy]; [reflexivity|]). subst y. reflexivity.
  - vm_compute. lia.
Defined.

Lemma remove_loop_clears (fuel : nat) :
  forall (b : GameBoard) (y lines : Z),
    wf_board b -> 0 < columns b -> -1 <= y < rows b ->
    (Z.to_nat (y + 1) + complete_rows (state b) (Z.to_nat (y + 1)) < fuel)%nat ->
    (forall r, y < r < rows b -> complete_row (state b) (Z.to_nat r) = false) ->
    exists b',
      remove_loop fuel b y lines
      = Ok (lines + Z.of_nat (complete_rows (state b) (Z.to_nat (y + 1))), b') /\
      wf_board b' /\ columns b' = columns b /\ rows b' = rows b /\
      forall r, 0 <= r < rows b -> complete_row (state b') (Z.to_nat r) = false.
Proof.
  induction fuel as [|fuel IH]; intros b y lines Hwf Hcols Hy Hfuel Habove; [lia|].
  cbn [remove_loop]. destruct (Z.leb_spec 0 y) as [Hy0|Hy0].
  - rewrite is_complete_line_spec by (exact Hwf || lia). cbn [rbind].
    replace (Z.to_nat (y + 1)) with (S (Z.to_nat y)) in * by lia.
    cbn [complete_rows] in *.
    destruct (complete_row (state b) (Z.to_nat y)) eqn:Hrow.
    + rewrite pull_down_spec by (exact Hwf || lia). cbn [rbind].
      pose proof (shifted_wf b y Hwf ltac:(lia)) as Hwf'.
      assert (Hcount :
                complete_rows (map (shift_column (Z.to_nat y)) (state b))
                              (S (Z.to_nat y))
                = complete_rows (state b) (Z.to_nat y)).
      { apply complete_rows_shift;
          [apply wf_rows_lt; [exact Hwf | lia] | now apply wf_nonempty | lia]. }
      destruct (IH (set_state b (map (shift_column (Z.to_nat y)) (state b)))
                   y (lines + 1) Hwf' Hcols ltac:(simpl; lia))
        as (b' & Hrun & Hb' & Hc' & Hr' & Hclear).
      * replace (Z.to_nat (y + 1)) with (S (Z.to_nat y)) by lia.
        simpl state. rewrite Hcount. lia.
      * intros r Hr. simpl state. simpl rows in Hr.
        rewrite complete_row_shift_above;
          [apply Habove; lia | apply wf_rows_lt; [exact Hwf | lia] | lia].
      * exists b'. split; [|split; [exact Hb'|split; [exact Hc'|split]]].
        -- rewrite Hrun. f_equal. f_equal.
           replace (Z.to_nat (y + 1)) with (S (Z.to_nat y)) by lia.
           simpl state. rewrite Hcount. lia.
        -- exact Hr'.
        -- exact Hclear.
    + destruct (IH b (y - 1) lines Hwf Hcols ltac:(lia))
        as (b' & Hrun & Hb' & Hc' & Hr' & Hclear).
      * replace (Z.to_nat (y - 1 + 1)) with (Z.to_nat y) by lia. lia.
      * intros r Hr. destruct (Z.eq_dec r y) as [->|Hne];
          [exact Hrow | apply Habove; lia].
      * exists b'. split; [|split; [exact Hb'|split; [exact Hc'|split]]].
        -- rewrite Hrun. f_equal. f_equal.
           replace (Z.to_nat (y - 1 + 1)) with (Z.to_nat y) by lia. lia.
        -- exact Hr'.
        -- exact Hclear.
  - exists b. replace (Z.to_nat (y + 1)) with 0%nat by lia. simpl.
    rewrite Z.add_0_r. split; [reflexivity|]. split; [exact Hwf|].
    split; [reflexivity|]. split; [reflexivity|].
    intros r Hr. apply Habove. lia.
Qed.

(** X4. [remove_complete_lines] removes every complete line, stacked ones
    included: it returns the number of complete rows the board had, and
    afterwards no row of the board is complete. *)
Theorem remove_complete_lines_removes_all (b : GameBoard) (fuel : nat) :
  wf_board b -> 0 < columns b -> (2 * Z.to_nat (rows b) < fuel)%nat ->
  exists b',
    remove_complete_lines fuel b
    = Ok (Z.of_nat (complete_rows (state b) (Z.to_nat (rows b))), b') /\
    wf_board b' /\ columns b' = columns b /\ rows b' = rows b /\
    forall y, 0 <= y < rows b -> is_complete_line b' y = Ok false.
Proof.
  intros Hwf Hcols Hfuel.
  assert (Hrows : 0 <= rows b).
  { pose proof (wf_nonempty b Hwf Hcols) as Hne. pose proof Hwf as [_ Hr].
    destruct (state b) as [|col s]; [congruence|].
    apply Forall_cons in Hr as [Hr _]. lia. }
  pose proof (complete_rows_le (state b) (Z.to_nat (rows b - 1 + 1))) as Hle.
  destruct (remove_loop_clears fuel b (rows b - 1) 0 Hwf Hcols ltac:(lia))
    as (b' & Hrun & Hwf' & Hc' & Hr' & Hclear); [lia | intros; lia |].
  exists b'. unfold remove_complete_lines. rewrite Hrun.
  replace (rows b - 1 + 1) with (rows b) by lia.
  split; [reflexivity|]. split; [exact Hwf'|]. split; [exact Hc'|].
  split; [exact Hr'|]. intros y Hy.
  rewrite is_complete_line_spec by (assumption || lia).
  f_equal. now apply Hclear.
Qed.

Lemma remove_complete_lines_removes_all_witness :
  (wf_board board_with_full_row /\ 0 < columns board_with_full_row) /\
  exists b',
    remove_complete_lines 41 board_with_full_row = Ok (1, b') /\
    forall y, 0 <= y < 20 -> is_complete_line b' y = Ok false.
Proof.
  assert (Hwf : wf_board board_with_full_row)
    by (split; [reflexivity | repeat constructor]).
  assert (Hc : 0 < columns board_with_full_row) by reflexivity.
  split; [split; assumption|].
  destruct (remove_complete_lines_removes_all board_with_full_row 41 Hwf Hc)
    as (b' & Hrun & _ & _ & _ & Hclear); [vm_compute; lia|].
  exists b'. split; [exact Hrun | exact Hclear].
Defined.

(** * Further properties of the pieces *)

Lemma valid_offset (p : Piece) (b : GameBoard) (dx dy : Z) :
  wf_board b -> piece_ok p ->
  is_valid_position p b dx dy = is_valid_position (moved p dx dy) b 0 0.
Proof.
  intros Hwf Hp.
  rewrite !is_valid_position_spec by assumption. f_equal.
  apply eq_true_iff_eq. rewrite !all_cells_ok_true.
  split; intros H tx ty Hx Hy; specialize (H tx ty Hx Hy);
    unfold cell_okb, moved in *; cbn [x y] in *;
    change (occupiedb (mkPiece (shape p) (x p + dx) (y p + dy)
                               (orientation p) (colour p)) tx ty)
      with (occupiedb p tx ty) in *;
    rewrite ?Z.add_0_r in *;
    replace (tx + (x p + dx)) with (tx + x p + dx) in * by lia;
    replace (ty + (y p + dy)) with (ty + y p + dy) in * by lia; exact H.
Qed.

Lemma moved_left (p : Piece) : moved p (-1) 0 = move_left p.
Proof. unfold moved, move_left, set_x. f_equal; lia. Qed.

Lemma moved_right (p : Piece) : moved p 1 0 = move_right p.
Proof. unfold moved, move_right, set_x. f_equal; lia. Qed.

Lemma moved_down (p : Piece) : moved p 0 1 = move_down p.
Proof. unfold moved, move_down, set_y. f_equal; lia. Qed.

(** X5. The three legality tests say what the position will be worth
    after the move: [legal_left], [legal_right] and [legal_down] return
    what [is_valid_position] returns for the piece moved by [move_left],
    [move_right] and [move_down]. *)
Theorem legal_moves_are_valid_moves (b : GameBoard) (p : Piece) :
  wf_board b -> piece_ok p ->
  legal_left p b = is_valid_position (move_left p) b 0 0 /\
  legal_right p b = is_valid_position (move_right p) b 0 0 /\
  legal_down p b = is_valid_position (move_down p) b 0 0.
Proof.
  intros Hwf Hp. unfold legal_left, legal_right, legal_down.
  rewrite <- moved_left, <- moved_right, <- moved_down.
  repeat split; now apply valid_offset.
Qed.

Lemma legal_moves_are_valid_moves_witness :
  (wf_board (board_with 9 2) /\ piece_ok upright_J_at_right_wall) /\
  legal_right upright_J_at_right_wall (board_with 9 2) = Ok false /\
  is_valid_position (move_right upright_J_at_right_wall) (board_with 9 2) 0 0
  = Ok false.
Proof.
  assert (Hwf : wf_board (board_with 9 2)) by apply board_with_wf.
  assert (Hp : piece_ok upright_J_at_right_wall)
    by (vm_compute; split; congruence).
  split; [split; assumption|].
  destruct (legal_moves_are_valid_moves (board_with 9 2)
              upright_J_at_right_wall Hwf Hp) as (_ & Hright & _).
  split; [reflexivity|]. rewrite <- Hright. reflexivity.
Defined.

Lemma piece_ok_set_orientation (p : Piece) (o : Z) :
  piece_ok (set_orientation p (o mod orientations (shape p))).
Proof.
  unfold piece_ok. cbn [orientation shape set_orientation].
  apply Z.mod_pos_bound, orientations_pos.
Qed.

Lemma back_and_forth (n o : Z) :
  0 < n -> 0 <= o < n ->
  ((o + 1) mod n - 1) mod n = o /\ ((o - 1) mod n + 1) mod n = o.
Proof.
  intros Hn Ho. split.
  - rewrite Zminus_mod_idemp_l. replace (o + 1 - 1) with o by lia.
    now apply Z.mod_small.
  - rewrite Zplus_mod_idemp_l. replace (o - 1 + 1) with o by lia.
    now apply Z.mod_small.
Qed.

Lemma rotate_clockwise_result (b : GameBoard) (p : Piece) (v : bool) :
  piece_ok p ->
  is_valid_position
    (set_orientation p ((orientation p + 1) mod orientations (shape p))) b 0 0
  = Ok v ->
  rotate_clockwise p b
  = Ok (if v
        then set_orientation p ((orientation p + 1) mod orientations (shape p))
        else p).
Proof.
  intros Hp Hv. unfold rotate_clockwise. cbv zeta. rewrite Hv. cbn [rbind].
  destruct v; cbn [negb]; [reflexivity|].
  rewrite set_orientation_twice.
  cbn [shape orientation set_orientation].
  rewrite (proj1 (back_and_forth _ _ (orientations_pos (shape p)) Hp)).
  now rewrite set_orientation_same.
Qed.

Lemma rotate_counterclockwise_result (b : GameBoard) (p : Piece) (v : bool) :
  piece_ok p ->
  is_valid_position
    (set_orientation p ((orientation p - 1) mod orientations (shape p))) b 0 0
  = Ok v ->
  rotate_counterclockwise p b
  = Ok (if v
        then set_orientation p ((orientation p - 1) mod orientations (shape p))
        else p).
Proof.
  intros Hp Hv. unfold rotate_counterclockwise. cbv zeta. rewrite Hv.
  cbn [rbind]. destruct v; cbn [negb]; [reflexivity|].
  rewrite set_orientation_twice.
  cbn [shape orientation set_orientation].
  rewrite (proj2 (back_and_forth _ _ (orientations_pos (shape p)) Hp)).
  now rewrite set_orientation_same.
Qed.

(** X6. [rotate_clockwise] never leaves a piece in an invalid position:
    for a piece in a valid position it returns the piece turned to the next
    orientation when that is a valid position, and the piece unchanged
    otherwise. *)
Theorem rotate_clockwise_safe (b : GameBoard) (p : Piece) :
  wf_board b -> piece_ok p ->
  is_valid_position p b 0 0 = Ok true ->
  exists v p',
    is_valid_position
      (set_orientation p ((orientation p + 1) mod orientations (shape p))) b 0 0
    = Ok v /\
    rotate_clockwise p b = Ok p' /\
    p' = (if v
          then set_orientation p ((orientation p + 1) mod orientations (shape p))
          else p) /\
    is_valid_position p' b 0 0 = Ok true /\ piece_ok p'.
Proof.
  intros Hwf Hp Hvalid.
  pose proof (piece_ok_set_orientation p (orientation p + 1)) as Hq.
  pose proof (is_valid_position_spec _ b Hwf Hq 0 0) as Hv.
  revert Hv. destruct (all_cells_ok _ b 0 0); intros Hv.
  - eexists. eexists. split; [exact Hv|].
    split; [exact (rotate_clockwise_result b p _ Hp Hv)|].
    split; [reflexivity|]. split; assumption.
  - eexists. eexists. split; [exact Hv|].
    split; [exact (rotate_clockwise_result b p _ Hp Hv)|].
    split; [reflexivity|]. split; assumption.
Qed.

Lemma rotate_clockwise_safe_witness :
  (wf_board (board_with 9 2) /\ piece_ok upright_J_at_right_wall /\
   is_valid_position upright_J_at_right_wall (board_with 9 2) 0 0 = Ok true) /\
  rotate_clockwise upright_J_at_right_wall (board_with 9 2)
  = Ok upright_J_at_right_wall.
Proof.
  assert (Hwf : wf_board (board_with 9 2)) by apply board_with_wf.
  assert (Hp : piece_ok upright_J_at_right_wall)
    by (vm_compute; split; congruence).
  assert (Hv : is_valid_position upright_J_at_right_wall (board_with 9 2) 0 0
               = Ok true) by reflexivity.
  split; [split; [exact Hwf | split; [exact Hp | exact Hv]]|].
  destruct (rotate_clockwise_safe (board_with 9 2) upright_J_at_right_wall
              Hwf Hp Hv) as (v & p' & Hq & Hrun & Hp' & _).
  rewrite Hrun, Hp'. f_equal.
  assert (Hfalse : v = false) by (vm_compute in Hq; congruence).
  now rewrite Hfalse.
Defined.

(** X7. [rotate_counterclockwise] never leaves a piece in an invalid
    position: for a piece in a valid position it returns the piece turned
    to the previous orientation when that is a valid position, and the
    piece unchanged otherwise. *)
Theorem rotate_counterclockwise_safe (b : GameBoard) (p : Piece) :
  wf_board b -> piece_ok p ->
  is_valid_position p b 0 0 = Ok true ->
  exists v p',
    is_valid_position
      (set_orientation p ((orientation p - 1) mod orientations (shape p))) b 0 0
    = Ok v /\
    rotate_counterclockwise p b = Ok p' /\
    p' = (if v
          then set_orientation p ((orientation p - 1) mod orientations (shape p))
          else p) /\
    is_valid_position p' b 0 0 = Ok true /\ piece_ok p'.
Proof.
  intros Hwf Hp Hvalid.
  pose proof (piece_ok_set_orientation p (orientation p - 1)) as Hq.
  pose proof (is_valid_position_spec _ b Hwf Hq 0 0) as Hv.
  revert Hv. destruct (all_cells_ok _ b 0 0); intros Hv.
  - eexists. eexists. split; [exact Hv|].
    split; [exact (rotate_counterclockwise_result b p _ Hp Hv)|].
    split; [reflexivity|]. split; assumption.
  - eexists. eexists. split; [exact Hv|].
    split; [exact (rotate_counterclockwise_result b p _ Hp Hv)|].
    split; [reflexivity|]. split; assumption.
Qed.

Lemma rotate_counterclockwise_safe_witness :
  (wf_board default_board /\ piece_ok upright_J /\
   is_valid_position upright_J default_board 0 0 = Ok true) /\
  rotate_counterclockwise upright_J default_board
  = Ok (set_orientation upright_J 0).
Proof.
  assert (Hwf : wf_board default_board) by apply default_board_wf.
  assert (Hp : piece_ok upright_J) by (vm_compute; split; congruence).
  assert (Hv : is_valid_position upright_J default_board 0 0 = Ok true)
    by reflexivity.
  split; [split; [exact Hwf | split; [exact Hp | exact Hv]]|].
  destruct (rotate_counterclockwise_safe default_board upright_J Hwf Hp Hv)
    as (v & p' & Hq & Hrun & Hp' & _).
  rewrite Hrun, Hp'. f_equal.
  assert (Htrue : v = true) by (vm_compute in Hq; congruence).
  now rewrite Htrue.
Defined.

(** X8. The two rotations undo each other: where the piece and the piece
    turned clockwise are both in a valid position, [rotate_clockwise]
    followed by [rotate_counterclockwise] gives the piece back, and so
    does the counterclockwise turn followed by the clockwise one. *)
Theorem rotations_undo_each_other (b : GameBoard) (p : Piece) :
  piece_ok p ->
  is_valid_position p b 0 0 = Ok true ->
  (is_valid_position
     (set_orientation p ((orientation p + 1) mod orientations (shape p))) b 0 0
   = Ok true ->
   exists q, rotate_clockwise p b = Ok q /\ rotate_counterclockwise q b = Ok p)
  /\
  (is_valid_position
     (set_orientation p ((orientation p - 1) mod orientations (shape p))) b 0 0
   = Ok true ->
   exists q, rotate_counterclockwise p b = Ok q /\ rotate_clockwise q b = Ok p).
Proof.
  intros Hp Hvalid. pose proof (orientations_pos (shape p)) as Hn.
  destruct (back_and_forth _ _ Hn Hp) as [Hcw Hccw].
  split; intros Hq.
  - eexists. split; [exact (rotate_clockwise_result b p true Hp Hq)|].
    cbv iota.
    rewrite (rotate_counterclockwise_result b _ true).
    + cbn [shape orientation set_orientation].
      rewrite set_orientation_twice, Hcw. now rewrite set_orientation_same.
    + apply piece_ok_set_orientation.
    + cbn [shape orientation set_orientation].
      rewrite set_orientation_twice, Hcw. now rewrite set_orientation_same.
  - eexists. split; [exact (rotate_counterclockwise_result b p true Hp Hq)|].
    cbv iota.
    rewrite (rotate_clockwise_result b _ true).
    + cbn [shape orientation set_orientation].
      rewrite set_orientation_twice, Hccw. now rewrite set_orientation_same.
    + apply piece_ok_set_orientation.
    + cbn [shape orientation set_orientation].
      rewrite set_orientation_twice, Hccw. now rewrite set_orientation_same.
Qed.

Lemma rotations_undo_each_other_witness :
  (piece_ok upright_J /\
   is_valid_position upright_J default_board 0 0 = Ok true) /\
  exists q, rotate_clockwise upright_J default_board = Ok q /\
            rotate_counterclockwise q default_board = Ok upright_J.
Proof.
  assert (Hp : piece_ok upright_J) by (vm_compute; split; congruence).
  assert (Hv : is_valid_position upright_J default_board 0 0 = Ok true)
    by reflexivity.
  split; [split; assumption|].
  apply (proj1 (rotations_undo_each_other default_board upright_J Hp Hv)).
  reflexivity.
Defined.

(** X9. Whatever the orientation index of the piece was, a rotation that
    returns gives a piece whose orientation indexes a template of its
    shape, at the same place, of the same shape and colour. *)
Theorem rotations_keep_place (b : GameBoard) (p p' : Piece) :
  rotate_clockwise p b = Ok p' \/ rotate_counterclockwise p b = Ok p' ->
  piece_ok p' /\ shape p' = shape p /\ x p' = x p /\ y p' = y p /\
  colour p' = colour p.
Proof.
  pose proof (orientations_pos (shape p)) as Hn.
  unfold rotate_clockwise, rotate_counterclockwise. cbv zeta.
  intros [Hrun | Hrun];
    (destruct (is_valid_position _ b 0 0) as [[|]| |]; cbn [rbind negb] in Hrun;
     try discriminate; injection Hrun as <-;
     unfold piece_ok; cbn [shape orientation x y colour set_orientation];
     (split; [apply Z.mod_pos_bound; exact Hn | repeat split])).
Qed.

Lemma rotations_keep_place_witness :
  rotate_clockwise (mkPiece T_ 3 5 (-1) 0) default_board
  = Ok (mkPiece T_ 3 5 0 0) /\
  piece_ok (mkPiece T_ 3 5 0 0).
Proof.
  assert (Hrun : rotate_clockwise (mkPiece T_ 3 5 (-1) 0) default_board
                 = Ok (mkPiece T_ 3 5 0 0)) by reflexivity.
  split; [exact Hrun|].
  exact (proj1 (rotations_keep_place default_board _ _ (or_introl Hrun))).
Defined.

Lemma drop_loop_path (b : GameBoard) (iters : list Z) :
  wf_board b ->
  forall p, piece_ok p -> is_valid_position p b 0 0 = Ok true ->
  exists k, 0 <= k <= Z.of_nat (length iters) /\
    drop_loop p b iters = Ok (set_y p (y p + k)) /\
    forall j, 0 <= j <= k ->
      is_valid_position (set_y p (y p + j)) b 0 0 = Ok true.
Proof.
  intros Hwf. induction iters as [|i iters IH]; intros p Hp Hvalid.
  - exists 0. rewrite set_y_same. simpl. split; [lia|]. split; [reflexivity|].
    intros j Hj. replace j with 0 by lia. now rewrite set_y_same.
  - cbn [drop_loop].
    pose proof (legal_down_move_down p b Hwf Hp) as Hmove.
    destruct (legal_down p b) as [[|]| |] eqn:Hlegal;
      try (unfold legal_down in Hlegal;
           rewrite is_valid_position_spec in Hlegal by assumption; discriminate).
    + cbn [rbind negb].
      destruct (IH (set_y p (y p + 1)) Hp (eq_sym Hmove))
        as (k & Hk & Hrun & Hpath).
      exists (k + 1). cbn [length]. simpl in Hrun, Hpath.
      replace (set_y p (y p + (k + 1)))
        with (set_y (set_y p (y p + 1)) (y p + 1 + k))
        by (unfold set_y; simpl; f_equal; lia).
      split; [lia|]. split; [exact Hrun|]. intros j Hj.
      destruct (Z.eq_dec j 0) as [->|Hne]; [now rewrite set_y_same|].
      replace (set_y p (y p + j))
        with (set_y (set_y p (y p + 1)) (y p + 1 + (j - 1)))
        by (unfold set_y; simpl; f_equal; lia).
      apply Hpath. lia.
    + exists 0. rewrite set_y_same. simpl. split; [lia|].
      split; [reflexivity|]. intros j Hj. replace j with 0 by lia.
      now rewrite set_y_same.
Qed.

(** X10. [move_to_bottom] never takes a piece through a box or below the
    board: it moves a piece in a valid position straight down by some
    number of rows, and the piece is in a valid position at every row on
    the way. *)
Theorem move_to_bottom_never_jumps (b : GameBoard) (p : Piece) :
  wf_board b -> piece_ok p ->
  is_valid_position p b 0 0 = Ok true ->
  exists k, 0 <= k /\
    move_to_bottom p b = Ok (set_y p (y p + k)) /\
    forall j, 0 <= j <= k ->
      is_valid_position (set_y p (y p + j)) b 0 0 = Ok true.
Proof.
  intros Hwf Hp Hvalid. unfold move_to_bottom.
  destruct (drop_loop_path b (Py.xrange2 1 (rows b)) Hwf p Hp Hvalid)
    as (k & Hk & Hrun & Hpath).
  exists k. split; [lia|]. split; assumption.
Qed.

Lemma move_to_bottom_never_jumps_witness :
  (wf_board (board_with 5 9) /\ piece_ok upright_J /\
   is_valid_position upright_J (board_with 5 9) 0 0 = Ok true) /\
  exists k, 0 <= k /\
    move_to_bottom upright_J (board_with 5 9)
    = Ok (set_y upright_J (y upright_J + k)).
Proof.
  assert (Hwf : wf_board (board_with 5 9)) by apply board_with_wf.
  assert (Hp : piece_ok upright_J) by (vm_compute; split; congruence).
  assert (Hv : is_valid_position upright_J (board_with 5 9) 0 0 = Ok true)
    by reflexivity.
  split; [split; [exact Hwf | split; [exact Hp | exact Hv]]|].
  destruct (move_to_bottom_never_jumps (board_with 5 9) upright_J Hwf Hp Hv)
    as (k & Hk & Hrun & _).
  exists k. split; assumption.
Defined.

(** ** What [add_to_board] leaves alone *)

Section AddToBoardFrame.
Variables (p : Piece) (b : GameBoard).
Hypothesis Hwf : wf_board b.
Hypothesis Hp : piece_ok p.
Hypothesis Hrange :
  forall tx ty, occupied p tx ty ->
    - columns b <= tx + x p < columns b /\ - rows b <= ty + y p < rows b.

Lemma same_outside_refl s : same_outside p b s s.
Proof. intros H. repeat split; auto; apply H. Qed.

Lemma same_outside_trans s1 s2 s3 :
  same_outside p b s1 s2 -> same_outside p b s2 s3 -> same_outside p b s1 s3.
Proof.
  intros H12 H23 H1. destruct (H12 H1) as (H2 & Hc2 & Hr2 & Hk2).
  destruct (H23 H2) as (H3 & Hc3 & Hr3 & Hk3).
  split; [exact H3|]. split; [congruence|]. split; [congruence|].
  intros cx cy Hout. rewrite Hk3, Hk2 by exact Hout. reflexivity.
Qed.

Lemma frame_column (tx : Z) (s : GameBoard) :
  0 <= tx < TEMPLATE_WIDTH ->
  wf_board s -> columns s = columns b -> rows s = rows b ->
  exists s',
    for_each (Py.xrange TEMPLATE_HEIGHT) (fun ty b =>
      let* nc := needs_colour p tx ty in
      if nc then state_set b (tx + x p) (ty + y p) (Colour (colour p))
      else Ok b) s = Ok s' /\
    same_outside p b s s'.
Proof.
  intros Hx Hs Hcs Hrs.
  destruct (for_each_chain (same_outside p b) (fun _ _ => True)
              (fun ty b0 =>
                 let* nc := needs_colour p tx ty in
                 if nc
                 then state_set b0 (tx + x p) (ty + y p) (Colour (colour p))
                 else Ok b0)
              same_outside_refl same_outside_trans (fun _ _ _ _ _ => I)
              (Py.xrange TEMPLATE_HEIGHT) s) as (s' & Hrun & HR & _).
  - intros ty s1 Hin HR. apply in_xrange in Hin.
    destruct (HR Hs) as (Hs1 & Hc1 & Hr1 & _).
    rewrite (needs_colour_total p tx ty Hp Hx Hin). cbn [rbind].
    destruct (occupiedb p tx ty) eqn:Hocc.
    + assert (Hoc : occupied p tx ty)
        by (split; [exact Hx | split; [exact Hin | exact Hocc]]).
      destruct (Hrange tx ty Hoc) as [Hcx Hcy].
      rewrite <- Hcs, <- Hc1 in Hcx. rewrite <- Hrs, <- Hr1 in Hcy.
      destruct (state_set_spec s1 (tx + x p) (ty + y p) (Colour (colour p))
                  Hs1 Hcx Hcy) as (s2 & Hset & Hs2 & Hc2 & Hr2 & _ & Hold).
      exists s2. split; [exact Hset|]. split; [|exact I].
      intros _. split; [exact Hs2|]. split; [exact Hc2|]. split; [exact Hr2|].
      intros cx cy Hout. apply Hold. intros Heq. apply Hout.
      exists tx, ty. split; [exact Hoc|].
      rewrite Hc1, Hcs, Hr1, Hrs in Heq. now injection Heq.
    + exists s1. split; [reflexivity|]. split; [apply same_outside_refl | exact I].
  - exists s'. split; assumption.
Qed.

Lemma add_to_board_frame :
  exists b', add_to_board p b = Ok b' /\ same_outside p b b b'.
Proof.
  unfold add_to_board.
  destruct (for_each_chain (same_outside p b) (fun _ _ => True)
              (fun tx b0 =>
                 for_each (Py.xrange TEMPLATE_HEIGHT) (fun ty b1 =>
                   let* nc := needs_colour p tx ty in
                   if nc
                   then state_set b1 (tx + x p) (ty + y p) (Colour (colour p))
                   else Ok b1) b0)
              same_outside_refl same_outside_trans (fun _ _ _ _ _ => I)
              (Py.xrange TEMPLATE_WIDTH) b) as (b' & Hrun & HR & _).
  - intros tx s Hin HR. apply in_xrange in Hin.
    destruct (HR Hwf) as (Hs & Hcs & Hrs & _).
    destruct (frame_column tx s Hin Hs Hcs Hrs) as (s' & Hrun & Hsame).
    exists s'. split; [exact Hrun|]. split; [exact Hsame | exact I].
  - exists b'. split; assumption.
Qed.

End AddToBoardFrame.

(** X11. [add_to_board] changes the cells of the piece and no other: when
    every occupied cell of the piece is on the board, the call returns a
    board of the same dimensions where those cells hold the colour of the
    piece and every other cell holds what it held. *)
Theorem add_to_board_colours_the_piece_only (b : GameBoard) (p : Piece) :
  wf_board b -> piece_ok p ->
  (forall tx ty, occupied p tx ty ->
     is_on_board b (tx + x p) (ty + y p) = true) ->
  exists b',
    add_to_board p b = Ok b' /\
    wf_board b' /\ columns b' = columns b /\ rows b' = rows b /\
    (forall tx ty, occupied p tx ty ->
       cell_at b' (tx + x p) (ty + y p) = Some (Colour (colour p))) /\
    (forall cx cy,
       (forall tx ty, occupied p tx ty -> (cx, cy) <> (tx + x p, ty + y p)) ->
       cell_at b' cx cy = cell_at b cx cy).
Proof.
  intros Hwf Hp Hon.
  assert (Hin : forall tx ty, occupied p tx ty ->
                  0 <= tx + x p < columns b /\ 0 <= ty + y p < rows b).
  { intros tx ty Hocc. specialize (Hon tx ty Hocc). unfold is_on_board in Hon.
    apply andb_prop in Hon as [Hon Hy2]. apply andb_prop in Hon as [Hon Hy1].
    apply andb_prop in Hon as [Hx1 Hx2].
    apply Z.leb_le in Hx1, Hy1. apply Z.ltb_lt in Hx2, Hy2. lia. }
  assert (Hrange : forall tx ty, occupied p tx ty ->
            - columns b <= tx + x p < columns b /\
            - rows b <= ty + y p < rows b).
  { intros tx ty Hocc. destruct (Hin tx ty Hocc). lia. }
  assert (Hwrap : forall n i, 0 <= i -> wrap n i = i).
  { intros n i Hi. unfold wrap. destruct (Z.ltb_spec i 0); [lia | reflexivity]. }
  destruct (add_to_board_spec p b Hwf Hp Hrange) as (b' & Hrun & _ & Hcells).
  destruct (add_to_board_frame p b Hwf Hp Hrange) as (b'' & Hrun' & Hsame).
  rewrite Hrun in Hrun'. injection Hrun' as <-.
  destruct (Hsame Hwf) as (Hwf' & Hc' & Hr' & Hkeep).
  exists b'. split; [exact Hrun|]. split; [exact Hwf'|].
  split; [exact Hc'|]. split; [exact Hr'|]. split.
  - intros tx ty Hocc. specialize (Hcells tx ty Hocc).
    destruct (Hin tx ty Hocc) as [Hx Hy].
    now rewrite !Hwrap in Hcells by lia.
  - intros cx cy Hout. apply Hkeep. intros (tx & ty & Hocc & -> & ->).
    destruct (Hin tx ty Hocc) as [Hx Hy].
    apply (Hout tx ty Hocc). now rewrite !Hwrap by lia.
Qed.

Lemma add_to_board_colours_the_piece_only_witness :
  (wf_board (board_with 5 9) /\ piece_ok (mkPiece T_ 3 5 0 0)) /\
  exists b',
    add_to_board (mkPiece T_ 3 5 0 0) (board_with 5 9) = Ok b' /\
    cell_at b' 5 6 = Some (Colour 0) /\
    cell_at b' 5 9 = Some (Colour 1) /\ cell_at b' 0 0 = Some Blank.
Proof.
  assert (Hwf : wf_board (board_with 5 9)) by apply board_with_wf.
  assert (Hp : piece_ok (mkPiece T_ 3 5 0 0)) by (vm_compute; split; congruence).
  split; [split; assumption|].
  destruct (add_to_board_colours_the_piece_only (board_with 5 9)
              (mkPiece T_ 3 5 0 0) Hwf Hp)
    as (b' & Hrun & _ & _ & _ & Hcells & Hkeep).
  - intros tx ty (Hx & Hy & Hocc).
    template_cases tx ty; vm_compute in Hocc; try discriminate; reflexivity.
  - exists b'. split; [exact Hrun|]. split.
    + apply (Hcells 2 1). vm_compute. repeat split; congruence.
    + split.
      * rewrite Hkeep; [reflexivity|]. intros tx ty (Hx & Hy & Hocc).
        template_cases tx ty; vm_compute in Hocc; try discriminate;
          vm_compute; congruence.
      * rewrite Hkeep; [reflexivity|]. intros tx ty (Hx & Hy & _).
        cbn [x y]. intros [= Hcx Hcy]. lia.
Defined.

(** ** New pieces *)

Lemma occupied_bounds (p : Piece) (tx ty : Z) :
  piece_ok p -> occupied p tx ty -> tx <= 3 /\ ty <= 3.
Proof.
  intros Hp (Hx & Hy & Hocc). destruct p as [s px py o c].
  unfold piece_ok in Hp. simpl in Hp.
  destruct s; unfold orientations in Hp; simpl in Hp;
    (assert (Ho : o = 0 \/ o = 1 \/ o = 2 \/ o = 3) by lia);
    repeat (destruct Ho as [-> | Ho]; try lia); try subst o; try lia;
    template_cases tx ty; vm_compute in Hocc; try discriminate; lia.
Qed.

Lemma blank_board_cell (b : GameBoard) (cx cy : Z) :
  wf_board b -> Forall (Forall (fun c => c = Blank)) (state b) ->
  is_on_board b cx cy = true -> blank_at b cx cy = true.
Proof.
  intros Hwf Hblank Hon.
  destruct (state_get_on_board b cx cy Hwf Hon) as (c & _ & Hc).
  unfold blank_at. rewrite Hc. unfold cell_at in Hc.
  destruct ((0 <=? cx) && (0 <=? cy)); [|discriminate].
  destruct (state b !! Z.to_nat cx) as [col|] eqn:Hcol; [|discriminate].
  rewrite Forall_lookup in Hblank. specialize (Hblank _ _ Hcol).
  rewrite Forall_lookup in Hblank. now rewrite (Hblank _ _ Hc).
Qed.

Lemma Piece_init_fits (b : GameBoard) (s : Shape) (o c : Z) :
  wf_board b -> Forall (Forall (fun c => c = Blank)) (state b) ->
  4 < columns b -> 4 < rows b ->
  0 <= o < orientations s ->
  is_valid_position (Piece_init b s o c) b 0 0 = Ok true /\
  legal_down (Piece_init b s o c) b = Ok true.
Proof.
  intros Hwf Hblank Hcols Hrows Ho.
  assert (Hp : piece_ok (Piece_init b s o c)) by exact Ho.
  pose proof (Z_div_mod_eq_full (columns b) 2) as Hdiv.
  pose proof (Z.mod_pos_bound (columns b) 2 ltac:(lia)) as Hmod.
  assert (Hgen : forall dy, 0 <= dy <= 1 ->
            is_valid_position (Piece_init b s o c) b 0 dy = Ok true).
  { intros dy Hdy. rewrite is_valid_position_spec by assumption. f_equal.
    apply all_cells_ok_true. intros tx ty Hx Hy. unfold cell_okb.
    destruct (Z.ltb_spec (ty + y (Piece_init b s o c) + dy) 0) as [|Hrow];
      [reflexivity|].
    destruct (occupiedb (Piece_init b s o c) tx ty) eqn:Hocc; [|reflexivity].
    cbn [negb orb].
    destruct (occupied_bounds _ tx ty Hp) as [Hx3 Hy3];
      [split; [exact Hx | split; [exact Hy | exact Hocc]]|].
    assert (Hon : is_on_board b (tx + x (Piece_init b s o c) + 0)
                    (ty + y (Piece_init b s o c) + dy) = true).
    { unfold is_on_board.
      cbn [x y Piece_init] in *. unfold NEW_PIECES_START_Y in *.
      change (TEMPLATE_WIDTH / 2) with 2. unfold TEMPLATE_WIDTH in Hx.
      destruct (Z.leb_spec 0 (tx + (columns b / 2 - 2) + 0)); [|lia].
      destruct (Z.ltb_spec (tx + (columns b / 2 - 2) + 0) (columns b)); [|lia].
      destruct (Z.leb_spec 0 (ty + -2 + dy)); [|lia].
      destruct (Z.ltb_spec (ty + -2 + dy) (rows b)); [|lia]. reflexivity. }
    rewrite Hon. now rewrite blank_board_cell. }
  split; [apply Hgen; lia | apply Hgen; lia].
Qed.

(** X12. On a blank board of more than 4 columns and more than 4 rows (the
    sizes [distractor] accepts), a piece as [Piece(b)] makes it is in a
    valid position, whatever its shape and orientation, and can move
    down. *)
Theorem new_piece_fits_blank_board (b : GameBoard) (s : Shape) (o c : Z) :
  wf_board b -> Forall (Forall (fun c => c = Blank)) (state b) ->
  4 < columns b -> 4 < rows b ->
  0 <= o < orientations s ->
  is_valid_position (Piece_init b s o c) b 0 0 = Ok true /\
  legal_down (Piece_init b s o c) b = Ok true.
Proof. apply Piece_init_fits. Qed.

Lemma new_piece_fits_blank_board_witness :
  (wf_board default_board /\ 4 < columns default_board /\
   4 < rows default_board /\ 0 <= 1 < orientations I_) /\
  is_valid_position (Piece_init default_board I_ 1 3) default_board 0 0
  = Ok true.
Proof.
  assert (Hwf : wf_board default_board) by apply default_board_wf.
  assert (Hc : 4 < columns default_board) by reflexivity.
  assert (Hr : 4 < rows default_board) by reflexivity.
  assert (Ho : 0 <= 1 < orientations I_) by (vm_compute; split; congruence).
  split; [split; [exact Hwf | split; [exact Hc | split; [exact Hr | exact Ho]]]|].
  refine (proj1 (new_piece_fits_blank_board default_board I_ 1 3
                   Hwf _ Hc Hr Ho)).
  repeat constructor.
Defined.

(** X13. Every orientation of every shape is made of four boxes, all of
    them in the first four columns and the first four rows of the
    template. *)
Theorem pieces_have_four_boxes (p : Piece) :
  piece_ok p ->
  length (boxes p) = 4%nat /\
  forall tx ty, In (tx, ty) (boxes p) -> 0 <= tx <= 3 /\ 0 <= ty <= 3.
Proof.
  intros Hp. destruct p as [s px py o c]. unfold piece_ok in Hp. simpl in Hp.
  destruct s; unfold orientations in Hp; simpl in Hp;
    (assert (Ho : o = 0 \/ o = 1 \/ o = 2 \/ o = 3) by lia);
    repeat (destruct Ho as [-> | Ho]; try lia); try subst o; try lia;
    (split; [reflexivity|]);
    intros tx ty Hin; vm_compute in Hin;
    repeat (destruct Hin as [[= <- <-] | Hin]; [lia|]); destruct Hin.
Qed.

Lemma pieces_have_four_boxes_witness :
  piece_ok upright_J /\ length (boxes upright_J) = 4%nat.
Proof.
  assert (Hp : piece_ok upright_J) by (vm_compute; split; congruence).
  split; [exact Hp|].
  exact (proj1 (pieces_have_four_boxes upright_J Hp)).
Defined.

(** * Properties of the layout helpers and of the levels *)

Lemma midpoint_parts (p1 p2 : Z) :
  let smaller := if p1 <=? p2 then p1 else p2 in
  let larger := if p1 <=? p2 then p2 else p1 in
  smaller <= larger /\ smaller + larger = p1 + p2 /\
  (smaller = p1 /\ larger = p2 \/ smaller = p2 /\ larger = p1).
Proof. cbv zeta. destruct (Z.leb_spec p1 p2); lia. Qed.

(** X14. [midpoint] is the middle of its two arguments, in either order:
    rounded down it is the floor of their mean, rounded up the ceiling, and
    it lies between the two. *)
Theorem midpoint_is_the_mean (p1 p2 : Z) (round : string) :
  midpoint p1 p2 "down" = Returns ((p1 + p2) / 2) /\
  midpoint p1 p2 "up" = Returns ((p1 + p2 + 1) / 2) /\
  midpoint p1 p2 round = midpoint p2 p1 round /\
  (forall m, midpoint p1 p2 round = Returns m ->
             Z.min p1 p2 <= m <= Z.max p1 p2).
Proof.
  unfold midpoint. cbv zeta.
  pose proof (midpoint_parts p1 p2) as Hparts. cbv zeta in Hparts.
  pose proof (midpoint_parts p2 p1) as Hparts'. cbv zeta in Hparts'.
  set (s := if p1 <=? p2 then p1 else p2) in *.
  set (l := if p1 <=? p2 then p2 else p1) in *.
  set (s' := if p2 <=? p1 then p2 else p1) in *.
  set (l' := if p2 <=? p1 then p1 else p2) in *.
  assert (Hs : s' = s) by lia. assert (Hl : l' = l) by lia.
  rewrite Hs, Hl. clearbody s l s' l'.
  pose proof (Z_div_mod_eq_full (l - s) 2) as Hd.
  pose proof (Z.mod_pos_bound (l - s) 2 ltac:(lia)) as Hm.
  pose proof (Z_div_mod_eq_full (p1 + p2) 2) as Hd1.
  pose proof (Z.mod_pos_bound (p1 + p2) 2 ltac:(lia)) as Hm1.
  pose proof (Z_div_mod_eq_full (p1 + p2 + 1) 2) as Hd2.
  pose proof (Z.mod_pos_bound (p1 + p2 + 1) 2 ltac:(lia)) as Hm2.
  split; [|split; [|split; [reflexivity|]]].
  - destruct (Z.eqb_spec ((l - s) mod 2) 0); cbn [String.eqb]; f_equal; lia.
  - destruct (Z.eqb_spec ((l - s) mod 2) 0); [f_equal; lia|].
    change (String.eqb "up" "down") with false.
    change (String.eqb "up" "up") with true. cbv iota. f_equal. lia.
  - intros m.
    destruct (Z.eqb_spec ((l - s) mod 2) 0); [intros [= <-]; lia|].
    destruct (String.eqb round "down"); [intros [= <-]; lia|].
    destruct (String.eqb round "up"); [intros [= <-]; lia | discriminate].
Qed.

(** X15. [midpoint] raises [ValueError] exactly when its two arguments
    are an odd number apart and [round] is neither "down" nor "up": with
    an even difference a wrong [round] goes unnoticed. *)
Theorem midpoint_error (p1 p2 : Z) (round : string) :
  midpoint p1 p2 round = ValueError <->
  (p2 - p1) mod 2 = 1 /\ round <> "down"%string /\ round <> "up"%string.
Proof.
  unfold midpoint. cbv zeta.
  pose proof (midpoint_parts p1 p2) as Hparts. cbv zeta in Hparts.
  set (s := if p1 <=? p2 then p1 else p2) in *.
  set (l := if p1 <=? p2 then p2 else p1) in *. clearbody s l.
  assert (Hpar : (l - s) mod 2 = (p2 - p1) mod 2).
  { destruct Hparts as (_ & _ & [[-> ->] | [-> ->]]); [reflexivity|].
    replace (p1 - p2) with (p2 - p1 + (p1 - p2) * 2) by lia.
    now rewrite Z_mod_plus_full. }
  rewrite Hpar.
  pose proof (Z.mod_pos_bound (p2 - p1) 2 ltac:(lia)) as Hm.
  destruct (Z.eqb_spec ((p2 - p1) mod 2) 0) as [Heven|Hodd].
  - split; [discriminate | lia].
  - destruct (String.eqb_spec round "down") as [->|Hdown].
    + split; [discriminate | intros (_ & H & _); congruence].
    + destruct (String.eqb_spec round "up") as [->|Hup].
      * split; [discriminate | intros (_ & _ & H); congruence].
      * split; [intros _; repeat split; (lia || assumption) | reflexivity].
Qed.

(** X16. [get_board_boundaries] centres the board on the screen, the
    right margin being the left one or one pixel more, and puts its bottom
    edge [pixels_at_bottom] pixels above the bottom of the screen. *)
Theorem get_board_boundaries_centres
    (screen_width screen_height cell_size pixels_at_bottom columns rows : Z) :
  let xy := get_board_boundaries screen_width screen_height cell_size
                                 pixels_at_bottom columns rows in
  let right_margin := screen_width - (fst xy + columns * cell_size) in
  fst xy <= right_margin <= fst xy + 1 /\
  snd xy + rows * cell_size + pixels_at_bottom = screen_height.
Proof.
  cbv zeta. unfold get_board_boundaries. cbn [fst snd].
  pose proof (Z_div_mod_eq_full (screen_width - columns * cell_size) 2) as Hd.
  pose proof (Z.mod_pos_bound (screen_width - columns * cell_size) 2
                ltac:(lia)) as Hm.
  lia.
Qed.

Lemma shrink_cell_spec (fits : Z -> bool) (min_cell_size : Z) (fuel : nat) :
  forall cell_size,
    (Z.to_nat (cell_size - min_cell_size + 1) < fuel)%nat ->
    match shrink_cell fuel fits min_cell_size cell_size with
    | Returns c =>
        min_cell_size <= c <= cell_size /\ fits c = true /\
        forall c', c < c' <= cell_size -> fits c' = false
    | ValueError =>
        forall c', min_cell_size <= c' <= cell_size -> fits c' = false
    | ZeroDivisionError | NoFuel => False
    end.
Proof.
  induction fuel as [|fuel IH]; intros cell_size Hfuel; [lia|].
  cbn [shrink_cell].
  destruct (Z.leb_spec min_cell_size cell_size) as [Hmin|Hmin].
  - destruct (fits cell_size) eqn:Hfits.
    + split; [lia|]. split; [exact Hfits|]. intros c' Hc'. lia.
    + specialize (IH (cell_size - 1) ltac:(lia)).
      destruct (shrink_cell fuel fits min_cell_size (cell_size - 1)) as [c| | |];
        try contradiction.
      * destruct IH as (Hc & Hfc & Hmax). split; [lia|]. split; [exact Hfc|].
        intros c' Hc'. destruct (Z.eq_dec c' cell_size) as [->|Hne];
          [exact Hfits | apply Hmax; lia].
      * intros c' Hc'. destruct (Z.eq_dec c' cell_size) as [->|Hne];
          [exact Hfits | apply IH; lia].
  - intros c' Hc'. lia.
Qed.

(** X17. The cell size [fit_board_to_screen] settles on is the largest one
    for which the board fits the room left on the screen: it is at least
    [min_cell_size], the board of that cell size fits, and no larger cell
    size fits; [ValueError] is raised exactly when no cell size from
    [min_cell_size] up fits. *)
Theorem fit_cell_size_is_largest
    (fuel : nat) (max_width max_height min_cell_size columns rows : Z) :
  0 < columns -> 0 <= rows ->
  (Z.to_nat (Z.max (max_width / columns) (max_height / (rows + 2))
             - min_cell_size + 1) < fuel)%nat ->
  match fit_cell_size fuel max_width max_height min_cell_size columns rows with
  | Returns c =>
      min_cell_size <= c /\
      board_fits max_width max_height columns rows c /\
      forall c', board_fits max_width max_height columns rows c' -> c' <= c
  | ValueError =>
      forall c', min_cell_size <= c' ->
                 ~ board_fits max_width max_height columns rows c'
  | ZeroDivisionError | NoFuel => False
  end.
Proof.
  intros Hcols Hrows Hfuel. unfold fit_cell_size, floordiv, board_fits.
  pose proof (Z_div_mod_eq_full max_width columns) as Hdw.
  pose proof (Z.mod_pos_bound max_width columns Hcols) as Hmw.
  pose proof (Z_div_mod_eq_full max_height (rows + 2)) as Hdh.
  pose proof (Z.mod_pos_bound max_height (rows + 2) ltac:(lia)) as Hmh.
  destruct (Z.leb_spec max_height max_width) as [Hland|Hport].
  - destruct (Z.eqb_spec columns 0) as [|_]; [lia|].
    pose proof (shrink_cell_spec
                  (fun cell_size => (2 + rows) * cell_size <=? max_height)
                  min_cell_size fuel (max_width / columns) ltac:(lia)) as Hspec.
    destruct (shrink_cell fuel _ min_cell_size (max_width / columns))
      as [c| | |]; try contradiction.
    + destruct Hspec as (Hc & Hfc & Hmax). apply Z.leb_le in Hfc.
      split; [lia|]. split; [split; nia|].
      intros c' [Hw Hh]. destruct (Z_le_gt_dec c' c) as [|Hgt]; [assumption|].
      assert (Hc' : c' <= max_width / columns) by nia.
      specialize (Hmax c' ltac:(lia)). apply Z.leb_gt in Hmax. lia.
    + intros c' Hc' [Hw Hh].
      assert (Hle : c' <= max_width / columns) by nia.
      specialize (Hspec c' ltac:(lia)). apply Z.leb_gt in Hspec. lia.
  - destruct (Z.eqb_spec (rows + 2) 0) as [|_]; [lia|].
    pose proof (shrink_cell_spec
                  (fun cell_size => columns * cell_size <=? max_width)
                  min_cell_size fuel (max_height / (rows + 2)) ltac:(lia))
      as Hspec.
    destruct (shrink_cell fuel _ min_cell_size (max_height / (rows + 2)))
      as [c| | |]; try contradiction.
    + destruct Hspec as (Hc & Hfc & Hmax). apply Z.leb_le in Hfc.
      split; [lia|]. split; [split; nia|].
      intros c' [Hw Hh]. destruct (Z_le_gt_dec c' c) as [|Hgt]; [assumption|].
      assert (Hc' : c' <= max_height / (rows + 2)) by nia.
      specialize (Hmax c' ltac:(lia)). apply Z.leb_gt in Hmax. lia.
    + intros c' Hc' [Hw Hh].
      assert (Hle : c' <= max_height / (rows + 2)) by nia.
      specialize (Hspec c' ltac:(lia)). apply Z.leb_gt in Hspec. lia.
Qed.

Lemma fit_cell_size_is_largest_witness :
  (0 < 10 /\ 0 <= 20) /\
  fit_cell_size 200 1824 1026 1 10 20 = Returns 46 /\
  board_fits 1824 1026 10 20 46 /\
  forall c', board_fits 1824 1026 10 20 c' -> c' <= 46.
Proof.
  split; [lia|].
  pose proof (fit_cell_size_is_largest 200 1824 1026 1 10 20
                ltac:(lia) ltac:(lia) ltac:(vm_compute; lia)) as Hspec.
  change (fit_cell_size 200 1824 1026 1 10 20) with (Returns 46) in Hspec.
  split; [reflexivity|]. exact (proj2 Hspec).
Defined.

(** X18. The level starts at 1 and goes up by one with every
    [LINES_PER_LEVEL] lines: [calculate_level] is at least 1 for a
    non-negative score, never decreases with the score, and is one more
    ten lines later. *)
Theorem calculate_level_steps (score score' : Z) :
  (0 <= score -> 1 <= calculate_level score) /\
  (score <= score' -> calculate_level score <= calculate_level score') /\
  calculate_level (score + LINES_PER_LEVEL) = calculate_level score + 1.
Proof.
  unfold calculate_level, LINES_PER_LEVEL. split; [|split].
  - intros H. pose proof (Z.div_pos score 10 H ltac:(lia)). lia.
  - intros H. pose proof (Z.div_le_mono score score' 10 ltac:(lia) H). lia.
  - replace (score + 10) with (score + 1 * 10) by lia.
    rewrite Z.div_add by lia. lia.
Qed.


Lemma midpoint_is_the_mean_witness :
  midpoint 3 8 "up" = Returns 6 /\ Z.min 3 8 <= 6 <= Z.max 3 8.
Proof.
  assert (Hrun : midpoint 3 8 "up" = Returns 6) by reflexivity.
  split; [exact Hrun|].
  exact (proj2 (proj2 (proj2 (midpoint_is_the_mean 3 8 "up"))) 6 Hrun).
Defined.

Lemma midpoint_error_witness :
  ((8 - 3) mod 2 = 1 /\ "middle"%string <> "down"%string /\
   "middle"%string <> "up"%string) /\
  midpoint 3 8 "middle" = ValueError /\ midpoint 3 9 "middle" = Returns 6.
Proof.
  assert (Hodd : (8 - 3) mod 2 = 1 /\ "middle"%string <> "down"%string /\
                 "middle"%string <> "up"%string)
    by (repeat split; discriminate).
  split; [exact Hodd|]. split; [|reflexivity].
  exact (proj2 (midpoint_error 3 8 "middle") Hodd).
Defined.

Lemma calculate_level_steps_witness :
  9 <= 10 /\ calculate_level 9 <= calculate_level 10 /\
  calculate_level (9 + LINES_PER_LEVEL) = calculate_level 9 + 1.
Proof.
  assert (Hle : 9 <= 10) by lia.
  split; [exact Hle|].
  destruct (calculate_level_steps 9 10) as (_ & Hmono & Hstep).
  split; [exact (Hmono Hle) | exact Hstep].
Defined.


(** * The exceptions of the engine *)

Lemma rsat_bind {A B} (P : A -> Prop) (Q : B -> Prop) (E : exn -> Prop)
    (m : result A) (k : A -> result B) :
  rsat P E m -> (forall a, P a -> rsat Q E (k a)) -> rsat Q E (rbind m k).
Proof. destruct m; simpl; auto. Qed.

Lemma rsat_weaken {A} (P Q : A -> Prop) (E E' : exn -> Prop) (r : result A) :
  (forall a, P a -> Q a) -> (forall e, E e -> E' e) -> rsat P E r -> rsat Q E' r.
Proof. destruct r; simpl; auto. Qed.

Lemma getitem_raises {A} (l : list A) (i : Z) :
  rsat anything index_error (Py.getitem l i).
Proof.
  unfold Py.getitem. destruct (Py.norm (length l) i) as [k|]; [|reflexivity].
  destruct (l !! k); simpl; reflexivity.
Qed.

Lemma setitem_raises {A} (l : list A) (i : Z) (v : A) :
  rsat anything index_error (Py.setitem l i v).
Proof.
  unfold Py.setitem. destruct (Py.norm (length l) i); simpl; reflexivity.
Qed.

Lemma for_each_raises {A S} (xs : list A) (body : A -> S -> result S) :
  (forall a s, rsat anything index_error (body a s)) ->
  forall s, rsat anything index_error (for_each xs body s).
Proof.
  intros Hbody. induction xs as [|a xs IH]; intros s; cbn [for_each].
  - exact I.
  - eapply rsat_bind; [apply Hbody | intros; apply IH].
Qed.

Ltac raises_step :=
  first [ exact I
        | reflexivity
        | apply getitem_raises
        | apply setitem_raises
        | eapply rsat_bind; [|intros ? _] ].

Lemma state_get_raises (b : GameBoard) (cx cy : Z) :
  rsat anything index_error (state_get b cx cy).
Proof. unfold state_get. repeat raises_step. Qed.

Lemma state_set_raises (b : GameBoard) (cx cy : Z) (v : cell) :
  rsat anything index_error (state_set b cx cy v).
Proof. unfold state_set. repeat raises_step. Qed.

Lemma needs_colour_raises (p : Piece) (tx ty : Z) :
  rsat anything index_error (needs_colour p tx ty).
Proof. unfold needs_colour, template_cell. repeat raises_step. Qed.

Lemma valid_column_raises (p : Piece) (b : GameBoard) (dx dy tx : Z)
    (tys : list Z) :
  forall valid, rsat anything index_error (valid_column p b dx dy tx tys valid).
Proof.
  induction tys as [|ty tys IH]; intros valid; cbn [valid_column].
  - exact I.
  - eapply rsat_bind with (P := anything).
    + destruct (ty + y p + dy <? 0); [exact I|].
      eapply rsat_bind; [apply needs_colour_raises | intros; exact I].
    + intros skip _. destruct skip; [apply IH|].
      destruct (negb (is_on_board b (tx + x p + dx) (ty + y p + dy)));
        [exact I|].
      eapply rsat_bind; [apply state_get_raises|].
      intros c _. destruct (negb (is_blank c)); [exact I | apply IH].
Qed.

Lemma is_valid_position_raises (p : Piece) (b : GameBoard) (dx dy : Z) :
  rsat anything index_error (is_valid_position p b dx dy).
Proof.
  unfold is_valid_position. apply for_each_raises.
  intros tx valid. apply valid_column_raises.
Qed.

Lemma drop_loop_raises (b : GameBoard) (iters : list Z) :
  forall p, rsat anything index_error (drop_loop p b iters).
Proof.
  induction iters as [|i iters IH]; intros p; cbn [drop_loop].
  - exact I.
  - eapply rsat_bind; [apply is_valid_position_raises|].
    intros legal _. destruct (negb legal); [exact I | apply IH].
Qed.

Lemma rotate_clockwise_raises (p : Piece) (b : GameBoard) :
  rsat anything index_error (rotate_clockwise p b).
Proof.
  unfold rotate_clockwise. cbv zeta.
  eapply rsat_bind; [apply is_valid_position_raises|].
  intros valid _. destruct (negb valid); exact I.
Qed.

Lemma rotate_counterclockwise_raises (p : Piece) (b : GameBoard) :
  rsat anything index_error (rotate_counterclockwise p b).
Proof.
  unfold rotate_counterclockwise. cbv zeta.
  eapply rsat_bind; [apply is_valid_position_raises|].
  intros valid _. destruct (negb valid); exact I.
Qed.

Lemma add_to_board_raises (p : Piece) (b : GameBoard) :
  rsat anything index_error (add_to_board p b).
Proof.
  unfold add_to_board. apply for_each_raises. intros tx b0.
  apply for_each_raises. intros ty b1.
  eapply rsat_bind; [apply needs_colour_raises|].
  intros nc _. destruct nc; [apply state_set_raises | exact I].
Qed.

Lemma is_complete_line_raises (b : GameBoard) (y : Z) :
  rsat anything index_error (is_complete_line b y).
Proof.
  unfold is_complete_line.
  induction (Py.xrange (columns b)) as [|cx xs IH];
    cbn [is_complete_line_from]; [exact I|].
  eapply rsat_bind; [apply state_get_raises|].
  intros c _. destruct (is_blank c); [exact I | exact IH].
Qed.

Lemma pull_down_raises (b : GameBoard) (y : Z) :
  rsat anything index_error (pull_down b y).
Proof.
  unfold pull_down. eapply rsat_bind with (P := anything).
  - apply for_each_raises. intros pd b0. apply for_each_raises. intros cx b1.
    eapply rsat_bind; [apply state_get_raises|].
    intros v _. apply state_set_raises.
  - intros b1 _. apply for_each_raises. intros cx b2. apply state_set_raises.
Qed.

(** The loop of [remove_complete_lines] only ever adds to its count. *)
Lemma remove_loop_raises (fuel : nat) :
  forall (b : GameBoard) (y lines : Z),
    rsat (fun r => lines <= fst r) index_error (remove_loop fuel b y lines).
Proof.
  induction fuel as [|fuel IH]; intros b y lines; cbn [remove_loop];
    [exact I|].
  destruct (0 <=? y); [|simpl; lia].
  eapply rsat_bind; [apply is_complete_line_raises|].
  intros complete _. destruct complete.
  - eapply rsat_bind; [apply pull_down_raises|].
    intros b' _. eapply rsat_weaken; [| |apply IH]; cbv beta; [intros; lia|auto].
  - apply IH.
Qed.

(** X20. The methods of [Piece] and [GameBoard] raise nothing but
    [IndexError], whatever the board and the piece are; and the count
    [remove_complete_lines] returns is never negative. *)
Theorem engine_raises_only_IndexError (p : Piece) (b : GameBoard)
    (dx dy y : Z) (fuel : nat) :
  rsat anything index_error (is_valid_position p b dx dy) /\
  rsat anything index_error (move_to_bottom p b) /\
  rsat anything index_error (rotate_clockwise p b) /\
  rsat anything index_error (rotate_counterclockwise p b) /\
  rsat anything index_error (add_to_board p b) /\
  rsat anything index_error (is_complete_line b y) /\
  rsat (fun r => 0 <= fst r) index_error (remove_complete_lines fuel b).
Proof.
  split; [apply is_valid_position_raises|].
  split; [apply drop_loop_raises|].
  split; [apply rotate_clockwise_raises|].
  split; [apply rotate_counterclockwise_raises|].
  split; [apply add_to_board_raises|].
  split; [apply is_complete_line_raises | apply remove_loop_raises].
Qed.

(** * The session: what it raises and what it counts *)

Lemma sat_ret {A} (Q : A -> Prop) (E : exn -> Prop) (a : A) :
  Q a -> sat Q E (ret a).
Proof. intros H w. exact H. Qed.

Lemma sat_bind {A B} (P : A -> Prop) (Q : B -> Prop) (E : exn -> Prop)
    (m : M A) (k : A -> M B) :
  sat P E m -> (forall a, P a -> sat Q E (k a)) -> sat Q E (bind m k).
Proof.
  intros Hm Hk w. unfold bind. specialize (Hm w).
  destruct (m w) as [[a w']| |]; simpl in *; auto. now apply Hk.
Qed.

Lemma sat_weaken {A} (P Q : A -> Prop) (E : exn -> Prop) (m : M A) :
  (forall a, P a -> Q a) -> sat P E m -> sat Q E m.
Proof.
  intros HPQ Hm w. specialize (Hm w). destruct (m w); simpl in *; auto.
Qed.

Lemma sat_bind_ret {A B} (Q : B -> Prop) (E : exn -> Prop) (a : A)
    (k : A -> M B) :
  sat Q E (k a) -> sat Q E (bind (ret a) k).
Proof. intros H w. exact (H w). Qed.

Lemma sat_bind_assoc {A B C} (Q : C -> Prop) (E : exn -> Prop) (m : M A)
    (k1 : A -> M B) (k2 : B -> M C) :
  sat Q E (bind m (fun a => bind (k1 a) k2)) -> sat Q E (bind (bind m k1) k2).
Proof.
  intros H w. specialize (H w). unfold bind in *.
  destruct (m w) as [[a w']| |]; simpl in *; auto.
Qed.

Lemma sat_lift {A} (Q : A -> Prop) (E : exn -> Prop) (r : result A) :
  (forall e, r = Raise e -> E e) -> (forall a, r = Ok a -> Q a) ->
  sat Q E (lift r).
Proof. intros He Ha w. unfold lift. destruct r; simpl; auto. Qed.

Lemma sat_bind_lift {A B} (Q : B -> Prop) (E : exn -> Prop) (r : result A)
    (k : A -> M B) :
  (forall e, r = Raise e -> E e) -> (forall a, r = Ok a -> sat Q E (k a)) ->
  sat Q E (bind (lift r) k).
Proof.
  intros He Ha w. unfold bind, lift. destruct r; simpl; auto.
  now apply Ha.
Qed.

Lemma sat_terminate {A} (Q : A -> Prop) (E : exn -> Prop) :
  E SystemExit -> sat Q E (@terminate A).
Proof. intros H w. exact H. Qed.

Lemma sat_bind_time {B} (P : B -> Prop) (E : exn -> Prop) (k : Q -> M B) :
  (forall t, sat P E (k t)) -> sat P E (bind time_time k).
Proof. intros H w. apply H. Qed.

Lemma sat_bind_event_get {B} (Q : B -> Prop) (E : exn -> Prop)
    (k : list Event -> M B) :
  (forall evs, sat Q E (k evs)) -> sat Q E (bind event_get k).
Proof. intros H w. apply H. Qed.

Lemma sat_bind_new_piece {B} (Q : B -> Prop) (E : exn -> Prop) (b : GameBoard)
    (k : Piece -> M B) :
  (forall p, fresh_piece b p -> sat Q E (k p)) -> sat Q E (bind (new_piece b) k).
Proof.
  intros H w. unfold bind. destruct (new_piece_fresh b w) as (p & -> & Hp).
  simpl. now apply H.
Qed.

Lemma raise_index {A} (P : A -> Prop) (r : result A) (e : exn) :
  rsat P index_error r -> r = Raise e -> index_error_or_exit e.
Proof. intros H ->. left. exact H. Qed.

Ltac session_cbv :=
  cbv beta iota zeta delta
      [set_game_board set_falling_piece set_next_piece set_moving_down
       set_moving_left set_moving_right set_last_move_down_time
       set_last_move_sideways_time set_last_fall_time set_lines set_losses
       game_board falling_piece next_piece moving_down moving_left moving_right
       last_move_down_time last_move_sideways_time last_fall_time lines losses
       the_falling_piece].

(** The exception of a method of the piece or of the board. *)
Ltac index_only H :=
  refine (raise_index _ _ _ _ H);
  first [ apply is_valid_position_raises
        | apply drop_loop_raises
        | apply rotate_clockwise_raises
        | apply rotate_counterclockwise_raises
        | apply add_to_board_raises
        | apply remove_loop_raises ].

(** One step through the code of the session. *)
Ltac sat_step raise_tac :=
  lazymatch goal with
  | |- sat _ _ (ret _) => apply sat_ret
  | |- sat _ _ terminate => apply sat_terminate
  | |- sat _ _ (bind (ret _) _) => apply sat_bind_ret
  | |- sat _ _ (bind (bind _ _) _) => apply sat_bind_assoc
  | |- sat _ _ (bind time_time _) => apply sat_bind_time; intros ?t
  | |- sat _ _ (bind event_get _) => apply sat_bind_event_get; intros ?evs
  | |- sat _ _ (bind (new_piece _) _) =>
      apply sat_bind_new_piece; intros ?p ?Hfresh
  | |- sat _ _ (bind (lift _) _) =>
      apply sat_bind_lift;
      [ let e := fresh "e" in let H := fresh "Hraise" in
        intros e H; raise_tac H
      | intros ?a ?Hrun ]
  | |- sat _ _ (bind (if ?c then _ else _) _) => destruct c eqn:?
  | |- sat _ _ (if negb ?c then _ else _) => destruct c; cbn [negb]
  | |- sat _ _ (if ?c then _ else _) => destruct c eqn:?
  end; cbv beta.

Ltac counters :=
  unfold falling, same_counters, counters_grow; session_cbv;
  repeat split; try lia; try discriminate.

Lemma spawn_counts (st : Session) :
  sat (fun st' => falling st' /\ lines st' = lines st /\
                  losses st <= losses st' <= losses st + 1)
      index_error_or_exit (spawn st).
Proof.
  destruct st as [gb [p|] np md ml mr t1 t2 t3 ln ls]; unfold spawn;
    session_cbv; repeat sat_step index_only; counters.
Qed.

Lemma handle_event_counts (cfg : Config) (ev : Event) (st : Session) :
  falling st ->
  sat (fun st' => falling st' /\ same_counters st st')
      index_error_or_exit (handle_event cfg ev st).
Proof.
  destruct st as [gb [p|] np md ml mr t1 t2 t3 ln ls]; intros Hf;
    [|now elim Hf].
  unfold handle_event; destruct ev; session_cbv;
    repeat sat_step index_only; first [now right | counters].
Qed.

Lemma handle_events_counts (cfg : Config) (evs : list Event) :
  forall st, falling st ->
  sat (fun st' => falling st' /\ same_counters st st')
      index_error_or_exit (handle_events cfg evs st).
Proof.
  induction evs as [|ev evs IH]; intros st Hf; cbn [handle_events].
  - apply sat_ret. now split.
  - eapply sat_bind; [now apply handle_event_counts|].
    intros st1 (Hf1 & Hl1 & Hs1). eapply sat_weaken; [|now apply IH].
    intros st2 (Hf2 & Hl2 & Hs2). split; [exact Hf2|].
    split; congruence.
Qed.

Lemma repeat_sideways_counts (st : Session) :
  falling st ->
  sat (fun st' => falling st' /\ same_counters st st')
      index_error_or_exit (repeat_sideways st).
Proof.
  destruct st as [gb [p|] np md ml mr t1 t2 t3 ln ls]; intros Hf;
    [|now elim Hf].
  unfold repeat_sideways; session_cbv;
    repeat (sat_step index_only; session_cbv); counters.
Qed.

Lemma repeat_down_counts (st : Session) :
  falling st ->
  sat (fun st' => falling st' /\ same_counters st st')
      index_error_or_exit (repeat_down st).
Proof.
  destruct st as [gb [p|] np md ml mr t1 t2 t3 ln ls]; intros Hf;
    [|now elim Hf].
  unfold repeat_down; session_cbv;
    repeat (sat_step index_only; session_cbv); counters.
Qed.

Lemma gravity_counts (fuel : nat) (cfg : Config) (st : Session) :
  falling st ->
  sat (fun st' => lines st <= lines st' /\ losses st' = losses st)
      index_error_or_exit (gravity fuel cfg st).
Proof.
  destruct st as [gb [p|] np md ml mr t1 t2 t3 ln ls]; intros Hf;
    [|now elim Hf].
  unfold gravity; session_cbv;
    repeat (sat_step index_only; session_cbv); counters.
  match goal with
  | H : remove_complete_lines fuel ?b = Ok _ |- _ =>
      pose proof (remove_loop_raises fuel b (rows b - 1) 0) as Hcount;
      unfold remove_complete_lines in H; rewrite H in Hcount
  end.
  simpl in Hcount. lia.
Qed.

Lemma loop_body_counts (fuel : nat) (cfg : Config) (st : Session) :
  sat (counters_grow st) index_error_or_exit (loop_body fuel cfg st).
Proof.
  unfold loop_body.
  eapply sat_bind; [apply spawn_counts|]. intros st1 (Hf1 & Hl1 & Hs1).
  apply sat_bind_event_get. intros evs.
  eapply sat_bind; [now apply handle_events_counts|].
  intros st2 (Hf2 & Hl2 & Hs2).
  eapply sat_bind; [now apply repeat_sideways_counts|].
  intros st3 (Hf3 & Hl3 & Hs3).
  eapply sat_bind; [now apply repeat_down_counts|].
  intros st4 (Hf4 & Hl4 & Hs4).
  eapply sat_weaken; [|now apply gravity_counts].
  intros st5 (Hl5 & Hs5). unfold counters_grow. lia.
Qed.

Lemma session_loop_counts (fuel : nat) (cfg : Config) (finish_time : Q) :
  forall st,
    sat (fun st' => lines st <= lines st' /\ losses st <= losses st')
        index_error_or_exit (session_loop fuel cfg finish_time st).
Proof.
  induction fuel as [|fuel IH]; intros st; cbn [session_loop].
  - intros w. exact I.
  - apply sat_bind_time. intros now.
    destruct (Qltb now finish_time); [|apply sat_ret; lia].
    eapply sat_bind; [apply loop_body_counts|]. intros st1 (Hl1 & Hs1 & _).
    eapply sat_weaken; [|apply IH]. cbv beta. intros st2 (Hl2 & Hs2). lia.
Qed.

Lemma distractor_played (fuel : nat) (cfg : Config) :
  asserts_pass cfg = true ->
  sat (fun r => 0 <= fst r /\ 0 <= snd r) index_error_or_exit
      (distractor fuel cfg).
Proof.
  unfold asserts_pass. intros H.
  apply andb_prop in H as [H H4]. apply andb_prop in H as [H H3].
  apply andb_prop in H as [H1 H2].
  unfold distractor. rewrite H1, H2, H3, H4. unfold assert. cbv zeta.
  do 4 apply sat_bind_ret.
  apply sat_bind_new_piece. intros falling _.
  apply sat_bind_new_piece. intros next _.
  do 4 (apply sat_bind_time; intros ?).
  eapply sat_bind; [apply session_loop_counts|].
  cbv beta. intros st Hst. apply sat_ret. exact Hst.
Qed.

Lemma distractor_refused (fuel : nat) (cfg : Config) (w : World) :
  asserts_pass cfg = false -> distractor fuel cfg w = Raise AssertionError.
Proof.
  unfold asserts_pass, distractor, assert. intros H.
  destruct ((4 <? arg_columns cfg) && (4 <? arg_rows cfg)); [|reflexivity].
  destruct (0 <? fps cfg); [|reflexivity].
  destruct (Qle_bool 0 (top_exclude cfg + bottom_exclude cfg)
            && Qltb (top_exclude cfg + bottom_exclude cfg) 1); [|reflexivity].
  destruct (Qle_bool 0 (left_exclude cfg + right_exclude cfg)
            && Qltb (left_exclude cfg + right_exclude cfg) 1); [|reflexivity].
  discriminate H.
Qed.



(** X22. One pass through the loop never lowers a counter: the lines are
    those of before or more, and the losses those of before or one more. *)
Theorem loop_body_counters_grow (fuel : nat) (cfg : Config)
    (st st' : Session) (w w' : World) :
  loop_body fuel cfg st w = Ok (st', w') ->
  lines st <= lines st' /\ losses st <= losses st' <= losses st + 1.
Proof.
  intros H. pose proof (loop_body_counts fuel cfg st w) as Hsat.
  rewrite H in Hsat. exact Hsat.
Qed.

(** X23. The two numbers [distractor] returns, the lines cleared and the
    losses, are never negative. *)
Theorem distractor_counts_not_negative (fuel : nat) (cfg : Config)
    (w w' : World) (cleared lost : Z) :
  distractor fuel cfg w = Ok ((cleared, lost), w') ->
  0 <= cleared /\ 0 <= lost.
Proof.
  intros H. destruct (asserts_pass cfg) eqn:Hcfg.
  - pose proof (distractor_played fuel cfg Hcfg w) as Hsat.
    rewrite H in Hsat. exact Hsat.
  - rewrite (distractor_refused fuel cfg w Hcfg) in H. discriminate H.
Qed.



Lemma loop_body_counters_grow_witness :
  match loop_body 50 default_config blocked_session (still_world 1) with
  | Ok (st', _) =>
      lines blocked_session <= lines st' /\
      losses blocked_session <= losses st' <= losses blocked_session + 1
  | _ => False
  end.
Proof.
  destruct (loop_body 50 default_config blocked_session (still_world 1))
    as [[st' w']| |] eqn:H.
  - exact (loop_body_counters_grow _ _ _ _ _ _ H).
  - vm_compute in H. discriminate H.
  - vm_compute in H. discriminate H.
Defined.

Lemma distractor_counts_not_negative_witness :
  match distractor 50 short_config ticking_world with
  | Ok ((cleared, lost), _) => 0 <= cleared /\ 0 <= lost
  | _ => False
  end.
Proof.
  destruct (distractor 50 short_config ticking_world)
    as [[[cleared lost] w']| |] eqn:H.
  - exact (distractor_counts_not_negative _ _ _ _ _ _ H).
  - vm_compute in H. discriminate H.
  - vm_compute in H. discriminate H.
Defined.


(** * The shape of the board *)

Lemma for_each_keeps {A S} (Inv : S -> Prop) (xs : list A)
    (body : A -> S -> result S) :
  (forall a s s', Inv s -> body a s = Ok s' -> Inv s') ->
  forall s s', Inv s -> for_each xs body s = Ok s' -> Inv s'.
Proof.
  intros Hbody. induction xs as [|a xs IH]; intros s s' Hs; cbn [for_each].
  - intros [= <-]. exact Hs.
  - destruct (body a s) as [s1| |] eqn:H1; cbn [rbind]; try discriminate.
    apply IH. now apply (Hbody a s).
Qed.

Lemma same_shape_refl (b : GameBoard) : wf_board b -> same_shape b b.
Proof. intros H. now split. Qed.

Lemma same_shape_trans (b b1 b2 : GameBoard) :
  same_shape b b1 -> same_shape b1 b2 -> same_shape b b2.
Proof.
  intros (_ & Hc1 & Hr1) (Hwf & Hc2 & Hr2). split; [exact Hwf|].
  split; congruence.
Qed.

Lemma getitem_Ok {A} (l : list A) (i : Z) (a : A) :
  Py.getitem l i = Ok a -> exists k, l !! k = Some a.
Proof.
  unfold Py.getitem. destruct (Py.norm (length l) i) as [k|]; [|discriminate].
  destruct (l !! k) as [a'|] eqn:Hk; [|discriminate].
  intros [= <-]. now exists k.
Qed.

Lemma setitem_Ok {A} (l l' : list A) (i : Z) (a : A) :
  Py.setitem l i a = Ok l' -> exists k, l' = <[k := a]> l.
Proof.
  unfold Py.setitem. destruct (Py.norm (length l) i) as [k|]; [|discriminate].
  intros [= <-]. now exists k.
Qed.

Lemma state_set_keeps (b b' : GameBoard) (cx cy : Z) (v : cell) :
  wf_board b -> state_set b cx cy v = Ok b' -> same_shape b b'.
Proof.
  intros [Hc Hr]. unfold state_set.
  destruct (Py.getitem (state b) cx) as [col| |] eqn:Hcol; cbn [rbind];
    try discriminate.
  destruct (Py.setitem col cy v) as [col'| |] eqn:Hcol'; cbn [rbind];
    try discriminate.
  destruct (Py.setitem (state b) cx col') as [s'| |] eqn:Hs'; cbn [rbind];
    try discriminate.
  intros [= <-].
  apply getitem_Ok in Hcol as (i & Hi).
  apply setitem_Ok in Hcol' as (j & ->).
  apply setitem_Ok in Hs' as (k & ->).
  split; [|split; reflexivity]. split; simpl.
  - now rewrite length_insert.
  - apply Forall_insert; [exact Hr|]. rewrite length_insert.
    rewrite Forall_lookup in Hr. exact (Hr _ _ Hi).
Qed.

Lemma add_to_board_keeps (p : Piece) (b b' : GameBoard) :
  wf_board b -> add_to_board p b = Ok b' -> same_shape b b'.
Proof.
  intros Hwf. unfold add_to_board.
  apply (for_each_keeps (same_shape b)); [|now apply same_shape_refl].
  intros tx s s' Hs.
  apply (for_each_keeps (same_shape b)); [|exact Hs].
  intros ty s1 s2 Hs1.
  destruct (needs_colour p tx ty) as [[|]| |]; cbn [rbind]; try discriminate.
  - intros Hset. apply (same_shape_trans b s1 s2 Hs1).
    apply (state_set_keeps s1 s2 _ _ _ (proj1 Hs1) Hset).
  - now intros [= <-].
Qed.

Lemma pull_down_keeps (b b' : GameBoard) (y : Z) :
  wf_board b -> pull_down b y = Ok b' -> same_shape b b'.
Proof.
  intros Hwf. unfold pull_down.
  destruct (for_each (Py.xrange_down y 0) _ b) as [b1| |] eqn:H1; cbn [rbind];
    try discriminate.
  assert (Hb1 : same_shape b b1).
  { revert H1. apply (for_each_keeps (same_shape b));
      [|now apply same_shape_refl].
    intros pd s s' Hs.
    apply (for_each_keeps (same_shape b)); [|exact Hs].
    intros cx s1 s2 Hs1.
    destruct (state_get s1 cx (pd - 1)) as [v| |]; cbn [rbind];
      try discriminate.
    intros Hset. apply (same_shape_trans b s1 s2 Hs1).
    apply (state_set_keeps s1 s2 _ _ _ (proj1 Hs1) Hset). }
  apply (for_each_keeps (same_shape b)); [|exact Hb1].
  intros cx s1 s2 Hs1 Hset. apply (same_shape_trans b s1 s2 Hs1).
  apply (state_set_keeps s1 s2 _ _ _ (proj1 Hs1) Hset).
Qed.

Lemma remove_loop_keeps (fuel : nat) :
  forall (b b' : GameBoard) (y n n' : Z),
    wf_board b -> remove_loop fuel b y n = Ok (n', b') -> same_shape b b'.
Proof.
  induction fuel as [|fuel IH]; intros b b' y n n' Hwf; cbn [remove_loop];
    [discriminate|].
  destruct (0 <=? y).
  - destruct (is_complete_line b y) as [[|]| |]; cbn [rbind];
      try discriminate.
    + destruct (pull_down b y) as [b1| |] eqn:Hpull; cbn [rbind];
        try discriminate.
      intros Hrun. pose proof (pull_down_keeps b b1 y Hwf Hpull) as Hb1.
      apply (same_shape_trans b b1 b' Hb1).
      exact (IH b1 b' y (n + 1) n' (proj1 Hb1) Hrun).
    + apply IH. exact Hwf.
  - intros [= _ <-]. now apply same_shape_refl.
Qed.

(** X26. Whenever [add_to_board] and [remove_complete_lines] return, the
    board they leave is still a list of [columns] columns of [rows] cells,
    with the same [columns] and [rows]: no cell is added or lost, whatever
    the piece and its place. *)
Theorem board_methods_keep_the_shape (p : Piece) (b b' : GameBoard)
    (fuel : nat) (n : Z) :
  wf_board b ->
  (add_to_board p b = Ok b' -> same_shape b b') /\
  (remove_complete_lines fuel b = Ok (n, b') -> same_shape b b').
Proof.
  intros Hwf. split.
  - now apply add_to_board_keeps.
  - now apply remove_loop_keeps.
Qed.

(** * The session keeps its pieces on the board *)

Lemma placed_move_left (b : GameBoard) (p : Piece) :
  wf_board b -> placed b p -> legal_left p b = Ok true ->
  placed b (move_left p).
Proof.
  intros Hwf [Hp _] H. split; [exact Hp|].
  rewrite <- moved_left, <- valid_offset by assumption. exact H.
Qed.

Lemma placed_move_right (b : GameBoard) (p : Piece) :
  wf_board b -> placed b p -> legal_right p b = Ok true ->
  placed b (move_right p).
Proof.
  intros Hwf [Hp _] H. split; [exact Hp|].
  rewrite <- moved_right, <- valid_offset by assumption. exact H.
Qed.

Lemma placed_move_down (b : GameBoard) (p : Piece) :
  wf_board b -> placed b p -> legal_down p b = Ok true ->
  placed b (move_down p).
Proof.
  intros Hwf [Hp _] H. split; [exact Hp|].
  rewrite <- moved_down, <- valid_offset by assumption. exact H.
Qed.

Lemma placed_rotate_clockwise (b : GameBoard) (p p' : Piece) :
  wf_board b -> placed b p -> rotate_clockwise p b = Ok p' -> placed b p'.
Proof.
  intros Hwf [Hp Hvalid] Hrun.
  pose proof (piece_ok_set_orientation p (orientation p + 1)) as Hq.
  pose proof (is_valid_position_spec _ b Hwf Hq 0 0) as Hv.
  rewrite (rotate_clockwise_result b p _ Hp Hv) in Hrun.
  injection Hrun as <-.
  destruct (all_cells_ok _ b 0 0); split; assumption.
Qed.

Lemma placed_rotate_counterclockwise (b : GameBoard) (p p' : Piece) :
  wf_board b -> placed b p -> rotate_counterclockwise p b = Ok p' ->
  placed b p'.
Proof.
  intros Hwf [Hp Hvalid] Hrun.
  pose proof (piece_ok_set_orientation p (orientation p - 1)) as Hq.
  pose proof (is_valid_position_spec _ b Hwf Hq 0 0) as Hv.
  rewrite (rotate_counterclockwise_result b p _ Hp Hv) in Hrun.
  injection Hrun as <-.
  destruct (all_cells_ok _ b 0 0); split; assumption.
Qed.

Lemma placed_move_to_bottom (b : GameBoard) (p p' : Piece) :
  wf_board b -> placed b p -> move_to_bottom p b = Ok p' -> placed b p'.
Proof.
  intros Hwf [Hp Hvalid] Hrun. unfold move_to_bottom in Hrun.
  destruct (drop_loop_spec b (Py.xrange2 1 (rows b)) Hwf p Hp)
    as (k & _ & Hdrop & _ & Hkeep).
  rewrite Hdrop in Hrun. injection Hrun as <-.
  split; [exact Hp | now apply Hkeep].
Qed.

Lemma placed_fresh (b : GameBoard) (p : Piece) :
  wf_board b -> Forall (Forall (fun c => c = Blank)) (state b) ->
  4 < columns b -> 4 < rows b -> fresh_piece b p -> placed b p.
Proof.
  intros Hwf Hblank Hc Hr (Hx & Hy & Hp & _). split; [exact Hp|].
  destruct p as [s px py o c]. simpl in Hx, Hy. subst px py.
  exact (proj1 (Piece_init_fits b s o c Hwf Hblank Hc Hr Hp)).
Qed.

Ltac no_raise H := exact I.

Ltac session_ok_intro :=
  let H := fresh "Hinv" in
  intros H; unfold session_ok in H;
  cbv beta iota delta [game_board falling_piece next_piece] in H;
  destruct H as (Hwf & Hc & Hr & Hnp & Hpl).

Ltac session_ok_close :=
  unfold session_ok, falling; session_cbv;
  (split; [split; [|split; [|split; [|split]]]|]);
  try assumption; try discriminate; try exact I;
  eauto using placed_move_left, placed_move_right, placed_move_down,
    placed_rotate_clockwise, placed_rotate_counterclockwise,
    placed_move_to_bottom.

Lemma spawn_ok (st : Session) :
  session_ok st ->
  sat (fun st' => session_ok st' /\ falling st') anything (spawn st).
Proof.
  destruct st as [gb [p|] np md ml mr t1 t2 t3 ln ls];
    session_ok_intro; unfold spawn; session_cbv;
    repeat sat_step no_raise; try solve [session_ok_close].
  - unfold session_ok, falling; session_cbv.
    split; [|discriminate]. split; [exact Hwf|].
    split; [exact Hc|]. split; [exact Hr|].
    split; [apply Hfresh | split; assumption].
  - assert (Hreset : wf_board (reset gb)) by (apply reset_wf; lia).
    unfold session_ok, falling; session_cbv.
    split; [|discriminate]. split; [exact Hreset|].
    split; [exact Hc|]. split; [exact Hr|].
    split; [apply Hfresh1|].
    apply placed_fresh; try assumption. apply reset_blank.
Qed.

Lemma handle_event_ok (cfg : Config) (ev : Event) (st : Session) :
  session_ok st -> falling st ->
  sat (fun st' => session_ok st' /\ falling st') anything
      (handle_event cfg ev st).
Proof.
  destruct st as [gb [p|] np md ml mr t1 t2 t3 ln ls];
    session_ok_intro; intros Hf; [|now elim Hf].
  unfold handle_event; destruct ev; session_cbv;
    repeat sat_step no_raise; first [exact I | session_ok_close].
Qed.

Lemma handle_events_ok (cfg : Config) (evs : list Event) :
  forall st, session_ok st -> falling st ->
  sat (fun st' => session_ok st' /\ falling st') anything
      (handle_events cfg evs st).
Proof.
  induction evs as [|ev evs IH]; intros st Hok Hf; cbn [handle_events].
  - apply sat_ret. now split.
  - eapply sat_bind; [now apply handle_event_ok|].
    intros st1 (Hok1 & Hf1). now apply IH.
Qed.

Lemma repeat_sideways_ok (st : Session) :
  session_ok st -> falling st ->
  sat (fun st' => session_ok st' /\ falling st') anything (repeat_sideways st).
Proof.
  destruct st as [gb [p|] np md ml mr t1 t2 t3 ln ls];
    session_ok_intro; intros Hf; [|now elim Hf].
  unfold repeat_sideways; session_cbv;
    repeat (sat_step no_raise; session_cbv); session_ok_close.
Qed.

Lemma repeat_down_ok (st : Session) :
  session_ok st -> falling st ->
  sat (fun st' => session_ok st' /\ falling st') anything (repeat_down st).
Proof.
  destruct st as [gb [p|] np md ml mr t1 t2 t3 ln ls];
    session_ok_intro; intros Hf; [|now elim Hf].
  unfold repeat_down; session_cbv;
    repeat (sat_step no_raise; session_cbv); session_ok_close.
Qed.

Lemma gravity_ok (fuel : nat) (cfg : Config) (st : Session) :
  session_ok st -> falling st ->
  sat session_ok anything (gravity fuel cfg st).
Proof.
  destruct st as [gb [p|] np md ml mr t1 t2 t3 ln ls];
    session_ok_intro; intros Hf; [|now elim Hf].
  unfold gravity; session_cbv;
    repeat (sat_step no_raise; session_cbv);
    unfold session_ok; session_cbv.
  - split; [exact Hwf|]. split; [exact Hc|]. split; [exact Hr|].
    split; [exact Hnp | now apply placed_move_down].
  - match goal with
    | H1 : add_to_board p gb = Ok ?b1,
      H2 : remove_complete_lines fuel ?b1 = Ok ?r |- _ =>
        destruct r as [n b2];
        pose proof (add_to_board_keeps p gb b1 Hwf H1) as (Hwf1 & Hc1 & Hr1);
        pose proof (remove_loop_keeps fuel b1 b2 _ _ _ Hwf1 H2)
          as (Hwf2 & Hc2 & Hr2)
    end.
    cbn [snd fst]. split; [exact Hwf2|].
    split; [lia|]. split; [lia|]. split; [exact Hnp | exact I].
  - split; [exact Hwf|]. split; [exact Hc|]. split; [exact Hr|].
    split; [exact Hnp | exact Hpl].
Qed.

Lemma loop_body_ok (fuel : nat) (cfg : Config) (st : Session) :
  session_ok st -> sat session_ok anything (loop_body fuel cfg st).
Proof.
  intros Hok. unfold loop_body.
  eapply sat_bind; [now apply spawn_ok|]. intros st1 (Hok1 & Hf1).
  apply sat_bind_event_get. intros evs.
  eapply sat_bind; [now apply handle_events_ok|]. intros st2 (Hok2 & Hf2).
  eapply sat_bind; [now apply repeat_sideways_ok|]. intros st3 (Hok3 & Hf3).
  eapply sat_bind; [now apply repeat_down_ok|]. intros st4 (Hok4 & Hf4).
  now apply gravity_ok.
Qed.

Lemma session_loop_ok (fuel : nat) (cfg : Config) (finish_time : Q) :
  forall st, session_ok st ->
  sat session_ok anything (session_loop fuel cfg finish_time st).
Proof.
  induction fuel as [|fuel IH]; intros st Hok; cbn [session_loop].
  - intros w. exact I.
  - apply sat_bind_time. intros now.
    destruct (Qltb now finish_time); [|now apply sat_ret].
    eapply sat_bind; [now apply loop_body_ok|]. intros st1 Hok1.
    now apply IH.
Qed.

(** X27. If the board of the session is a [columns] by [rows] list with
    more than 4 columns and rows and the falling piece, when there is one,
    is in a valid position, then the same holds after a pass through the
    loop that raises nothing, and after any number of passes: every move,
    rotation, drop, landing and lost game leaves the falling piece in a
    valid position of such a board. *)
Theorem session_stays_ok (fuel : nat) (cfg : Config) (finish_time : Q)
    (st st' : Session) (w w' : World) :
  session_ok st ->
  (loop_body fuel cfg st w = Ok (st', w') -> session_ok st') /\
  (session_loop fuel cfg finish_time st w = Ok (st', w') -> session_ok st').
Proof.
  intros Hok. split; intros H.
  - pose proof (loop_body_ok fuel cfg st Hok w) as Hsat.
    rewrite H in Hsat. exact Hsat.
  - pose proof (session_loop_ok fuel cfg finish_time st Hok w) as Hsat.
    rewrite H in Hsat. exact Hsat.
Qed.

Lemma session_stays_ok_witness :
  session_ok falling_J_session /\
  match loop_body 50 default_config falling_J_session (still_world 1) with
  | Ok (st', _) => session_ok st'
  | _ => False
  end.
Proof.
  assert (Hok : session_ok falling_J_session).
  { split; [apply default_board_wf|]. split; [reflexivity|].
    split; [reflexivity|].
    assert (Hp : piece_ok upright_J) by (vm_compute; split; congruence).
    split; [exact Hp|]. split; [exact Hp | vm_compute; reflexivity]. }
  split; [exact Hok|].
  destruct (loop_body 50 default_config falling_J_session (still_world 1))
    as [[st' w']| |] eqn:H.
  - exact (proj1 (session_stays_ok 50 default_config 0 falling_J_session
                    st' (still_world 1) w' Hok) H).
  - vm_compute in H. discriminate H.
  - vm_compute in H. discriminate H.
Defined.

Lemma board_methods_keep_the_shape_witness :
  wf_board default_board /\
  match add_to_board upright_J default_board with
  | Ok b' => same_shape default_board b'
  | _ => False
  end.
Proof.
  split; [apply default_board_wf|].
  destruct (add_to_board upright_J default_board) as [b'| |] eqn:H.
  - exact (proj1 (board_methods_keep_the_shape upright_J default_board b'
                    0 0 default_board_wf) H).
  - vm_compute in H. discriminate H.
  - vm_compute in H. discriminate H.
Defined.

(** * The boxes that stay when lines are removed *)

Lemma remove_loop_conserves (fuel : nat) :
  forall (b b' : GameBoard) (y n n' : Z),
    wf_board b -> y < rows b ->
    remove_loop fuel b y n = Ok (n', b') ->
    Z.of_nat (coloured_cells b') + (n' - n) * columns b
    = Z.of_nat (coloured_cells b).
Proof.
  induction fuel as [|fuel IH]; intros b b' y n n' Hwf Hy; cbn [remove_loop];
    [discriminate|].
  destruct (Z.leb_spec 0 y) as [Hy0|Hy0].
  - rewrite is_complete_line_spec by (exact Hwf || lia). cbn [rbind].
    destruct (complete_row (state b) (Z.to_nat y)) eqn:Hrow.
    + rewrite pull_down_spec by (exact Hwf || lia). cbn [rbind].
      intros Hrun.
      pose proof (shifted_wf b y Hwf ltac:(lia)) as Hwf1.
      pose proof (IH _ b' y (n + 1) n' Hwf1 Hy Hrun) as Hrec.
      pose proof (coloured_cells_shift (state b) (Z.to_nat y) Hrow) as Hcount.
      destruct Hwf as [Hcols _].
      unfold coloured_cells in *. cbn [state columns set_state] in Hrec.
      nia.
    + intros Hrun. exact (IH b b' (y - 1) n n' Hwf ltac:(lia) Hrun).
  - intros [= <- <-]. lia.
Qed.

(** X28. [remove_complete_lines] takes off the board the boxes of the
    lines it counts and no other: the coloured cells left and [columns]
    times the number returned make the coloured cells there were. *)
Theorem remove_complete_lines_keeps_other_boxes (b b' : GameBoard)
    (fuel : nat) (n : Z) :
  wf_board b ->
  remove_complete_lines fuel b = Ok (n, b') ->
  Z.of_nat (coloured_cells b') + n * columns b = Z.of_nat (coloured_cells b).
Proof.
  intros Hwf Hrun.
  pose proof (remove_loop_conserves fuel b b' (rows b - 1) 0 n Hwf
                ltac:(lia) Hrun) as H.
  rewrite Z.sub_0_r in H. exact H.
Qed.

Lemma remove_complete_lines_keeps_other_boxes_witness :
  wf_board board_with_full_row /\
  match remove_complete_lines 41 board_with_full_row with
  | Ok (n, b') =>
      Z.of_nat (coloured_cells b') + n * columns board_with_full_row
      = Z.of_nat (coloured_cells board_with_full_row)
  | _ => False
  end.
Proof.
  assert (Hwf : wf_board board_with_full_row)
    by (split; [reflexivity | repeat constructor]).
  split; [exact Hwf|].
  destruct (remove_complete_lines 41 board_with_full_row)
    as [[n b']| |] eqn:H.
  - exact (remove_complete_lines_keeps_other_boxes _ _ _ _ Hwf H).
  - vm_compute in H. discriminate H.
  - vm_compute in H. discriminate H.
Defined.

